(** * Fox_ETL: a shallow embedding of the aggregation, import and
    orchestration scripts, and the properties of their specification. *)

From Stdlib Require Import ZArith Lia Bool List String Ascii Permutation Sorting.Sorted.
Import ListNotations.
Open Scope Z_scope.

(* ================================================================== *)
(** ** Calendar dates, after CPython's [datetime] module.

    A date is represented by its proleptic Gregorian ordinal, as
    [date.toordinal()] returns it (0001-01-01 has ordinal 1).  Adding a
    [timedelta] is ordinal addition, checked against the range of
    [date]/[datetime] (years 1..9999), outside which CPython raises
    [OverflowError]. *)
Module Cal.

Definition MINYEAR := 1.
Definition MAXYEAR := 9999.

(** [_is_leap] *)
Definition is_leap (year : Z) : bool :=
  (year mod 4 =? 0) && (negb (year mod 100 =? 0) || (year mod 400 =? 0)).

(** [_days_before_year] *)
Definition days_before_year (year : Z) : Z :=
  let y := year - 1 in y * 365 + y / 4 - y / 100 + y / 400.

(** [_DAYS_IN_MONTH] and [_DAYS_BEFORE_MONTH], indexed by month 1..12. *)
Definition DAYS_IN_MONTH : list Z :=
  [-1; 31; 28; 31; 30; 31; 30; 31; 31; 30; 31; 30; 31].
Definition DAYS_BEFORE_MONTH : list Z :=
  [-1; 0; 31; 59; 90; 120; 151; 181; 212; 243; 273; 304; 334].

(** [_days_in_month] *)
Definition days_in_month (year month : Z) : Z :=
  if (month =? 2) && is_leap year then 29
  else nth (Z.to_nat month) DAYS_IN_MONTH 0.

(** [_days_before_month] *)
Definition days_before_month (year month : Z) : Z :=
  nth (Z.to_nat month) DAYS_BEFORE_MONTH 0
  + (if (month >? 2) && is_leap year then 1 else 0).

(** [_ymd2ord] *)
Definition ymd2ord (year month day : Z) : Z :=
  days_before_year year + days_before_month year month + day.

(** The arguments accepted by the [date] constructor. *)
Definition valid_ymd (year month day : Z) : Prop :=
  MINYEAR <= year <= MAXYEAR /\ 1 <= month <= 12 /\
  1 <= day <= days_in_month year month.

Definition MINORD := 1.
Definition MAXORD := ymd2ord MAXYEAR 12 31.

(** [date + timedelta(days=k)]: [OverflowError] ([None]) out of range. *)
Definition add_days (o k : Z) : option Z :=
  if (MINORD <=? o + k) && (o + k <=? MAXORD) then Some (o + k) else None.

(** [date.weekday()]: Monday is 0. *)
Definition weekday (o : Z) : Z := (o + 6) mod 7.

(** [_isoweek1monday] *)
Definition isoweek1monday (year : Z) : Z :=
  let THURSDAY := 3 in
  let firstday := ymd2ord year 1 1 in
  let firstweekday := (firstday + 6) mod 7 in
  let week1monday := firstday - firstweekday in
  if firstweekday >? THURSDAY then week1monday + 7 else week1monday.

(** [date.isocalendar()], returning (ISO year, ISO week, ISO weekday);
    [divmod] is floor division, as [Z.div] and [Z.modulo]. *)
Definition isocalendar (y m d : Z) : Z * Z * Z :=
  let year := y in
  let week1monday := isoweek1monday year in
  let today := ymd2ord y m d in
  let week := (today - week1monday) / 7 in
  let day := (today - week1monday) mod 7 in
  if week <? 0 then
    let year := year - 1 in
    let week1monday := isoweek1monday year in
    (year, (today - week1monday) / 7 + 1, (today - week1monday) mod 7 + 1)
  else if week >=? 52 then
    if today >=? isoweek1monday (year + 1) then (year + 1, 1, day + 1)
    else (year, week + 1, day + 1)
  else (year, week + 1, day + 1).

End Cal.

(* ================================================================== *)
(** ** The pieces of Python's [str] used to build and parse week ids. *)
Module PyStr.

Definition digit_char (n : Z) : ascii := ascii_of_nat (48 + Z.to_nat n).
Definition is_digit (c : ascii) : bool :=
  (48 <=? Z.of_nat (nat_of_ascii c)) && (Z.of_nat (nat_of_ascii c) <=? 57).
Definition digit_val (c : ascii) : Z := Z.of_nat (nat_of_ascii c) - 48.

(** Decimal digits of a non-negative integer, most significant first. *)
Fixpoint digits (fuel : nat) (n : Z) : string :=
  match fuel with
  | O => EmptyString
  | S f =>
      if n <? 10 then String (digit_char n) EmptyString
      else (digits f (n / 10) ++ String (digit_char (n mod 10)) EmptyString)%string
  end.

(** [str(n)] for an [int]. *)
Definition str_of_Z (n : Z) : string :=
  if n <? 0 then String "-"%char (digits (S (Z.to_nat (- n))) (- n))
  else digits (S (Z.to_nat n)) n.

(** The format spec [02d]: zero-padded to width 2. *)
Definition format_02d (n : Z) : string :=
  let s := str_of_Z n in
  if (String.length s <? 2)%nat then String "0"%char s else s.

(** [int(s)] on a string of ASCII digits (leading zeros allowed); any other
    string raises [ValueError], [None] here.  The signs, surrounding
    whitespace and underscores that [int] also accepts never occur in the
    strings this program parses. *)
Fixpoint int_acc (v : Z) (s : string) : Z :=
  match s with
  | EmptyString => v
  | String c s' => int_acc (10 * v + digit_val c) s'
  end.
Fixpoint all_digits (s : string) : bool :=
  match s with
  | EmptyString => true
  | String c s' => is_digit c && all_digits s'
  end.
Definition py_int (s : string) : option Z :=
  match s with
  | EmptyString => None
  | _ => if all_digits s then Some (int_acc 0 s) else None
  end.

(** [s.split(sep)] for a non-empty separator: cut at every occurrence,
    scanning left to right. *)
Fixpoint split_fuel (fuel : nat) (sep s cur : string) : list string :=
  match fuel with
  | O => [(cur ++ s)%string]
  | S f =>
      match s with
      | EmptyString => [cur]
      | String c s' =>
          if String.prefix sep s then
            cur :: split_fuel f sep
                   (substring (String.length sep) (String.length s) s) EmptyString
          else split_fuel f sep s' (cur ++ String c EmptyString)%string
      end
  end.
Definition split (s sep : string) : list string :=
  split_fuel (S (String.length s)) sep s EmptyString.

End PyStr.

(* ================================================================== *)
(** ** Week helpers of the TPY jobs
    ([aggregate_tpy_all_time_daily.py], [aggregate_tpy_all_time_weekly.py]).
    Dates are ordinals; a [None] result is a raised exception. *)
Module Week.
Import Cal.

(** [get_week_bounds(target_date)] *)
Definition get_week_bounds (y m d : Z) : option (Z * Z) :=
  let target := ymd2ord y m d in
  let days_since_monday := weekday target in
  match add_days target (- days_since_monday) with
  | None => None
  | Some week_start =>
      match add_days week_start 6 with
      | None => None
      | Some week_end => Some (week_start, week_end)
      end
  end.

(** [get_week_id(target_date)] = [f"{year}-W{week_num:02d}"] *)
Definition get_week_id (y m d : Z) : string :=
  let '(year, week_num, _) := isocalendar y m d in
  (PyStr.str_of_Z year ++ "-W" ++ PyStr.format_02d week_num)%string.

(** [get_week_date_range(week_id)] *)
Definition get_week_date_range (week_id : string) : option (Z * Z) :=
  match PyStr.split week_id "-W" with
  | [ys; ws] =>
      match PyStr.py_int ys, PyStr.py_int ws with
      | Some year, Some week =>
          if (MINYEAR <=? year) && (year <=? MAXYEAR) then
            let jan4 := ymd2ord year 1 4 in
            match add_days jan4 (- weekday jan4) with
            | None => None
            | Some monday1 =>
                match add_days monday1 (7 * (week - 1)) with
                | None => None
                | Some week_start =>
                    match add_days week_start 6 with
                    | None => None
                    | Some week_end => Some (week_start, week_end)
                    end
                end
            end
          else None
      | _, _ => None
      end
  | _ => None
  end.

End Week.

(* ================================================================== *)
(** ** Rows of [workstation_master_log] and SQL's treatment of NULL.

    Every column is nullable in the raw table, so each is an [option];
    [None] is SQL NULL.  A timestamp is a date ordinal (as above) and the
    seconds since midnight.  A comparison with NULL is UNKNOWN, and a
    [WHERE] clause or a [CASE WHEN] keeps only TRUE, so an [AND] chain of
    comparisons holds exactly when each comparison is TRUE. *)
Module Sql.

Record timestamp := mkTS { ts_date : Z; ts_secs : Z }.

Definition ts_eqb (a b : timestamp) : bool :=
  (ts_date a =? ts_date b) && (ts_secs a =? ts_secs b).

(** [ts >= d] and [ts < d] for a [date] parameter [d], which the
    comparison casts to midnight of [d]. *)
Definition ts_ge_date (t : timestamp) (d : Z) : bool := d <=? ts_date t.
Definition ts_lt_date (t : timestamp) (d : Z) : bool := ts_date t <? d.

(** [col = 'lit'] and [col != 'lit'] are TRUE only for a non-NULL [col]. *)
Definition eq_lit (c : option string) (lit : string) : bool :=
  match c with Some v => String.eqb v lit | None => false end.
Definition neq_lit (c : option string) (lit : string) : bool :=
  match c with Some v => negb (String.eqb v lit) | None => false end.
(** [col NOT IN (l1, .., ln)] *)
Definition not_in (c : option string) (lits : list string) : bool :=
  match c with
  | Some v => negb (existsb (String.eqb v) lits)
  | None => false
  end.
(** [col = %s] with a bound parameter; [None] as the parameter is NULL. *)
Definition eq_param {A} (eqb : A -> A -> bool) (c p : option A) : bool :=
  match c, p with Some a, Some b => eqb a b | _, _ => false end.

(** [GROUP BY] puts NULLs in one group: keys are compared with option
    equality. *)
Definition opt_eqb {A} (eqb : A -> A -> bool) (a b : option A) : bool :=
  match a, b with
  | Some x, Some y => eqb x y
  | None, None => true
  | _, _ => false
  end.

(** The distinct group keys of a list (one per group). *)
Fixpoint distinct {K} (eqb : K -> K -> bool) (ks : list K) : list K :=
  match ks with
  | [] => []
  | k :: ks' =>
      let d := distinct eqb ks' in
      if existsb (eqb k) d then d else k :: d
  end.

Definition count {A} (p : A -> bool) (l : list A) : nat := List.length (filter p l).

End Sql.

Record ws_row := mkWS {
  sn : option string;
  pn : option string;
  customer_pn : option string;
  workstation_name : option string;
  history_station_start_time : option Sql.timestamp;
  history_station_end_time : option Sql.timestamp;
  hours : option string;
  service_flow : option string;
  model : option string;
  history_station_passing_status : option string;
  passing_station_method : option string;
  operator : option string;
  first_station_start_time : option Sql.timestamp;
  data_source : option string
}.

(* ================================================================== *)
(** ** Weekly first-pass yield
    ([calculate_weekly_first_pass_yield_from_raw], lines 43-102). *)
Module FPY.
Import Sql.

(** The [WHERE] clause of [part_analysis]; the parameters are
    [week_start] and [week_end + timedelta(days=1)]. *)
Definition in_scope (week_start week_end : Z) (r : ws_row) : bool :=
  match history_station_end_time r with
  | Some t => ts_ge_date t week_start && ts_lt_date t (week_end + 1)
  | None => false
  end
  && not_in (service_flow r) ["NC Sort"; "RO"]%string
  && (match service_flow r with Some _ => true | None => false end)
  && neq_lit (workstation_name r) "SORTING".

Definition key := (option string * option string)%type.
Definition key_eqb (a b : key) : bool :=
  opt_eqb String.eqb (fst a) (fst b) && opt_eqb String.eqb (snd a) (snd b).
Definition key_of (r : ws_row) : key := (sn r, model r).

(** One row of the CTE [part_analysis]: [(sn, model)], [reached_packing],
    [failure_count]. *)
Record part := mkPart { p_key : key; reached_packing : nat; failure_count : nat }.

Definition part_analysis (week_start week_end : Z) (log : list ws_row) : list part :=
  let rows := filter (in_scope week_start week_end) log in
  map (fun k =>
         let g := filter (fun r => key_eqb (key_of r) k) rows in
         mkPart k (count (fun r => eq_lit (workstation_name r) "PACKING") g)
                  (count (fun r => neq_lit (history_station_passing_status r) "Pass") g))
      (distinct key_eqb (map key_of rows)).

Record fpy_counts := mkFPY {
  parts_started : nat;
  first_pass_success : nat;
  parts_completed : nat;
  parts_failed : nat;
  parts_stuck_in_limbo : nat
}.

(** The outer [SELECT] over [part_analysis]. *)
Definition fpy_select (ps : list part) : fpy_counts :=
  mkFPY (List.length ps)
        (count (fun p => (0 <? reached_packing p)%nat && (failure_count p =? 0)%nat) ps)
        (count (fun p => (0 <? reached_packing p)%nat) ps)
        (count (fun p => (0 <? failure_count p)%nat) ps)
        (count (fun p => (reached_packing p =? 0)%nat && (failure_count p =? 0)%nat) ps).

(** The Python part: each yield is the pair (numerator, denominator) of
    the float division [numerator / denominator * 100] it is computed
    from, later rounded to 2 decimals; the denominator 0 gives yield 0. *)
Record fpy_result := mkRes {
  traditional : nat * nat;        (* firstPassSuccess / partsStarted *)
  active_parts : nat;
  completed_only : nat * nat;     (* firstPassSuccess / activeParts *)
  breakdown : fpy_counts
}.

Definition calculate_weekly_first_pass_yield_from_raw
    (log : list ws_row) (week_start week_end : Z) : fpy_result :=
  let c := fpy_select (part_analysis week_start week_end log) in
  if (0 <? parts_started c)%nat then
    let active := (parts_completed c + parts_failed c)%nat in
    mkRes (first_pass_success c, parts_started c) active
          (first_pass_success c, active) c
  else mkRes (0, 0)%nat 0 (0, 0)%nat (mkFPY 0 0 0 0 0).

End FPY.

(* ================================================================== *)
(** ** Duplicate check and insert of [import_workstation_file.py]
    (lines 63-134).  The rows are the [mapped_data] the mapping loop
    produced: [customer_pn] is [None] when the cell strips to the empty
    string, a time column is [None] when the cell is NaN, and
    [data_source] is ['workstation']. *)
Module Import_WS.
Import Sql.

(** [check_query]: [COUNT] of the table rows on which each of the 14
    comparisons [col = %s] is TRUE. *)
Definition matches (row t : ws_row) : bool :=
  eq_param String.eqb (sn t) (sn row)
  && eq_param String.eqb (pn t) (pn row)
  && eq_param String.eqb (customer_pn t) (customer_pn row)
  && eq_param String.eqb (workstation_name t) (workstation_name row)
  && eq_param ts_eqb (history_station_start_time t) (history_station_start_time row)
  && eq_param ts_eqb (history_station_end_time t) (history_station_end_time row)
  && eq_param String.eqb (hours t) (hours row)
  && eq_param String.eqb (service_flow t) (service_flow row)
  && eq_param String.eqb (model t) (model row)
  && eq_param String.eqb (history_station_passing_status t) (history_station_passing_status row)
  && eq_param String.eqb (passing_station_method t) (passing_station_method row)
  && eq_param String.eqb (operator t) (operator row)
  && eq_param ts_eqb (first_station_start_time t) (first_station_start_time row)
  && eq_param String.eqb (data_source t) (data_source row).

Definition exists_count (table : list ws_row) (row : ws_row) : nat :=
  count (matches row) table.

(** Every row is checked against the table as it was before the insert;
    [new_records] keeps those with count 0. *)
Definition new_records (table mapped_data : list ws_row) : list ws_row :=
  filter (fun row => (exists_count table row =? 0)%nat) mapped_data.

(** The constraints of [workstation_master_log] (its [CREATE TABLE] in
    [upload_workstation_master_log.py]) on the 14 inserted columns:
    [NOT NULL] on [sn], [workstation_name], both station times and
    [data_source]; [VARCHAR(255)] on the text columns and [VARCHAR(50)]
    on [data_source].  Its [UNIQUE] constraint also covers
    [outbound_version], which the import leaves NULL, so it never fires
    on an imported row. *)
Definition not_null {A} (c : option A) : bool :=
  match c with Some _ => true | None => false end.
Definition varchar_ok (n : nat) (c : option string) : bool :=
  match c with Some v => (String.length v <=? n)%nat | None => true end.

Definition insertable (row : ws_row) : bool :=
  not_null (sn row) && not_null (workstation_name row)
  && not_null (history_station_start_time row) && not_null (history_station_end_time row)
  && not_null (data_source row)
  && varchar_ok 255 (sn row) && varchar_ok 255 (pn row) && varchar_ok 255 (model row)
  && varchar_ok 255 (workstation_name row)
  && varchar_ok 255 (history_station_passing_status row)
  && varchar_ok 255 (operator row) && varchar_ok 255 (customer_pn row)
  && varchar_ok 255 (hours row) && varchar_ok 255 (service_flow row)
  && varchar_ok 255 (passing_station_method row) && varchar_ok 50 (data_source row).

(** [if new_records:] [execute_values] then [conn.commit()]: the table
    after one import.  [execute_values] sends the rows in pages, all in
    the one transaction; a row that breaks a constraint raises, and the
    handler's [conn.rollback()] discards every row of the import. *)
Definition import_rows (table mapped_data : list ws_row) : list ws_row :=
  let nr := new_records table mapped_data in
  if forallb insertable nr then table ++ nr else table.

End Import_WS.

(* ================================================================== *)
(** ** Packing aggregation ([AGGREGATE_SQL] of
    [aggregate_packing_daily.py] and [aggregate_packing_weekly_all_time_dedup.py]). *)
Module Packing.
Import Sql.

(** [EXTRACT(DOW FROM ts)]: 0 is Sunday, 6 is Saturday.  Ordinal 1 is a
    Monday, so the day of week is the ordinal modulo 7. *)
Definition dow (t : timestamp) : Z := ts_date t mod 7.

(** The [CASE] expression for [pack_date]; [DATE(ts) - INTERVAL 'k days']
    is midnight of the earlier day, stored in a [DATE] column. *)
Definition pack_date_of (t : timestamp) : Z :=
  if dow t =? 6 then ts_date t - 1
  else if dow t =? 0 then ts_date t - 2
  else ts_date t.

Definition pack_date (r : ws_row) : option Z :=
  option_map pack_date_of (history_station_end_time r).

(** [WHERE workstation_name = 'PACKING' AND history_station_passing_status = 'Pass'] *)
Definition packing_pass (r : ws_row) : bool :=
  eq_lit (workstation_name r) "PACKING" && eq_lit (history_station_passing_status r) "Pass".

(** The recent job's extra condition
    [history_station_end_time >= CURRENT_DATE - INTERVAL '7 days']. *)
Definition in_recent_window (current_date : Z) (r : ws_row) : bool :=
  match history_station_end_time r with
  | Some t => ts_ge_date t (current_date - 7)
  | None => false
  end.

Definition gkey := (option Z * option string * option string)%type.
Definition gkey_eqb (a b : gkey) : bool :=
  let '(d1, m1, p1) := a in let '(d2, m2, p2) := b in
  opt_eqb Z.eqb d1 d2 && opt_eqb String.eqb m1 m2 && opt_eqb String.eqb p1 p2.
Definition gkey_of (r : ws_row) : gkey := (pack_date r, model r, pn r).

(** A row of the [SELECT]: [(pack_date, model, part_number, packed_count)]. *)
Definition agg_row := (gkey * nat)%type.

Definition group_count (rows : list ws_row) : list agg_row :=
  map (fun k => (k, count (fun r => gkey_eqb (gkey_of r) k) rows))
      (distinct gkey_eqb (map gkey_of rows)).

Definition aggregate_all_time (log : list ws_row) : list agg_row :=
  group_count (filter packing_pass log).

Definition aggregate_recent (current_date : Z) (log : list ws_row) : list agg_row :=
  group_count (filter (fun r => packing_pass r && in_recent_window current_date r) log).

(** A row of [packing_daily_summary (pack_date, model, part_number,
    packed_count)], whose key columns are [NOT NULL]. *)
Definition summary_row := (Z * string * string * nat)%type.

(** [INSERT INTO packing_daily_summary ... SELECT ...] without
    [ON CONFLICT]: a NULL key column violates [NOT NULL] and fails the
    statement ([None]). *)
Definition to_summary (a : agg_row) : option summary_row :=
  match a with
  | ((Some d, Some m, Some p), c) => Some (d, m, p, c)
  | _ => None
  end.
Fixpoint insert_all (acc : list summary_row) (rows : list agg_row)
    : option (list summary_row) :=
  match rows with
  | [] => Some acc
  | a :: rest =>
      match to_summary a with
      | Some s => insert_all (acc ++ [s]) rest
      | None => None
      end
  end.

(** [main] of the recent job.  Its first statement is
    [cur.execute(CREATE_TABLE_SQL)]; [create_ok] is whether that
    statement succeeds.  Each of CREATE, TRUNCATE and the aggregate
    [INSERT] is committed on its own; an exception rolls back only the
    uncommitted statement. *)
Definition recent_main (create_ok : bool) (current_date : Z)
    (log : list ws_row) (table : list summary_row) : list summary_row :=
  if create_ok then
    (* TRUNCATE TABLE packing_daily_summary; commit *)
    match insert_all [] (aggregate_recent current_date log) with
    | Some t => t
    | None => []
    end
  else table.

(** [aggregate_packing_daily.py] never defines [CREATE_TABLE_SQL]: the
    first statement of [main] raises [NameError]. *)
Definition CREATE_TABLE_SQL_defined : bool := false.

Definition packing_daily_main (current_date : Z) (log : list ws_row)
    (table : list summary_row) : list summary_row :=
  recent_main CREATE_TABLE_SQL_defined current_date log table.

End Packing.

(* ================================================================== *)
(** ** Model-specific throughput yields and the hardcoded four-station
    TPY ([calculate_model_specific_throughput_yields], lines 106-161, and
    [calculate_hardcoded_tpy], lines 163-206).

    The yields are Python floats.  The float operations the code performs
    are kept abstract: [R] is the float type, [one] is [1.0], [mul] is
    [*], [div100] is [x / 100.0], [times100] is [x * 100], [round2] is
    [round(x, 2)], and [yield_of passed total] is
    [round((passed / total * 100) if total > 0 else 0, 2)]. *)
Module TPY.
Import Sql.

Definition SXM_models := ["Tesla SXM4"; "Tesla SXM5"]%string.

(** The [WHERE] clause of the per-station query. *)
Definition in_scope (week_start week_end : Z) (r : ws_row) : bool :=
  FPY.in_scope week_start week_end r
  && (existsb (fun m => eq_lit (model r) m) SXM_models || eq_lit (model r) "SXM6").

Definition skey := (option string * option string)%type.
Definition skey_eqb (a b : skey) : bool :=
  opt_eqb String.eqb (fst a) (fst b) && opt_eqb String.eqb (snd a) (snd b).
Definition skey_of (r : ws_row) : skey := (model r, workstation_name r).

(** A result row: model, workstation_name, total_parts, passed_parts,
    failed_parts ([GROUP BY model, workstation_name HAVING COUNT >= 1]). *)
Record station_row := mkSR {
  sr_key : skey; sr_total : nat; sr_passed : nat; sr_failed : nat }.

Definition station_query (week_start week_end : Z) (log : list ws_row)
    : list station_row :=
  let rows := filter (in_scope week_start week_end) log in
  map (fun k =>
         let g := filter (fun r => skey_eqb (skey_of r) k) rows in
         mkSR k (List.length g)
              (count (fun r => eq_lit (history_station_passing_status r) "Pass") g)
              (count (fun r => neq_lit (history_station_passing_status r) "Pass") g))
      (distinct skey_eqb (map skey_of rows)).

(** Python dicts as association lists; assignment replaces the value of
    a present key and appends a new key at the end. *)
Definition dict (K V : Type) := list (K * V).
Fixpoint dict_get {K V} (eqb : K -> K -> bool) (k : K) (d : dict K V) : option V :=
  match d with
  | [] => None
  | (k', v) :: d' => if eqb k k' then Some v else dict_get eqb k d'
  end.
Fixpoint dict_set {K V} (eqb : K -> K -> bool) (k : K) (v : V) (d : dict K V)
    : dict K V :=
  match d with
  | [] => [(k, v)]
  | (k', v') :: d' => if eqb k k' then (k', v) :: d' else (k', v') :: dict_set eqb k v d'
  end.

Definition okey_eqb := opt_eqb String.eqb.

Section Floats.
Variable R : Type.
Variable one : R.
Variable mul : R -> R -> R.
Variable div100 : R -> R.
Variable times100 : R -> R.
Variable round2 : R -> R.
Variable yield_of : nat -> nat -> R.

Record station_data := mkSD {
  totalParts : nat; passedParts : nat; failedParts : nat; throughputYield : R }.

(** The loop over the result rows, building
    [model_specific_yields[model][station]] (the ["overall"] entry, which
    none of the three model names used below can reach, is left out). *)
Definition add_row (d : dict (option string) (dict (option string) station_data))
    (s : station_row) : dict (option string) (dict (option string) station_data) :=
  let '(m, st) := sr_key s in
  let d := match dict_get okey_eqb m d with
           | Some _ => d
           | None => dict_set okey_eqb m [] d
           end in
  let inner := match dict_get okey_eqb m d with Some i => i | None => [] end in
  dict_set okey_eqb m
    (dict_set okey_eqb st
       (mkSD (sr_total s) (sr_passed s) (sr_failed s) (yield_of (sr_passed s) (sr_total s)))
       inner) d.

Definition calculate_model_specific_throughput_yields (week_start week_end : Z)
    (log : list ws_row) : dict (option string) (dict (option string) station_data) :=
  fold_left add_row (station_query week_start week_end log) [].

(** One model family of [calculate_hardcoded_tpy]: the stations found
    and the TPY, [None] unless all four stations were found. *)
Definition hardcoded_family (model_yields : dict (option string) (dict (option string) station_data))
    (model_key : string) (stations : list string) : list (string * R) * option R :=
  let found :=
    flat_map (fun station =>
      match dict_get okey_eqb (Some model_key) model_yields with
      | Some inner =>
          match dict_get okey_eqb (Some station) inner with
          | Some sd => [(station, throughputYield sd)]
          | None => []
          end
      | None => []
      end) stations in
  let values := map (fun sy => div100 (snd sy)) found in
  (found,
   if (List.length values =? 4)%nat
   then Some (round2 (times100 (fold_left mul values one)))
   else None).

Definition sxm4_stations := ["VI2"; "ASSY2"; "FI"; "FQC"]%string.
Definition sxm5_stations := ["BBD"; "ASSY2"; "FI"; "FQC"]%string.

(** The model key each family is looked up under. *)
Definition family_key (family : string) : string :=
  if String.eqb family "SXM6" then "SXM6" else ("Tesla " ++ family)%string.
Definition family_stations (family : string) : list string :=
  if String.eqb family "SXM4" then sxm4_stations else sxm5_stations.

Definition calculate_hardcoded_tpy
    (model_yields : dict (option string) (dict (option string) station_data))
    : dict string (list (string * R) * option R) :=
  map (fun fam => (fam, hardcoded_family model_yields (family_key fam) (family_stations fam)))
      ["SXM4"; "SXM5"; "SXM6"]%string.

End Floats.
End TPY.

(* ================================================================== *)
(** ** [INSERT ... ON CONFLICT (target) DO UPDATE SET ...].

    [key] projects the conflict-target columns and [set existing excluded]
    is the row after the [SET] list.  One statement inserting several rows
    fails ([None]) when two of them share a conflict key (PostgreSQL's
    "command cannot affect row a second time"). *)
Module Upsert.

Section Generic.
Context {Row K : Type} (key : Row -> K) (keqb : K -> K -> bool)
        (set : Row -> Row -> Row).

Definition upsert_one (t : list Row) (r : Row) : list Row :=
  if existsb (fun e => keqb (key e) (key r)) t
  then map (fun e => if keqb (key e) (key r) then set e r else e) t
  else t ++ [r].

Fixpoint dup_keys (rows : list Row) : bool :=
  match rows with
  | [] => false
  | r :: rest => existsb (fun r' => keqb (key r) (key r')) rest || dup_keys rest
  end.

Definition upsert_stmt (t : list Row) (rows : list Row) : option (list Row) :=
  if dup_keys rows then None else Some (fold_left upsert_one rows t).

End Generic.
End Upsert.

(* ================================================================== *)
(** ** [aggregate_daily_data] of [recent/workstation/aggregate_pchart_daily.py]. *)
Module PChart.
Import Sql.

(** A row of [workstation_pchart_daily] (the [CREATE TABLE] of
    [aggregate_pchart_all_time.py] and [workstation_agg/aggregate_pchart_daily.py]):
    [date], [pn], [workstation_name] and [service_flow] form the PRIMARY KEY,
    so none of them is NULL; [model] is a nullable VARCHAR(255).  The
    [created_at] column keeps its default and is not modelled. *)
Record pchart_row := mkPC {
  pc_date : Z; pc_pn : string; pc_model : option string;
  pc_workstation_name : string; pc_service_flow : string;
  total_count : nat; pass_count : nat; fail_count : nat }.

(** A row produced by the [SELECT]: the grouped columns may be NULL. *)
Record query_row := mkQ {
  q_date : Z; q_pn : option string; q_model : option string;
  q_workstation_name : option string; q_service_flow : option string;
  q_total : nat; q_pass : nat; q_fail : nat }.

(** [ts <= CURRENT_DATE] compares with midnight of the current date. *)
Definition ts_le_date (t : timestamp) (d : Z) : bool :=
  (ts_date t <? d) || ((ts_date t =? d) && (ts_secs t =? 0)).

Definition in_window (current_date : Z) (r : ws_row) : bool :=
  match history_station_end_time r with
  | Some t => ts_ge_date t (current_date - 6) && ts_le_date t current_date
  | None => false
  end
  && not_in (service_flow r) ["NC Sort"; "RO"]%string
  && (match service_flow r with Some _ => true | None => false end).

Definition gkey := (Z * option string * option string * option string * option string)%type.
Definition gkey_eqb (a b : gkey) : bool :=
  let '(d1, p1, m1, w1, s1) := a in let '(d2, p2, m2, w2, s2) := b in
  (d1 =? d2) && opt_eqb String.eqb p1 p2 && opt_eqb String.eqb m1 m2
  && opt_eqb String.eqb w1 w2 && opt_eqb String.eqb s1 s2.
Definition gkey_of (r : ws_row) : gkey :=
  (match history_station_end_time r with Some t => ts_date t | None => 0 end,
   pn r, model r, workstation_name r, service_flow r).

(** The [SELECT ... GROUP BY DATE(end), pn, model, workstation_name,
    service_flow]. *)
Definition select_rows (current_date : Z) (log : list ws_row) : list query_row :=
  let rows := filter (in_window current_date) log in
  map (fun k =>
         let g := filter (fun r => gkey_eqb (gkey_of r) k) rows in
         let '(d, p, m, w, s) := k in
         mkQ d p m w s (List.length g)
             (count (fun r => eq_lit (history_station_passing_status r) "Pass") g)
             (count (fun r => neq_lit (history_station_passing_status r) "Pass") g))
      (distinct gkey_eqb (map gkey_of rows)).

(** Largest value of an [INTEGER] column. *)
Definition int_max : Z := 2147483647.

(** The [INSERT] of one selected row: it fails on a NULL in a NOT NULL
    column ([pn], [workstation_name], [service_flow]), on a string longer
    than its VARCHAR(255) column, or on a count out of [INTEGER] range. *)
Definition to_pchart_row (q : query_row) : option pchart_row :=
  match q_pn q, q_workstation_name q, q_service_flow q with
  | Some p, Some w, Some s =>
      if (String.length p <=? 255)%nat && (String.length w <=? 255)%nat
         && (String.length s <=? 255)%nat
         && Import_WS.varchar_ok 255 (q_model q)
         && (Z.of_nat (q_total q) <=? int_max) && (Z.of_nat (q_pass q) <=? int_max)
         && (Z.of_nat (q_fail q) <=? int_max)
      then Some (mkPC (q_date q) p (q_model q) w s (q_total q) (q_pass q) (q_fail q))
      else None
  | _, _, _ => None
  end.

(** The statement fails as a whole when one selected row is rejected. *)
Fixpoint to_rows (qs : list query_row) : option (list pchart_row) :=
  match qs with
  | [] => Some []
  | q :: qs' =>
      match to_pchart_row q, to_rows qs' with
      | Some r, Some rs => Some (r :: rs)
      | _, _ => None
      end
  end.

(** [ON CONFLICT (date, pn, workstation_name, service_flow)]: the four
    columns are NOT NULL, so the comparison is plain equality. *)
Definition conflict_key (r : pchart_row) :=
  (pc_date r, pc_pn r, pc_workstation_name r, pc_service_flow r).
Definition conflict_key_eqb (a b : Z * string * string * string) : bool :=
  let '(d1, p1, w1, s1) := a in let '(d2, p2, w2, s2) := b in
  (d1 =? d2) && String.eqb p1 p2 && String.eqb w1 w2 && String.eqb s1 s2.

(** [DO UPDATE SET total_count, pass_count, fail_count, model = EXCLUDED.*] *)
Definition set_clause (existing excluded : pchart_row) : pchart_row :=
  mkPC (pc_date existing) (pc_pn existing) (pc_model excluded)
       (pc_workstation_name existing) (pc_service_flow existing)
       (total_count excluded) (pass_count excluded) (fail_count excluded).

Definition aggregate_daily_data (current_date : Z) (log : list ws_row)
    (table : list pchart_row) : option (list pchart_row) :=
  match to_rows (select_rows current_date log) with
  | Some rows => Upsert.upsert_stmt conflict_key conflict_key_eqb set_clause table rows
  | None => None
  end.

(** The key the specification gives this table:
    [(date, pn, model, workstation_name, service_flow)]. *)
Definition natural_key (r : pchart_row) :=
  (pc_date r, pc_pn r, pc_model r, pc_workstation_name r, pc_service_flow r).

End PChart.

(* ================================================================== *)
(** ** [main] of [historical/testboard/aggregate_snfn_reports_all_time.py]. *)
Module Snfn.

(** A row of [AGGREGATE_SQL]: fixture_no, workstation_name, sn, pn, model,
    error_code, error_disc, history_station_end_time. *)
Record snfn_row := mkSN {
  fixture_no : option string; s_workstation_name : option string;
  s_sn : option string; s_pn : option string; s_model : option string;
  error_code : option string; error_disc : option string;
  s_end_time : option Sql.timestamp }.

Definition key (r : snfn_row) :=
  (s_sn r, fixture_no r, s_model r, s_workstation_name r, error_code r, s_end_time r).
Definition key_eqb (a b : option string * option string * option string *
                          option string * option string * option Sql.timestamp) : bool :=
  let '(a1, a2, a3, a4, a5, a6) := a in let '(b1, b2, b3, b4, b5, b6) := b in
  Sql.opt_eqb String.eqb a1 b1 && Sql.opt_eqb String.eqb a2 b2
  && Sql.opt_eqb String.eqb a3 b3 && Sql.opt_eqb String.eqb a4 b4
  && Sql.opt_eqb String.eqb a5 b5 && Sql.opt_eqb Sql.ts_eqb a6 b6.

(** [DO UPDATE SET error_code, error_disc, pn = EXCLUDED.*] *)
Definition set_clause (existing excluded : snfn_row) : snfn_row :=
  mkSN (fixture_no existing) (s_workstation_name existing) (s_sn existing)
       (s_pn excluded) (s_model existing) (error_code excluded)
       (error_disc excluded) (s_end_time existing).

(** The [NOT NULL] columns of [snfn_aggregate_daily]. *)
Definition not_null_ok (r : snfn_row) : bool :=
  match fixture_no r, s_workstation_name r, s_sn r, s_model r, error_code r, s_end_time r with
  | Some _, Some _, Some _, Some _, Some _, Some _ => true
  | _, _, _, _, _, _ => false
  end.

(** [cur.execute(single_insert_sql, r)] on the transaction's working
    table: [None] is the raised error. *)
Definition execute_insert (working : list snfn_row) (r : snfn_row) : option (list snfn_row) :=
  if not_null_ok r then Some (Upsert.upsert_one key key_eqb set_clause working r)
  else None.

(** The connection: the committed table and the open transaction's view. *)
Record conn := mkConn { committed : list snfn_row; working : list snfn_row;
                        success_count : nat; error_count : nat }.

(** One iteration of [for r in rows]: on error, [conn.rollback()] resets
    the transaction to the committed table. *)
Definition loop_step (c : conn) (r : snfn_row) : conn :=
  match execute_insert (working c) r with
  | Some w => mkConn (committed c) w (S (success_count c)) (error_count c)
  | None => mkConn (committed c) (committed c) (success_count c) (S (error_count c))
  end.

Definition commit (c : conn) : conn :=
  mkConn (working c) (working c) (success_count c) (error_count c).

(** From [TRUNCATE ...; commit] on: the table is empty and committed,
    then the rows are inserted one by one and [conn.commit()] runs. *)
Definition main_after_truncate (rows : list snfn_row) : conn :=
  let c0 := mkConn [] [] 0 0 in
  match rows with
  | [] => c0
  | _ => commit (fold_left loop_step rows c0)
  end.

End Snfn.

(* ================================================================== *)
(** ** The orchestrator of [schedulers/AutoAggregator.py].

    The environment is given by two oracles: [exit_code n] is the exit
    status of the [n]-th job subprocess started, and [bk_raises n] says
    whether the [n]-th bookkeeping step (the logging and clock calls in
    [start] and [run_cycle] outside [run_script]) raises an exception.
    The [logging.error] of an exception handler is taken not to raise.
    An operator's [KeyboardInterrupt] is not modelled. *)
Module Orchestrator.

Inductive event :=
| Run (category : string) (script : string)   (* a job subprocess *)
| LogError                                    (* the handler of [start] *)
| Sleep (secs : Z).

Record ostate := mkO { trace : list event; jobs : nat; bks : nat }.

Section Env.
Variable exit_code : nat -> Z.
Variable bk_raises : nat -> bool.

Definition wait_time : Z := 120.

Definition bookkeeping (st : ostate) : option unit * ostate :=
  let st' := mkO (trace st) (jobs st) (S (bks st)) in
  if bk_raises (bks st) then (None, st') else (Some tt, st').

(** [run_script]: [subprocess.run(..., check=True)] inside a handler for
    every [Exception]; the result is whether the exit status was 0. *)
Definition run_script (category script : string) (st : ostate) : bool * ostate :=
  (exit_code (jobs st) =? 0,
   mkO (trace st ++ [Run category script]) (S (jobs st)) (bks st)).

(** One [for script in self.script_groups[category]] loop of [run_cycle]:
    [Some b] is a return value, [None] an exception. *)
Fixpoint run_group (category : string) (scripts : list string) (st : ostate)
    : option bool * ostate :=
  match scripts with
  | [] => (Some true, st)
  | s :: rest =>
      let '(success, st1) := run_script category s st in
      if success then run_group category rest st1
      else
        (* logging.error("Cycle interrupted ..."); return False *)
        let '(r, st2) := bookkeeping st1 in
        match r with
        | Some _ => (Some false, st2)
        | None => (None, st2)
        end
  end.

Definition testboard_scripts : list string :=
  ["aggregate_all_time_dedup.py"; "aggregate_fixture_performance_all_time.py"]%string.
Definition workstation_scripts : list string :=
  ["aggregate_packing_daily_dedup.py"; "aggregate_packing_weekly_all_time_dedup.py";
   "aggregate_sort_test_all_time.py"; "aggregate_sort_test_weekly_dedup.py";
   "aggregate_station_hourly_counts.py"; "aggregate_tpy_all_time_daily.py";
   "aggregate_tpy_all_time_weekly.py"]%string.

(** The jobs of one cycle, in order, with their category. *)
Definition cycle_jobs : list event :=
  map (Run "testboard") testboard_scripts ++ map (Run "workstation") workstation_scripts.

Definition run_cycle (st : ostate) : option bool * ostate :=
  (* cycle_start = datetime.now(); logging.info("Starting new cycle") *)
  let '(r0, st0) := bookkeeping st in
  match r0 with None => (None, st0) | Some _ =>
  let '(r1, st1) := bookkeeping st0 in
  match r1 with None => (None, st1) | Some _ =>
  let '(r2, st2) := run_group "testboard" testboard_scripts st1 in
  match r2 with
  | None => (None, st2)
  | Some false => (Some false, st2)
  | Some true =>
      let '(r3, st3) := bookkeeping st2 in
      match r3 with None => (None, st3) | Some _ =>
      let '(r4, st4) := run_group "workstation" workstation_scripts st3 in
      match r4 with
      | None => (None, st4)
      | Some false => (Some false, st4)
      | Some true =>
          (* cycle_end = datetime.now(); logging.info("Cycle completed ...") *)
          let '(r5, st5) := bookkeeping st4 in
          match r5 with None => (None, st5) | Some _ => (Some true, st5) end
      end end
  end end end.

Definition sleep (st : ostate) : ostate :=
  mkO (trace st ++ [Sleep wait_time]) (jobs st) (bks st).

(** One iteration of [while True] in [start]: the [try] body, or on an
    exception the handler ([logging.error]; [time.sleep(self.wait_time)]). *)
Definition iteration (st : ostate) : ostate :=
  let '(r, st1) :=
    (let '(r0, st0) := bookkeeping st in
     match r0 with None => (None, st0) | Some _ =>
     let '(rc, st2) := run_cycle st0 in
     match rc with None => (None, st2) | Some _ =>
     let '(r3, st3) := bookkeeping st2 in
     match r3 with None => (None, st3) | Some _ => (Some tt, sleep st3) end
     end end) in
  match r with
  | Some _ => st1
  | None => sleep (mkO (trace st1 ++ [LogError]) (jobs st1) (bks st1))
  end.

(** The first [n] iterations of the loop, which has no exit other than
    an operator interrupt. *)
Fixpoint start (n : nat) (st : ostate) : ostate :=
  match n with
  | O => st
  | S n' => start n' (iteration st)
  end.

End Env.
End Orchestrator.

(* ================================================================== *)
(** ** Exit status of an import job ([import_workstation_file.py] [main],
    the same shape in the other importers) and its classification by
    [process_file] of [schedulers/File_Monitor.py]. *)
Module ImportExit.

Inductive outcome := Completes | Raises.

(** [argc] is [len(sys.argv)], [is_file] is [os.path.isfile(file_path)];
    [connect] is [connect_to_db()], outside the [try]; [body] is the
    [try] block (read, check, insert, commit, delete); [rollback] is the
    handler's [conn.rollback()].  An uncaught exception exits with 1,
    [sys.exit(1)] with 1, a normal return with 0. *)
Definition import_main_exit (argc : nat) (is_file : bool)
    (connect body rollback : outcome) : Z :=
  if negb (argc =? 2)%nat then 1
  else if negb is_file then 1
  else match connect with
       | Raises => 1
       | Completes =>
           match body with
           | Completes => 0
           | Raises => match rollback with Completes => 0 | Raises => 1 end
           end
       end.

(** The import succeeded: the [try] block ran to its end (its
    [conn.commit()] included). *)
Definition import_succeeded (argc : nat) (is_file : bool) (connect body : outcome) : bool :=
  (argc =? 2)%nat && is_file
  && match connect, body with Completes, Completes => true | _, _ => false end.

(** [process_file], once the file is converted: [result.returncode == 0]. *)
Definition monitor_reports_success (returncode : Z) : bool := returncode =? 0.

End ImportExit.

(* ================================================================== *)
(** ** Python's [sorted] on the values this program sorts.

    [str] values compare by code point, lexicographically; on the ASCII
    strings used here that is the order of [nat_of_ascii].  The result of
    [sorted] on a list without duplicates is the unique increasing
    arrangement of its elements, which insertion sort computes. *)
Module PySort.

Fixpoint str_ltb (a b : string) : bool :=
  match a, b with
  | EmptyString, EmptyString => false
  | EmptyString, String _ _ => true
  | String _ _, EmptyString => false
  | String c a', String d b' =>
      if (nat_of_ascii c <? nat_of_ascii d)%nat then true
      else if (nat_of_ascii c =? nat_of_ascii d)%nat then str_ltb a' b'
      else false
  end.

Fixpoint insert_sorted {A} (ltb : A -> A -> bool) (x : A) (l : list A) : list A :=
  match l with
  | [] => [x]
  | y :: l' => if ltb y x then y :: insert_sorted ltb x l' else x :: l
  end.

Definition sorted {A} (ltb : A -> A -> bool) (l : list A) : list A :=
  fold_right (insert_sorted ltb) [] l.

End PySort.

(* ================================================================== *)
(** ** [get_all_available_weeks] of [aggregate_tpy_all_time_weekly.py]
    (lines 385-414), from the dates its query returned: [dates] are the
    [date] objects [(year, month, day)] of
    [SELECT DISTINCT DATE(history_station_end_time) ...]. *)
Module AllWeeks.

Definition get_all_available_weeks (dates : list (Z * Z * Z)) : list string :=
  match dates with
  | [] => []
  | _ =>
      (* weeks = set(); weeks.add(get_week_id(date)); sorted(list(weeks)) *)
      PySort.sorted PySort.str_ltb
        (Sql.distinct String.eqb (map (fun '(y, m, d) => Week.get_week_id y m d) dates))
  end.

End AllWeeks.

(* ================================================================== *)
(** ** The daily TPY job ([aggregate_tpy_all_time_daily.py]).  Dates are
    ordinals; [None] is a raised exception. *)
Module DailyTPY.
Import Sql.

(** [service_flow NOT IN ('NC Sort', 'RO') AND service_flow IS NOT NULL] *)
Definition flow_ok (r : ws_row) : bool :=
  not_in (service_flow r) ["NC Sort"; "RO"]%string
  && (match service_flow r with Some _ => true | None => false end).

(** [history_station_end_time >= %s AND history_station_end_time < %s]
    with two [date] parameters. *)
Definition ends_between (start_date end_date : Z) (r : ws_row) : bool :=
  match history_station_end_time r with
  | Some t => ts_ge_date t start_date && ts_lt_date t end_date
  | None => false
  end.









(** [sn = ANY(%s)] with the Python list bound as an array: TRUE when an
    element equals [sn] (a NULL [sn] or element never does). *)
Definition sn_any (starters : list (option string)) (r : ws_row) : bool :=
  existsb (fun p => eq_param String.eqb (sn r) p) starters.

(** The CTE [completion_check]: [((sn, model), reached_packing,
    failure_count)] per group of the day's rows of the listed serials. *)
Definition completion_check (start_date end_date : Z) (starters : list (option string))
    (log : list ws_row) : list FPY.part :=
  let rows := filter (fun r => sn_any starters r && ends_between start_date end_date r
                               && flow_ok r) log in
  map (fun k =>
         let g := filter (fun r => FPY.key_eqb (FPY.key_of r) k) rows in
         FPY.mkPart k (count (fun r => eq_lit (workstation_name r) "PACKING") g)
                      (count (fun r => neq_lit (history_station_passing_status r) "Pass") g))
      (distinct FPY.key_eqb (map FPY.key_of rows)).

(** The outer query: [(model, completed_today, first_pass_today)] per
    model over the groups with [reached_packing > 0]. *)
Definition completion_groups (parts : list FPY.part) : list (option string * nat * nat) :=
  let ps := filter (fun p => (0 <? FPY.reached_packing p)%nat) parts in
  map (fun m => let g := filter (fun p => TPY.okey_eqb (snd (FPY.p_key p)) m) ps in
                (m, List.length g,
                 count (fun p => (0 <? FPY.reached_packing p)%nat
                                 && (FPY.failure_count p =? 0)%nat) g))
      (distinct TPY.okey_eqb (map (fun p => snd (FPY.p_key p)) ps)).

(** The result; [dailyFPY] is the pair (numerator, denominator) of
    [first_pass_today / completed_today * 100], 0 for the denominator 0,
    before rounding. *)
Record completions := mkComp {
  completedToday : nat; firstPassToday : nat; dailyFPY : nat * nat;
  cByModel : TPY.dict (option string) (nat * nat) }.

Definition add_completions (acc : completions) (res : option string * nat * nat) : completions :=
  let '(m, c, f) := res in
  mkComp (completedToday acc + c) (firstPassToday acc + f) (dailyFPY acc)
         (TPY.dict_set TPY.okey_eqb m (c, f) (cByModel acc)).

(** [calculate_daily_completions_from_week_starters(target_date,
    week_starters_list)]; [end_date = target_date + timedelta(days=1)] is
    computed first. *)
Definition calculate_daily_completions_from_week_starters (target : Z)
    (starters : list (option string)) (log : list ws_row) : option completions :=
  match Cal.add_days target 1 with
  | None => None
  | Some end_date =>
      match starters with
      | [] => Some (mkComp 0 0 (0%nat, 0%nat) [])
      | _ =>
          let acc := fold_left add_completions
                       (completion_groups (completion_check target end_date starters log))
                       (mkComp 0 0 (0%nat, 0%nat) []) in
          Some (mkComp (completedToday acc) (firstPassToday acc)
                       (firstPassToday acc, completedToday acc) (cByModel acc))
      end
  end.

(** The per-station query of [aggregate_daily_tpy_for_date]: the day's
    rows of models 'Tesla SXM4' and 'Tesla SXM5', grouped by model and
    workstation ([ORDER BY] only orders the rows). *)
Definition daily_in_scope (start_date end_date : Z) (r : ws_row) : bool :=
  ends_between start_date end_date r && flow_ok r
  && existsb (fun m => eq_lit (model r) m) ["Tesla SXM4"; "Tesla SXM5"]%string.

Definition daily_station_query (start_date end_date : Z) (log : list ws_row)
    : list TPY.station_row :=
  let rows := filter (daily_in_scope start_date end_date) log in
  map (fun k =>
         let g := filter (fun r => TPY.skey_eqb (TPY.skey_of r) k) rows in
         TPY.mkSR k (List.length g)
              (count (fun r => eq_lit (history_station_passing_status r) "Pass") g)
              (count (fun r => neq_lit (history_station_passing_status r) "Pass") g))
      (distinct TPY.skey_eqb (map TPY.skey_of rows)).

(** [get_all_available_dates()]: the distinct dates of the eligible rows,
    in order; printing [dates[0]] raises [IndexError] when there is none. *)
Definition get_all_available_dates (log : list ws_row) : option (list Z) :=
  let rows := filter (fun r => match history_station_end_time r with
                               | Some _ => true | None => false end && flow_ok r) log in
  let dates := PySort.sorted Z.ltb
                 (distinct Z.eqb (map (fun r => match history_station_end_time r with
                                                | Some t => ts_date t | None => 0 end) rows)) in
  match dates with
  | [] => None
  | _ => Some dates
  end.

(** How [aggregate_daily_tpy_metrics_all_time] ends: with an exception,
    with the "No valid dates" message, or after the loop with its two
    counters. *)
Inductive run_end := Raised | NoDates | Processed (success_count error_count : nat).

(** [fails d] is whether [aggregate_daily_tpy_for_date(d)] raises (each
    call opens its own connection); the report queries after the loop are
    left out. *)
Definition aggregate_daily_tpy_metrics_all_time (fails : Z -> bool) (log : list ws_row)
    : run_end :=
  match get_all_available_dates log with
  | None => Raised
  | Some [] => NoDates
  | Some all_dates =>
      let '(s, e) := fold_left (fun '(s, e) d => if fails d then (s, S e) else (S s, e))
                               all_dates (0%nat, 0%nat) in
      Processed s e
  end.

End DailyTPY.

Module DynTPY.
Import TPY.

Section Floats.
Variable R : Type.
Variable one : R.
Variable mul : R -> R -> R.
Variable div100 : R -> R.
Variable times100 : R -> R.
Variable round2 : R -> R.

(** One entry of [dynamic_tpy]: ["stations"], ["tpy"], ["stationCount"]. *)
Record dyn_entry := mkDyn {
  stations : dict (option string) R; tpy : option R; stationCount : nat }.

Definition model_mappings : dict string string :=
  [("SXM4", "Tesla SXM4"); ("SXM5", "Tesla SXM5"); ("SXM6", "SXM6")]%string.

Definition dynamic_tpy_init : dict string dyn_entry :=
  map (fun '(model_short, _) => (model_short, mkDyn [] None 0)) model_mappings.

(** One iteration of the loop over [model_mappings.items()]; the dict
    comprehension keeps the station keys of [stations] and maps each
    value to its ["throughputYield"]. *)
Definition dynamic_step (model_yields : dict (option string) (dict (option string) (station_data R)))
    (dynamic_tpy : dict string dyn_entry) (mapping : string * string) : dict string dyn_entry :=
  let '(model_short, model_full) := mapping in
  match dict_get okey_eqb (Some model_full) model_yields with
  | Some stations =>
      let ys := map (fun '(station, data) => (station, throughputYield R data)) stations in
      let tpy_value :=
        match stations with
        | [] => None
        | _ => Some (round2 (times100
                      (fold_left (fun t yield_pct => mul t (div100 yield_pct)) (map snd ys) one)))
        end in
      dict_set String.eqb model_short (mkDyn ys tpy_value (List.length stations)) dynamic_tpy
  | None => dynamic_tpy
  end.

Definition calculate_dynamic_tpy
    (model_yields : dict (option string) (dict (option string) (station_data R)))
    : dict string dyn_entry :=
  fold_left (dynamic_step model_yields) model_mappings dynamic_tpy_init.

End Floats.
End DynTPY.

Module PackingWeekly.
Import Sql Packing.

(** [ON CONFLICT (pack_date, model, part_number) DO UPDATE SET
    packed_count = EXCLUDED.packed_count]. *)
Definition summary_key (s : summary_row) : Z * string * string :=
  let '(d, m, p, _) := s in (d, m, p).
Definition summary_key_eqb (a b : Z * string * string) : bool :=
  let '(d1, m1, p1) := a in let '(d2, m2, p2) := b in
  (d1 =? d2) && String.eqb m1 m2 && String.eqb p1 p2.
Definition set_packed_count (existing excluded : summary_row) : summary_row :=
  let '(d, m, p, _) := existing in let '(_, _, _, c) := excluded in (d, m, p, c).

(** [AGGREGATE_SQL] on a table: a NULL key column fails the statement;
    otherwise the grouped rows are upserted. *)
Definition aggregate_upsert (table : list summary_row) (log : list ws_row)
    : option (list summary_row) :=
  let fix convert (rows : list agg_row) : option (list summary_row) :=
    match rows with
    | [] => Some []
    | a :: rest =>
        match to_summary a, convert rest with
        | Some s, Some ss => Some (s :: ss)
        | _, _ => None
        end
    end in
  match convert (aggregate_all_time log) with
  | Some rows => Upsert.upsert_stmt summary_key summary_key_eqb set_packed_count table rows
  | None => None
  end.

(** The connection: the committed [packing_daily_summary] ([None]: the
    table does not exist), the open transaction's view of it, and the
    result set of the last statement ([None]: the statement returned
    no rows, as an [INSERT] without [RETURNING]). *)
Record pg := mkPG {
  pg_committed : option (list summary_row);
  pg_working : option (list summary_row);
  pg_result : option (list summary_row) }.

Inductive stmt := CREATE_TABLE_SQL | AGGREGATE_SQL.

(** [cur.execute(sql)]; [None] is a raised database error. *)
Definition execute (log : list ws_row) (c : pg) (s : stmt) : option pg :=
  match s with
  | CREATE_TABLE_SQL =>
      Some (mkPG (pg_committed c)
                 (Some (match pg_working c with Some t => t | None => [] end)) None)
  | AGGREGATE_SQL =>
      match pg_working c with
      | None => None
      | Some t =>
          match aggregate_upsert t log with
          | Some t' => Some (mkPG (pg_committed c) (Some t') None)
          | None => None
          end
      end
  end.

(** [cur.fetchall()]: psycopg2 raises [ProgrammingError] ("no results
    to fetch") when the last statement returned no result set. *)
Definition fetchall (c : pg) : option (list summary_row) := pg_result c.

Definition commit (c : pg) : pg := mkPG (pg_working c) (pg_working c) (pg_result c).
Definition rollback (c : pg) : pg := mkPG (pg_committed c) (pg_committed c) None.

(** [main()] of [aggregate_packing_weekly_all_time_dedup.py]: every
    exception is caught and followed by [conn.rollback()];
    [conn.close()] then discards whatever was not committed, so the
    result is the committed table. *)
Definition main (log : list ws_row) (table : option (list summary_row))
    : option (list summary_row) :=
  let c0 := mkPG table table None in
  let c :=
    match execute log c0 CREATE_TABLE_SQL with
    | None => rollback c0
    | Some c1 =>
        let c2 := commit c1 in
        match execute log c2 AGGREGATE_SQL with
        | None => rollback c2
        | Some c3 =>
            match fetchall c3 with
            | None => rollback c3
            | Some _ => c3
            end
        end
    end in
  pg_committed c.

End PackingWeekly.

Module TPYOverall.
Import TPY.

(** [model_specific_yields["overall"][station]] while the result rows
    are read: the three running sums. *)
Record overall_data := mkOD { o_total : nat; o_passed : nat; o_failed : nat }.

(** The part of the loop over the result rows of
    [calculate_model_specific_throughput_yields] that fills
    [model_specific_yields["overall"]]: create the station's entry with
    zeros if it is missing, then add the row's three counts. *)
Definition add_overall (overall : dict (option string) overall_data) (s : station_row)
    : dict (option string) overall_data :=
  let '(_, station) := sr_key s in
  let overall := match dict_get okey_eqb station overall with
                 | Some _ => overall
                 | None => dict_set okey_eqb station (mkOD 0 0 0) overall
                 end in
  let cur := match dict_get okey_eqb station overall with
             | Some v => v
             | None => mkOD 0 0 0
             end in
  dict_set okey_eqb station
    (mkOD (o_total cur + sr_total s) (o_passed cur + sr_passed s) (o_failed cur + sr_failed s))
    overall.

Section Floats.
Variable R : Type.
Variable yield_of : nat -> nat -> R.

(** The final [for station in model_specific_yields["overall"]] loop
    adds each station's [throughputYield]. *)
Definition overall_station_metrics (week_start week_end : Z) (log : list ws_row)
    : dict (option string) (station_data R) :=
  map (fun '(station, d) =>
         (station, mkSD R (o_total d) (o_passed d) (o_failed d)
                        (yield_of (o_passed d) (o_total d))))
      (fold_left add_overall (station_query week_start week_end log) []).

End Floats.
End TPYOverall.

(* ================================================================== *)
(** ** [clean_column_name] of [import_workstation_file.py] (lines 14-15):
    [col_name.lower().replace(' ', '_').replace('-', '_')].

    A Python [str] is a sequence of code points; a [string] here holds
    one code point below 128 per character, where [str.lower] maps
    ['A'..'Z'] to ['a'..'z'] and keeps every other character. *)
Module ColumnName.

Definition py_lower_char (c : ascii) : ascii :=
  let n := nat_of_ascii c in
  if (65 <=? n)%nat && (n <=? 90)%nat then ascii_of_nat (n + 32) else c.

Fixpoint py_lower (s : string) : string :=
  match s with
  | EmptyString => EmptyString
  | String c s' => String (py_lower_char c) (py_lower s')
  end.

(** [s.replace(old, new)]: every occurrence of [old], scanning left to
    right and without overlap, is replaced by [new]; an empty [old]
    inserts [new] before every character and at the end. *)
Fixpoint replace_fuel (fuel : nat) (old new s : string) : string :=
  match fuel with
  | O => s
  | S f =>
      match s with
      | EmptyString => EmptyString
      | String c s' =>
          if String.prefix old s
          then (new ++ replace_fuel f old new
                          (substring (String.length old) (String.length s - String.length old) s))%string
          else String c (replace_fuel f old new s')
      end
  end.

Definition py_replace (s old new : string) : string :=
  match old with
  | EmptyString =>
      (new ++ fold_right (fun c acc => String c (new ++ acc)) EmptyString (list_ascii_of_string s))%string
  | _ => replace_fuel (String.length s) old new s
  end.

Definition clean_column_name (col_name : string) : string :=
  py_replace (py_replace (py_lower col_name) " " "_") "-" "_".

End ColumnName.

(* ================================================================== *)
(** ** [aggregate_weekly_tpy_metrics_all_time] of
    [aggregate_tpy_all_time_weekly.py] (lines 416-447).  [fails w] is
    whether [aggregate_weekly_tpy_for_week(w)] raises; the result is
    [None] for the early [return] when no week is found, and otherwise
    the final [success_count] and [error_count]. *)
Module WeeklyAllTime.

Definition aggregate_weekly_tpy_metrics_all_time (fails : string -> bool)
    (dates : list (Z * Z * Z)) : option (nat * nat) :=
  match AllWeeks.get_all_available_weeks dates with
  | [] => None
  | all_weeks =>
      Some (fold_left (fun '(s, e) w => if fails w then (s, S e) else (S s, e))
                      all_weeks (0%nat, 0%nat))
  end.

End WeeklyAllTime.

(* ================================================================== *)
(** ** [process_file] of [File_Monitor.py] (lines 217-297) with
    [convert_xls_to_xlsx] (lines 126-185) and [os.path.splitext]. *)
Module FileMonitor.

(** [s.rfind(c)] for a one-character [c]: the last index of [c], or -1. *)
Fixpoint rfind_from (c : ascii) (s : string) (i acc : Z) : Z :=
  match s with
  | EmptyString => acc
  | String x s' => rfind_from c s' (i + 1) (if Ascii.eqb x c then i else acc)
  end.
Definition rfind (s : string) (c : ascii) : Z := rfind_from c s 0 (-1).

(** [posixpath.splitext] ([genericpath._splitext] with [sep = '/'],
    [extsep = '.']): the extension starts at the last dot of the last
    path component, unless that component is only dots before it. *)
Definition splitext (p : string) : string * string :=
  let sepIndex := rfind p "/" in
  let dotIndex := rfind p "." in
  if (sepIndex <? dotIndex)
     && existsb (fun c => negb (Ascii.eqb c "."))
          (list_ascii_of_string
             (substring (Z.to_nat (sepIndex + 1)) (Z.to_nat (dotIndex - (sepIndex + 1))) p))
  then (substring 0 (Z.to_nat dotIndex) p,
        substring (Z.to_nat dotIndex) (String.length p - Z.to_nat dotIndex) p)
  else (p, EmptyString).

(** The side effects [process_file] performs, in order. *)
Inductive event :=
  | Convert (xls_file_path : string)           (* libreoffice --convert-to xlsx *)
  | Remove (path : string)                     (* os.remove *)
  | RunImport (script_path file_path : string). (* python3 script_path file_path *)

Section Env.
(** [convert_ok p]: the LibreOffice run on [p] returns code 0 (no
    timeout, no exception); [exists_after x]: [os.path.exists(x)] after
    it; [import_ok s x]: the import run returns code 0 (no timeout). *)
Variable convert_ok : string -> bool.
Variable exists_after : string -> bool.
Variable import_ok : string -> string -> bool.

Definition convert_xls_to_xlsx (xls_file_path : string) (trace : list event)
    : option string * list event :=
  let xlsx_file_path := (fst (splitext xls_file_path) ++ ".xlsx")%string in
  (if convert_ok xls_file_path then Some xlsx_file_path else None,
   trace ++ [Convert xls_file_path]).

(** The result and the events; a failing [os.remove] is caught and
    logged, so the removal is recorded as attempted. *)
Definition process_file (file_path script_path : string) (trace : list event)
    : bool * list event :=
  let '(r, trace) := convert_xls_to_xlsx file_path trace in
  match r with
  | None => (false, trace)
  | Some xlsx_file_path =>
      if negb (exists_after xlsx_file_path) then (false, trace)
      else
        let trace := if negb (String.eqb file_path xlsx_file_path)
                     then trace ++ [Remove file_path] else trace in
        (import_ok script_path xlsx_file_path, trace ++ [RunImport script_path xlsx_file_path])
  end.

End Env.
End FileMonitor.

(* ================================================================== *)
(** ** Sample inputs *)
Module Samples.
Local Open Scope string_scope.

(** A raw event: serial, workstation, status, model "M", part number
    "PN", service flow "Normal", ending at [t]. *)
Definition event (serial station status : string) (t : Sql.timestamp) : ws_row :=
  mkWS (Some serial) (Some "PN") None (Some station) (Some t) (Some t) (Some "1")
       (Some "Normal") (Some "M") (Some status) (Some "Auto") (Some "op")
       None (Some "workstation").

(** The week of Monday 2025-01-06 (ordinal 739257). *)
Definition week_start : Z := Cal.ymd2ord 2025 1 6.
Definition week_end : Z := week_start + 6.
Definition at_noon (d : Z) : Sql.timestamp := Sql.mkTS d 43200.

(** Ten serials started in the week: six packed without a failure, two
    packed after a failure, one failed and not packed, one neither. *)
Definition fpy_week_log : list ws_row :=
  map (fun s => event s "PACKING" "Pass" (at_noon (week_start + 2)))
      ["S1"; "S2"; "S3"; "S4"; "S5"; "S6"]%string
  ++ flat_map (fun s => [event s "FI" "Fail" (at_noon (week_start + 1));
                         event s "PACKING" "Pass" (at_noon (week_start + 3))])
      ["S7"; "S8"]%string
  ++ [event "S9" "FI" "Fail" (at_noon (week_start + 1));
      event "S10" "FI" "Pass" (at_noon (week_start + 1))]%string.

(** A mapped import row whose [customer_pn] and [first_station_start_time]
    cells were empty (both NULL). *)
Definition import_row_no_first_start : ws_row :=
  event "SN100" "FI" "Pass" (at_noon week_start).

(** A packing event on 2025-01-09 and an old summary row of 2024-12-02. *)
Definition today : Z := Cal.ymd2ord 2025 1 10.
Definition packing_log : list ws_row :=
  [event "SN200" "PACKING" "Pass" (at_noon (Cal.ymd2ord 2025 1 9))].
Definition old_summary : Packing.summary_row :=
  (Cal.ymd2ord 2024 12 2, "M", "PN", 5%nat)%string.

(** An existing pchart row for model "OLD" and a new event of model "M"
    on the same date, part number, station and service flow. *)
Definition pchart_existing : PChart.pchart_row :=
  PChart.mkPC (Cal.ymd2ord 2025 1 9) "PN" (Some "OLD") "FI" "Normal" 3%nat 3%nat 0%nat.
Definition pchart_log : list ws_row :=
  [event "SN300" "FI" "Pass" (at_noon (Cal.ymd2ord 2025 1 9))].

(** Snfn rows: a well-formed one and one whose [fixture_no] is NULL. *)
Definition snfn_good : Snfn.snfn_row :=
  Snfn.mkSN (Some "F1") (Some "FI") (Some "SN400") (Some "PN") (Some "M")
            (Some "EC123") (Some "note") (Some (at_noon today)).
Definition snfn_null_fixture : Snfn.snfn_row :=
  Snfn.mkSN None (Some "FI") (Some "SN401") (Some "PN") (Some "M")
            (Some "EC124") (Some "note") (Some (at_noon today)).

End Samples.

(* ================================================================== *)
(** * Proofs *)

(** ** Calendar arithmetic *)
Module CalFacts.
Import Cal.

Lemma div_step (k y : Z) : 0 < k ->
  y / k - (y - 1) / k = if y mod k =? 0 then 1 else 0.
Proof.
  intros Hk.
  pose proof (Z.div_mod y k ltac:(lia)) as Hdm.
  pose proof (Z.mod_pos_bound y k Hk) as Hb.
  destruct (Z.eqb_spec (y mod k) 0) as [E|E].
  - assert (Hq : (y - 1) / k = y / k - 1).
    { symmetry. apply Z.div_unique with (r := k - 1); [lia|].
      rewrite E in Hdm. rewrite Z.mul_sub_distr_l. lia. }
    lia.
  - assert (Hq : (y - 1) / k = y / k).
    { symmetry. apply Z.div_unique with (r := y mod k - 1); lia. }
    lia.
Qed.

Lemma mod_divides_down (y a b : Z) : 0 < a -> 0 < b -> (a | b) ->
  y mod b = 0 -> y mod a = 0.
Proof.
  intros Ha Hb Hab Hy.
  apply Z.mod_divide; [lia|].
  apply Z.divide_trans with b; [assumption|].
  apply Z.mod_divide; [lia|assumption].
Qed.

Lemma dby_succ (y : Z) :
  days_before_year (y + 1) = days_before_year y + 365 + (if is_leap y then 1 else 0).
Proof.
  unfold days_before_year, is_leap.
  replace (y + 1 - 1) with y by lia.
  pose proof (div_step 4 y ltac:(lia)) as H4.
  pose proof (div_step 100 y ltac:(lia)) as H100.
  pose proof (div_step 400 y ltac:(lia)) as H400.
  pose proof (mod_divides_down y 100 400 ltac:(lia) ltac:(lia) ltac:(exists 4; lia)) as I1.
  pose proof (mod_divides_down y 4 100 ltac:(lia) ltac:(lia) ltac:(exists 25; lia)) as I2.
  destruct (Z.eqb_spec (y mod 4) 0), (Z.eqb_spec (y mod 100) 0),
           (Z.eqb_spec (y mod 400) 0); simpl in *; try lia.
Qed.

Lemma dby_mono_step (y : Z) : days_before_year y + 365 <= days_before_year (y + 1).
Proof. rewrite dby_succ. destruct (is_leap y); lia. Qed.

Lemma dby_mono (y : Z) (n : nat) : days_before_year y <= days_before_year (y + Z.of_nat n).
Proof.
  induction n as [|n IH].
  - rewrite Z.add_0_r. lia.
  - rewrite Nat2Z.inj_succ, <- Z.add_1_r, Z.add_assoc.
    pose proof (dby_mono_step (y + Z.of_nat n)). lia.
Qed.

Lemma dby_le (y z : Z) : y <= z -> days_before_year y <= days_before_year z.
Proof.
  intros H. replace z with (y + Z.of_nat (Z.to_nat (z - y))) by lia.
  apply dby_mono.
Qed.

Lemma dby_nonneg (y : Z) : 1 <= y -> 365 * (y - 1) <= days_before_year y.
Proof.
  intros H. unfold days_before_year.
  assert ((y - 1) / 100 <= (y - 1) / 4) by (apply Z.div_le_compat_l; lia).
  assert (0 <= (y - 1) / 400) by (apply Z.div_pos; lia).
  lia.
Qed.

Lemma dbm_jan (y : Z) : days_before_month y 1 = 0.
Proof. reflexivity. Qed.

Lemma ymd2ord_jan (y d : Z) : ymd2ord y 1 d = days_before_year y + d.
Proof. unfold ymd2ord. rewrite dbm_jan. lia. Qed.

Lemma dbm_bounds (y m d : Z) : valid_ymd y m d ->
  0 <= days_before_month y m /\
  days_before_month y m + d <= 365 + (if is_leap y then 1 else 0).
Proof.
  intros (Hy & Hm & Hd).
  unfold days_before_month, days_in_month in *.
  assert (m = 1 \/ m = 2 \/ m = 3 \/ m = 4 \/ m = 5 \/ m = 6 \/ m = 7 \/ m = 8
          \/ m = 9 \/ m = 10 \/ m = 11 \/ m = 12) as Hc by lia.
  remember (nth (Z.to_nat m) DAYS_BEFORE_MONTH 0) as a eqn:Ea.
  remember (nth (Z.to_nat m) DAYS_IN_MONTH 0) as b eqn:Eb.
  remember (m >? 2) as c eqn:Ec.
  remember (m =? 2) as e eqn:Ee.
  revert Hd.
  destruct (is_leap y);
    destruct Hc as [->|[->|[->|[->|[->|[->|[->|[->|[->|[->|[->| ->]]]]]]]]]]];
    vm_compute in Ea, Eb, Ec, Ee; subst a b c e; cbv [andb]; lia.
Qed.

(** A valid date lies in its year: [Jan 1 <= date < Jan 1 of the next year]. *)
Lemma ord_in_year (y m d : Z) : valid_ymd y m d ->
  ymd2ord y 1 1 <= ymd2ord y m d <= days_before_year (y + 1).
Proof.
  intros Hv. pose proof (dbm_bounds y m d Hv) as [H0 H1].
  rewrite ymd2ord_jan, dby_succ. unfold ymd2ord.
  destruct Hv as (_ & _ & Hd). lia.
Qed.

Lemma MAXORD_eq : MAXORD = days_before_year 10000.
Proof. vm_compute. reflexivity. Qed.

Lemma ord_range (y m d : Z) : valid_ymd y m d ->
  MINORD <= ymd2ord y m d <= MAXORD.
Proof.
  intros Hv. pose proof (ord_in_year y m d Hv) as [H1 H2].
  destruct Hv as [Hy _]. unfold MAXYEAR, MINYEAR in Hy.
  pose proof (dby_nonneg y ltac:(lia)).
  pose proof (dby_le (y + 1) 10000 ltac:(lia)).
  rewrite ymd2ord_jan in H1. rewrite MAXORD_eq. unfold MINORD. lia.
Qed.

End CalFacts.

(** ** ISO weeks *)
Module IsoFacts.
Import Cal CalFacts.

(** [x] is a Monday. *)
Definition is_monday (x : Z) : Prop := (x + 6) mod 7 = 0.

Lemma monday_floor (M t : Z) : is_monday M ->
  M + 7 * ((t - M) / 7) = t - weekday t.
Proof.
  unfold is_monday, weekday. intros HM.
  pose proof (Z.div_mod (t - M) 7 ltac:(lia)).
  pose proof (Z.mod_pos_bound (t - M) 7 ltac:(lia)).
  assert (E : (t + 6) mod 7 = (t - M) mod 7).
  { replace (t + 6) with ((t - M) + (M + 6)) by lia.
    rewrite Z.add_mod by lia. rewrite HM, Z.add_0_r. apply Z.mod_mod. lia. }
  rewrite E. lia.
Qed.

Lemma isoweek1monday_monday (Y : Z) : is_monday (isoweek1monday Y).
Proof.
  unfold is_monday, isoweek1monday.
  set (f := ymd2ord Y 1 1).
  pose proof (Z.div_mod (f + 6) 7 ltac:(lia)) as Hd.
  destruct (_ >? 3).
  - replace (f - (f + 6) mod 7 + 7 + 6) with ((1 + (f + 6) / 7) * 7) by lia.
    apply Z.mod_mul. lia.
  - replace (f - (f + 6) mod 7 + 6) with (((f + 6) / 7) * 7) by lia.
    apply Z.mod_mul. lia.
Qed.

Lemma isoweek1monday_bounds (Y : Z) :
  ymd2ord Y 1 1 - 3 <= isoweek1monday Y <= ymd2ord Y 1 1 + 3.
Proof.
  unfold isoweek1monday.
  set (f := ymd2ord Y 1 1).
  pose proof (Z.mod_pos_bound (f + 6) 7 ltac:(lia)).
  destruct (Z.gtb_spec ((f + 6) mod 7) 3); lia.
Qed.

(** [datetime(year, 1, 4) - timedelta(days=jan4.weekday())] is the
    Monday of ISO week 1. *)
Lemma jan4_monday (Y : Z) :
  ymd2ord Y 1 4 - weekday (ymd2ord Y 1 4) = isoweek1monday Y.
Proof.
  unfold isoweek1monday, weekday.
  rewrite !ymd2ord_jan.
  set (f := days_before_year Y).
  pose proof (Z.div_mod (f + 1 + 6) 7 ltac:(lia)) as Hd.
  pose proof (Z.mod_pos_bound (f + 1 + 6) 7 ltac:(lia)) as Hb.
  replace (f + 4 + 6) with (f + 1 + 6 + 3) by lia.
  destruct (Z.gtb_spec ((f + 1 + 6) mod 7) 3) as [G|G].
  - assert (E : (f + 1 + 6 + 3) mod 7 = (f + 1 + 6) mod 7 - 4).
    { symmetry. apply Z.mod_unique with (q := (f + 1 + 6) / 7 + 1); lia. }
    rewrite E. lia.
  - assert (E : (f + 1 + 6 + 3) mod 7 = (f + 1 + 6) mod 7 + 3).
    { symmetry. apply Z.mod_unique with (q := (f + 1 + 6) / 7); lia. }
    rewrite E. lia.
Qed.

Lemma isoweek1monday_1 : isoweek1monday 1 = 1.
Proof. vm_compute. reflexivity. Qed.

Lemma isoweek1monday_10000 : days_before_year 10000 < isoweek1monday 10000.
Proof. vm_compute. reflexivity. Qed.

(** What [get_week_date_range] needs from [isocalendar]: the ISO year is a
    valid year, the week is positive, and ISO week [W] of year [Y] starts
    on the Monday of the date's week. *)
Lemma isocalendar_spec (y m d : Z) : valid_ymd y m d ->
  let '(Y, W, _) := isocalendar y m d in
  MINYEAR <= Y <= MAXYEAR /\ 1 <= W /\
  isoweek1monday Y + 7 * (W - 1) = ymd2ord y m d - weekday (ymd2ord y m d).
Proof.
  intros Hv.
  pose proof (ord_in_year y m d Hv) as [Hlo Hhi].
  pose proof Hv as (Hy & _ & _). unfold MINYEAR, MAXYEAR in *.
  set (t := ymd2ord y m d) in *.
  rewrite ymd2ord_jan in Hlo.
  unfold isocalendar. fold t.
  destruct (Z.ltb_spec ((t - isoweek1monday y) / 7) 0) as [Hneg|Hnn].
  - (* the date belongs to the last ISO week of the previous year *)
    assert (Hy2 : 2 <= y).
    { destruct (Z.eq_dec y 1) as [->|]; [|lia].
      rewrite isoweek1monday_1 in Hneg.
      assert (days_before_year 1 = 0) by reflexivity.
      assert (0 <= (t - 1) / 7) by (apply Z.div_pos; lia). lia. }
    pose proof (isoweek1monday_bounds (y - 1)) as Hb.
    rewrite ymd2ord_jan in Hb.
    pose proof (dby_mono_step (y - 1)) as Hs. replace (y - 1 + 1) with y in Hs by lia.
    assert (0 <= (t - isoweek1monday (y - 1)) / 7) by (apply Z.div_pos; lia).
    repeat split; try lia.
    replace ((t - isoweek1monday (y - 1)) / 7 + 1 - 1)
      with ((t - isoweek1monday (y - 1)) / 7) by lia.
    apply monday_floor, isoweek1monday_monday.
  - destruct (Z.geb_spec ((t - isoweek1monday y) / 7) 52) as [H52|H52].
    + destruct (Z.geb_spec t (isoweek1monday (y + 1))) as [Hn|Hn].
      * (* the date belongs to ISO week 1 of the next year *)
        assert (Hy9 : y <= 9998).
        { destruct (Z.eq_dec y 9999) as [->|]; [|lia].
          pose proof isoweek1monday_10000. simpl in Hn, Hhi. lia. }
        pose proof (isoweek1monday_bounds (y + 1)) as Hb.
        rewrite ymd2ord_jan in Hb.
        repeat split; try lia.
        rewrite <- (monday_floor _ t (isoweek1monday_monday (y + 1))).
        rewrite Z.div_small by lia. lia.
      * repeat split; try lia.
        replace ((t - isoweek1monday y) / 7 + 1 - 1)
          with ((t - isoweek1monday y) / 7) by lia.
        apply monday_floor, isoweek1monday_monday.
    + repeat split; try lia.
      replace ((t - isoweek1monday y) / 7 + 1 - 1)
        with ((t - isoweek1monday y) / 7) by lia.
      apply monday_floor, isoweek1monday_monday.
Qed.

End IsoFacts.

(** ** Week ids as strings *)
Module StrFacts.
Import PyStr.

Lemma append_nil_r (s : string) : (s ++ "")%string = s.
Proof. induction s as [|c s IH]; simpl; [reflexivity|now rewrite IH]. Qed.

Lemma append_assoc_str (a b c : string) : ((a ++ b) ++ c)%string = (a ++ (b ++ c))%string.
Proof. induction a as [|x a IH]; simpl; [reflexivity|now rewrite IH]. Qed.

Lemma length_append_str (a b : string) :
  String.length (a ++ b) = (String.length a + String.length b)%nat.
Proof. induction a as [|x a IH]; simpl; [reflexivity|now rewrite IH]. Qed.

Lemma substring_long (s : string) (m : nat) :
  (String.length s <= m)%nat -> substring 0 m s = s.
Proof.
  revert m; induction s as [|c s IH]; intros m Hm; destruct m as [|m];
    simpl in *; try lia; try reflexivity.
  rewrite IH by lia. reflexivity.
Qed.

Lemma prefix_sep (b : string) : String.prefix "-W" (String "-" (String "W" b)) = true.
Proof.
  cbn [String.prefix].
  destruct (ascii_dec "-" "-") as [_|n]; [|congruence].
  destruct (ascii_dec "W" "W") as [_|n]; [|congruence].
  destruct b; reflexivity.
Qed.

Lemma int_acc_app (v : Z) (a b : string) :
  int_acc v (a ++ b) = int_acc (int_acc v a) b.
Proof. revert v; induction a as [|c a IH]; intros v; simpl; auto. Qed.

Lemma all_digits_app (a b : string) :
  all_digits (a ++ b) = all_digits a && all_digits b.
Proof. induction a as [|c a IH]; simpl; [reflexivity|rewrite IH; apply andb_assoc]. Qed.

Lemma digit_char_ok (n : Z) : 0 <= n < 10 ->
  is_digit (digit_char n) = true /\ digit_val (digit_char n) = n.
Proof.
  intros H.
  rewrite <- (Z2Nat.id n) by lia.
  assert (Hk : (Z.to_nat n < 10)%nat) by lia.
  revert Hk; generalize (Z.to_nat n) as k; intros k Hk.
  do 10 (destruct k as [|k]; [split; reflexivity|]).
  lia.
Qed.

Lemma digits_ok (f : nat) (n : Z) : 0 <= n < Z.of_nat f ->
  all_digits (digits f n) = true /\ int_acc 0 (digits f n) = n
  /\ digits f n <> EmptyString.
Proof.
  revert n; induction f as [|f IH]; intros n Hn; [lia|].
  cbn [digits]. destruct (Z.ltb_spec n 10) as [Hl|Hl].
  - destruct (digit_char_ok n ltac:(lia)) as [D V].
    cbn [all_digits int_acc]. rewrite D, V. repeat split; try discriminate; lia.
  - assert (Hf : 1 <= Z.of_nat f) by lia.
    assert (Hq : 0 <= n / 10 < Z.of_nat f).
    { split; [apply Z.div_pos; lia|]. apply Z.div_lt_upper_bound; lia. }
    destruct (IH (n / 10) Hq) as (A & I & _).
    pose proof (Z.mod_pos_bound n 10 ltac:(lia)) as Hm.
    destruct (digit_char_ok (n mod 10) Hm) as [D V].
    rewrite all_digits_app, int_acc_app, A, I. cbn [all_digits int_acc]. rewrite D, V.
    pose proof (Z.div_mod n 10 ltac:(lia)).
    repeat split; [lia|].
    destruct (digits f (n / 10)); discriminate.
Qed.

Lemma py_int_digits (s : string) :
  s <> EmptyString -> all_digits s = true -> py_int s = Some (int_acc 0 s).
Proof. intros Hne Hd. destruct s; [congruence|]. unfold py_int. now rewrite Hd. Qed.

Lemma str_of_Z_ok (n : Z) : 0 <= n ->
  all_digits (str_of_Z n) = true /\ py_int (str_of_Z n) = Some n.
Proof.
  intros Hn. unfold str_of_Z. destruct (Z.ltb_spec n 0); [lia|].
  destruct (digits_ok (S (Z.to_nat n)) n ltac:(lia)) as (A & I & NE).
  split; [assumption|]. rewrite py_int_digits, I; auto.
Qed.

Lemma format_02d_ok (n : Z) : 0 <= n ->
  all_digits (format_02d n) = true /\ py_int (format_02d n) = Some n.
Proof.
  intros Hn. unfold format_02d.
  destruct (str_of_Z_ok n Hn) as [A I].
  destruct (String.length (str_of_Z n) <? 2)%nat; [|split; assumption].
  destruct (str_of_Z n) as [|c s] eqn:E; [discriminate|].
  unfold py_int in I |- *. rewrite A in I.
  change (all_digits (String "0" (String c s))) with (true && all_digits (String c s)).
  rewrite A. split; [reflexivity|].
  rewrite <- I. reflexivity.
Qed.

Lemma prefix_sep_digit (c : ascii) (s : string) :
  is_digit c = true -> String.prefix "-W" (String c s) = false.
Proof.
  intros H. cbn [String.prefix].
  destruct (ascii_dec "-" c) as [<-|]; [discriminate|reflexivity].
Qed.

Lemma split_tail (b cur : string) (f : nat) :
  all_digits b = true -> (String.length b < f)%nat ->
  split_fuel f "-W" b cur = [(cur ++ b)%string].
Proof.
  revert cur f; induction b as [|c b IH]; intros cur f Hd Hf;
    destruct f as [|f]; simpl in Hf; try lia.
  - simpl. now rewrite append_nil_r.
  - simpl in Hd. apply andb_prop in Hd as [Hc Hb].
    cbn [split_fuel]. rewrite prefix_sep_digit by assumption.
    rewrite IH by (auto; lia). now rewrite append_assoc_str.
Qed.

Lemma split_sep (a b cur : string) (f : nat) :
  all_digits a = true -> all_digits b = true ->
  (String.length a + String.length b + 2 <= f)%nat ->
  split_fuel f "-W" (a ++ "-W" ++ b) cur = [(cur ++ a)%string; b].
Proof.
  revert cur f; induction a as [|c a IH]; intros cur f Ha Hb Hf;
    destruct f as [|f]; simpl in Hf; try lia.
  - change (("" ++ "-W" ++ b)%string) with (String "-" (String "W" b)).
    cbn [split_fuel]. rewrite prefix_sep.
    cbn [substring String.length].
    rewrite substring_long by lia.
    rewrite split_tail by (auto; lia).
    now rewrite append_nil_r.
  - simpl in Ha. apply andb_prop in Ha as [Hc Ha].
    change ((String c a ++ "-W" ++ b)%string) with (String c (a ++ "-W" ++ b)).
    cbn [split_fuel]. rewrite prefix_sep_digit by assumption.
    rewrite IH by (auto; lia). now rewrite append_assoc_str.
Qed.

Lemma split_week_id (a b : string) :
  all_digits a = true -> all_digits b = true ->
  split (a ++ "-W" ++ b) "-W" = [a; b].
Proof.
  intros Ha Hb. unfold split.
  rewrite split_sep; auto.
  rewrite !length_append_str. simpl. lia.
Qed.

End StrFacts.

(** ** C10: week bounds from a date and from its week id *)
Module WeekProofs.
Import Cal CalFacts IsoFacts Week.

Lemma add_days_in_range (o k : Z) :
  MINORD <= o + k <= MAXORD -> add_days o k = Some (o + k).
Proof.
  intros H. unfold add_days.
  destruct (Z.leb_spec MINORD (o + k)), (Z.leb_spec (o + k) MAXORD); simpl; try lia.
  reflexivity.
Qed.

Lemma weekday_bounds (t : Z) : 0 <= weekday t < 7.
Proof. unfold weekday. apply Z.mod_pos_bound. lia. Qed.


(** C10: for every valid calendar date, the Monday..Sunday bounds computed
    from the date by [get_week_bounds] are exactly those that
    [get_week_date_range] recovers from the date's week id
    [get_week_id], ISO week-years different from the calendar year
    included (both raise [OverflowError] together in the last days of
    year 9999). *)
Theorem week_date_range_of_week_id (y m d : Z) :
  valid_ymd y m d ->
  get_week_date_range (get_week_id y m d) = get_week_bounds y m d.
Proof.
  intros Hv.
  pose proof (isocalendar_spec y m d Hv) as Hiso.
  pose proof (ord_range y m d Hv) as Hr.
  unfold get_week_id, get_week_bounds.
  set (t := ymd2ord y m d) in *.
  destruct (isocalendar y m d) as [[Y W] D].
  destruct Hiso as (HY & HW & Heq).
  unfold MINYEAR, MAXYEAR in HY.
  destruct (StrFacts.str_of_Z_ok Y ltac:(lia)) as [Ay Iy].
  destruct (StrFacts.format_02d_ok W ltac:(lia)) as [Aw Iw].
  unfold get_week_date_range.
  rewrite StrFacts.split_week_id by assumption.
  rewrite Iy, Iw.
  destruct (Z.leb_spec MINYEAR Y); [|unfold MINYEAR in *; lia].
  destruct (Z.leb_spec Y MAXYEAR); [|unfold MAXYEAR in *; lia].
  cbn [andb].
  pose proof (weekday_bounds t) as Hw.
  assert (Hm : MINORD <= isoweek1monday Y <= MAXORD).
  { split.
    - destruct (Z.eq_dec Y 1) as [->|HY1].
      + rewrite isoweek1monday_1. reflexivity.
      + pose proof (isoweek1monday_bounds Y) as Hb. rewrite ymd2ord_jan in Hb.
        pose proof (dby_nonneg Y ltac:(lia)). unfold MINORD. lia.
    - lia. }
  rewrite add_days_in_range by (rewrite Z.add_opp_r, jan4_monday; exact Hm).
  rewrite Z.add_opp_r, jan4_monday.
  replace (add_days (isoweek1monday Y) (7 * (W - 1))) with (add_days t (- weekday t))
    by (unfold add_days; replace (isoweek1monday Y + 7 * (W - 1)) with (t + - weekday t)
          by lia; reflexivity).
  reflexivity.
Qed.

Lemma valid_2024_12_30 : valid_ymd 2024 12 30.
Proof. unfold valid_ymd; vm_compute; repeat split; intro H; discriminate H. Qed.

Lemma week_date_range_of_week_id_witness :
  valid_ymd 2024 12 30
  /\ get_week_date_range (get_week_id 2024 12 30) = get_week_bounds 2024 12 30.
Proof.
  split; [exact valid_2024_12_30|].
  apply (week_date_range_of_week_id 2024 12 30); exact valid_2024_12_30.
Defined.

Example week_id_2024_12_30 : get_week_id 2024 12 30 = "2025-W01"%string.
Proof. vm_compute; reflexivity. Qed.

Example week_id_2021_01_01 : get_week_id 2021 1 1 = "2020-W53"%string.
Proof. vm_compute; reflexivity. Qed.

Example week_range_2025_W01 :
  get_week_date_range "2025-W01"%string = Some (Cal.ymd2ord 2024 12 30, Cal.ymd2ord 2025 1 5).
Proof. vm_compute; reflexivity. Qed.

End WeekProofs.

Module SqlFacts.
Import Sql.

Lemma opt_eqb_eq {A} (eqb : A -> A -> bool) :
  (forall a b, eqb a b = true <-> a = b) ->
  forall x y, opt_eqb eqb x y = true <-> x = y.
Proof.
  intros Heq [x|] [y|]; simpl; split; intro H; try congruence.
  - f_equal; apply Heq; exact H.
  - apply Heq; congruence.
Qed.

Lemma ts_eqb_eq : forall a b, ts_eqb a b = true <-> a = b.
Proof.
  intros [d1 s1] [d2 s2]; unfold ts_eqb; simpl.
  rewrite andb_true_iff, !Z.eqb_eq; split.
  - intros [-> ->]; reflexivity.
  - intro H; inversion H; auto.
Qed.

Section Distinct.
Context {K : Type} (eqb : K -> K -> bool)
        (eqb_eq : forall a b, eqb a b = true <-> a = b).

Lemma eqb_refl_K : forall x, eqb x x = true.
Proof. intro x; apply eqb_eq; reflexivity. Qed.

Lemma existsb_eqb_In : forall x l, existsb (eqb x) l = true <-> In x l.
Proof.
  intros x l; rewrite existsb_exists; split.
  - intros [y [Hy Hxy]]; apply eqb_eq in Hxy; subst; exact Hy.
  - intro H; exists x; split; [exact H | apply eqb_refl_K].
Qed.

Lemma In_distinct : forall x l, In x (distinct eqb l) <-> In x l.
Proof.
  intros x l; induction l as [|k l IH]; simpl; [tauto|].
  destruct (existsb (eqb k) (distinct eqb l)) eqn:E.
  - apply existsb_eqb_In in E. rewrite IH. split; [tauto|].
    intros [<-|H]; [apply IH; exact E | exact H].
  - simpl; rewrite IH; tauto.
Qed.

Lemma existsb_distinct : forall x l,
  existsb (eqb x) (distinct eqb l) = existsb (eqb x) l.
Proof.
  intros x l.
  destruct (existsb (eqb x) l) eqn:E.
  - apply existsb_eqb_In, In_distinct, existsb_eqb_In; exact E.
  - destruct (existsb (eqb x) (distinct eqb l)) eqn:F; [|reflexivity].
    apply existsb_eqb_In in F; rewrite In_distinct in F.
    rewrite <- existsb_eqb_In in F. congruence.
Qed.

End Distinct.

Lemma count_pos {A} (p : A -> bool) x l :
  In x l -> p x = true -> (1 <= count p l)%nat.
Proof.
  intros Hin Hp; unfold count.
  destruct (filter p l) eqn:E; simpl; [|lia].
  assert (In x (filter p l)) by (apply filter_In; auto).
  rewrite E in H; destruct H.
Qed.

Lemma count_app {A} (p : A -> bool) l1 l2 :
  count p (l1 ++ l2) = (count p l1 + count p l2)%nat.
Proof. unfold count; rewrite filter_app, length_app; reflexivity. Qed.

End SqlFacts.

(** Reflection of the group-key comparisons. *)
Module KeyFacts.

Lemma string_opt_eqb_eq : forall x y : option string,
  Sql.opt_eqb String.eqb x y = true <-> x = y.
Proof. apply SqlFacts.opt_eqb_eq, String.eqb_eq. Qed.

Lemma fpy_key_eqb_eq : forall a b, FPY.key_eqb a b = true <-> a = b.
Proof.
  intros [a1 a2] [b1 b2]; unfold FPY.key_eqb; simpl.
  rewrite andb_true_iff, !string_opt_eqb_eq; split.
  - intros [-> ->]; reflexivity.
  - intro H; inversion H; auto.
Qed.

Lemma packing_gkey_eqb_eq : forall a b, Packing.gkey_eqb a b = true <-> a = b.
Proof.
  intros [[a1 a2] a3] [[b1 b2] b3]; unfold Packing.gkey_eqb.
  rewrite !andb_true_iff, !string_opt_eqb_eq,
          (SqlFacts.opt_eqb_eq Z.eqb Z.eqb_eq); split.
  - intros [[-> ->] ->]; reflexivity.
  - intro H; inversion H; auto.
Qed.

Lemma tpy_skey_eqb_eq : forall a b, TPY.skey_eqb a b = true <-> a = b.
Proof.
  intros [a1 a2] [b1 b2]; unfold TPY.skey_eqb; simpl.
  rewrite andb_true_iff, !string_opt_eqb_eq; split.
  - intros [-> ->]; reflexivity.
  - intro H; inversion H; auto.
Qed.

Lemma pchart_gkey_eqb_eq : forall a b, PChart.gkey_eqb a b = true <-> a = b.
Proof.
  intros [[[[a1 a2] a3] a4] a5] [[[[b1 b2] b3] b4] b5]; unfold PChart.gkey_eqb.
  rewrite !andb_true_iff, !string_opt_eqb_eq, Z.eqb_eq; split.
  - intros [[[[-> ->] ->] ->] ->]; reflexivity.
  - intro H; inversion H; auto.
Qed.

End KeyFacts.

Module FPYProofs.
Import Sql FPY.

Lemma count_or_and {A} (p q : A -> bool) l :
  (count p l + count q l = count (fun x => p x || q x) l + count (fun x => p x && q x) l)%nat.
Proof.
  induction l as [|a l IH]; [reflexivity|].
  unfold count in *; simpl.
  destruct (p a), (q a); simpl; lia.
Qed.

(** C1: the denominator of the completed-only yield, [activeParts], is
    [partsCompleted + partsFailed]: the (sn, model) groups that reached
    PACKING or failed, plus once more those that did both.  On the
    specification's ten-serial week it is 11, not 9, and the
    completed-only yield is 6/11 instead of 6/9. *)
Theorem fpy_completed_only_double_counts :
  (forall log week_start week_end,
     let ps := part_analysis week_start week_end log in
     active_parts (calculate_weekly_first_pass_yield_from_raw log week_start week_end)
     = (count (fun p => (0 <? reached_packing p)%nat || (0 <? failure_count p)%nat) ps
        + count (fun p => (0 <? reached_packing p)%nat && (0 <? failure_count p)%nat) ps)%nat)
  /\ (let ps := part_analysis Samples.week_start Samples.week_end Samples.fpy_week_log in
      let r := calculate_weekly_first_pass_yield_from_raw
                 Samples.fpy_week_log Samples.week_start Samples.week_end in
      count (fun p => (0 <? reached_packing p)%nat || (0 <? failure_count p)%nat) ps = 9%nat
      /\ traditional r = (6, 10)%nat
      /\ active_parts r = 11%nat
      /\ completed_only r = (6, 11)%nat).
Proof.
  split.
  - intros log week_start week_end ps.
    unfold calculate_weekly_first_pass_yield_from_raw; fold ps.
    destruct (0 <? parts_started (fpy_select ps))%nat eqn:E; simpl.
    + rewrite <- count_or_and; reflexivity.
    + apply Nat.ltb_ge in E; simpl in E.
      destruct ps; simpl in E; [reflexivity | lia].
  - vm_compute; repeat split.
Qed.

End FPYProofs.

Module ImportProofs.
Import Sql Import_WS.

Lemma eq_param_some {A} (eqb : A -> A -> bool) c p :
  eq_param eqb c p = true -> p <> None.
Proof. destruct c, p; simpl; congruence. Qed.

(** A table row matches only a mapped row whose compared fields are all
    non-NULL. *)
Lemma matches_non_null row t :
  matches row t = true ->
  customer_pn row <> None /\ history_station_start_time row <> None
  /\ history_station_end_time row <> None /\ first_station_start_time row <> None.
Proof.
  unfold matches; intro H.
  repeat rewrite andb_true_iff in H.
  destruct H as [[[[[[[[[[[[[H1 H2] H3] H4] H5] H6] H7] H8] H9] H10] H11] H12] H13] H14].
  repeat split; eapply eq_param_some; eassumption.
Qed.

Lemma exists_count_null table row :
  customer_pn row = None \/ history_station_start_time row = None
  \/ history_station_end_time row = None \/ first_station_start_time row = None ->
  exists_count table row = 0%nat.
Proof.
  intro Hnull; unfold exists_count, count.
  induction table as [|t table IH]; [reflexivity|].
  simpl; destruct (matches row t) eqn:E; [|exact IH].
  apply matches_non_null in E; tauto.
Qed.

(** A row the duplicate check never finds and the constraints accept is
    appended by every import. *)
Lemma import_null_row table row :
  customer_pn row = None \/ history_station_start_time row = None
  \/ history_station_end_time row = None \/ first_station_start_time row = None ->
  insertable row = true -> import_rows table [row] = table ++ [row].
Proof.
  intros Hn Hi; unfold import_rows, new_records; simpl.
  rewrite (exists_count_null table row Hn); simpl; rewrite Hi; reflexivity.
Qed.

(** C2: a row with a NULL [customer_pn] or a NULL
    [first_station_start_time] never matches the duplicate check
    ([col = NULL] is not TRUE), so every import inserts it again: two
    imports of such a row that the table's constraints accept add two
    copies of it, and importing the sample row twice leaves two rows
    where one import leaves one. *)
Theorem import_twice_duplicates_null_rows :
  (forall table a b d e f g h i j k l m n,
     let row := mkWS a b None d e f g h i j k l m n in
     insertable row = true ->
     import_rows (import_rows table [row]) [row] = table ++ [row; row])
  /\ (forall table a b c d e f g h i j k l n,
     let row := mkWS a b c d e f g h i j k l None n in
     insertable row = true ->
     import_rows (import_rows table [row]) [row] = table ++ [row; row])
  /\ List.length (import_rows (import_rows [] [Samples.import_row_no_first_start])
                              [Samples.import_row_no_first_start]) = 2%nat
  /\ List.length (import_rows [] [Samples.import_row_no_first_start]) = 1%nat.
Proof.
  split; [|split; [|vm_compute; split; reflexivity]];
  intros; subst row; rewrite !import_null_row by (simpl; tauto);
  rewrite <- app_assoc; reflexivity.
Qed.

End ImportProofs.

Module PackingProofs.
Import Sql Packing.

Lemma group_count_member rows r :
  In r rows ->
  exists c, In (gkey_of r, c) (group_count rows) /\ (1 <= c)%nat.
Proof.
  intro Hin; unfold group_count.
  eexists; split.
  - apply in_map_iff; exists (gkey_of r); split; [reflexivity|].
    apply (SqlFacts.In_distinct _ KeyFacts.packing_gkey_eqb_eq).
    apply in_map; exact Hin.
  - apply (SqlFacts.count_pos _ r); [exact Hin|].
    apply KeyFacts.packing_gkey_eqb_eq; reflexivity.
Qed.

(** PostgreSQL's day of week against Python's [weekday()] (Monday 0). *)
Lemma dow_weekday t :
  (dow t =? 6) = (Cal.weekday (ts_date t) =? 5)
  /\ (dow t =? 0) = (Cal.weekday (ts_date t) =? 6).
Proof.
  unfold dow, Cal.weekday.
  rewrite Z.add_mod by lia.
  pose proof (Z.mod_pos_bound (ts_date t) 7 ltac:(lia)) as Hb.
  remember (ts_date t mod 7) as x.
  assert (x = 0 \/ x = 1 \/ x = 2 \/ x = 3 \/ x = 4 \/ x = 5 \/ x = 6) as Hx by lia.
  destruct Hx as [->|[->|[->|[->|[->|[->| ->]]]]]]; split; reflexivity.
Qed.

(** C4: a PACKING/Pass row ending at [t] is counted under
    [pack_date = pack_date_of t], which is the end date minus one day on
    a Saturday (Python weekday 5, PostgreSQL DOW 6), minus two days on a
    Sunday (weekday 6, DOW 0) and the end date otherwise; this holds in
    the all-time aggregate and, for an event inside the window, in the
    recent one.  Events of 2025-01-04 10:00 and 2025-01-05 go to
    2025-01-03, an event of 2025-01-06 to 2025-01-06. *)
Theorem packing_weekend_shift (log : list ws_row) (r : ws_row) (t : timestamp)
    (Hin : In r log) (Hpass : packing_pass r = true)
    (Hend : history_station_end_time r = Some t) :
  pack_date r = Some (pack_date_of t)
  /\ pack_date_of t = (if Cal.weekday (ts_date t) =? 5 then ts_date t - 1
                       else if Cal.weekday (ts_date t) =? 6 then ts_date t - 2
                       else ts_date t)
  /\ (exists c, In ((Some (pack_date_of t), model r, pn r), c) (aggregate_all_time log)
                /\ (1 <= c)%nat)
  /\ (forall current_date, in_recent_window current_date r = true ->
      exists c, In ((Some (pack_date_of t), model r, pn r), c)
                   (aggregate_recent current_date log) /\ (1 <= c)%nat)
  /\ pack_date_of (mkTS (Cal.ymd2ord 2025 1 4) 36000) = Cal.ymd2ord 2025 1 3
  /\ pack_date_of (mkTS (Cal.ymd2ord 2025 1 5) 0) = Cal.ymd2ord 2025 1 3
  /\ pack_date_of (mkTS (Cal.ymd2ord 2025 1 6) 0) = Cal.ymd2ord 2025 1 6.
Proof.
  assert (Hkey : gkey_of r = (Some (pack_date_of t), model r, pn r))
    by (unfold gkey_of, pack_date; rewrite Hend; reflexivity).
  split; [unfold pack_date; rewrite Hend; reflexivity|].
  split; [unfold pack_date_of; destruct (dow_weekday t) as [-> ->]; reflexivity|].
  split; [|split; [|vm_compute; repeat split]].
  - rewrite <- Hkey; apply group_count_member, filter_In; auto.
  - intros current_date Hw; rewrite <- Hkey.
    apply group_count_member, filter_In; rewrite Hpass, Hw; auto.
Qed.


Lemma packing_weekend_shift_witness :
  In (Samples.event "SN200"%string "PACKING"%string "Pass"%string (Samples.at_noon (Cal.ymd2ord 2025 1 9)))
     Samples.packing_log
  /\ pack_date (Samples.event "SN200"%string "PACKING"%string "Pass"%string (Samples.at_noon (Cal.ymd2ord 2025 1 9)))
     = Some (Cal.ymd2ord 2025 1 9).
Proof.
  assert (Hin : In (Samples.event "SN200"%string "PACKING"%string "Pass"%string (Samples.at_noon (Cal.ymd2ord 2025 1 9)))
                   Samples.packing_log) by (left; reflexivity).
  split; [exact Hin|].
  rewrite (proj1 (packing_weekend_shift _ _ _ Hin eq_refl eq_refl)).
  vm_compute; reflexivity.
Defined.

End PackingProofs.

Module UpsertFacts.

Lemma upsert_one_keep {Row K} (key : Row -> K) keqb set t r e :
  keqb (key e) (key r) = false -> In e t ->
  In e (Upsert.upsert_one key keqb set t r).
Proof.
  intros Hk Hin; unfold Upsert.upsert_one.
  destruct (existsb _ t).
  - apply in_map_iff; exists e; rewrite Hk; auto.
  - apply in_or_app; left; exact Hin.
Qed.

Lemma upsert_fold_keep {Row K} (key : Row -> K) keqb set rows t e :
  (forall r, In r rows -> keqb (key e) (key r) = false) -> In e t ->
  In e (fold_left (Upsert.upsert_one key keqb set) rows t).
Proof.
  revert t; induction rows as [|r rows IH]; intros t Hk Hin; simpl; [exact Hin|].
  apply IH; [intros r' Hr'; apply Hk; right; exact Hr'|].
  apply upsert_one_keep; [apply Hk; left; reflexivity | exact Hin].
Qed.

Lemma upsert_stmt_keep {Row K} (key : Row -> K) keqb set rows t t' e :
  Upsert.upsert_stmt key keqb set t rows = Some t' ->
  (forall r, In r rows -> keqb (key e) (key r) = false) -> In e t -> In e t'.
Proof.
  unfold Upsert.upsert_stmt; destruct (Upsert.dup_keys _ _ rows); [discriminate|].
  intros H; injection H as <-; apply upsert_fold_keep.
Qed.

End UpsertFacts.

Module WindowProofs.
Import Sql.

Lemma select_rows_dates current_date log r :
  In r (PChart.select_rows current_date log) -> current_date - 6 <= PChart.q_date r.
Proof.
  unfold PChart.select_rows; intro H.
  apply in_map_iff in H; destruct H as [k [Hk Hkin]].
  rewrite (SqlFacts.In_distinct _ KeyFacts.pchart_gkey_eqb_eq) in Hkin.
  apply in_map_iff in Hkin; destruct Hkin as [x [Hx Hxin]].
  apply filter_In in Hxin; destruct Hxin as [_ Hw].
  unfold PChart.in_window in Hw; unfold PChart.gkey_of in Hx.
  destruct (history_station_end_time x) as [t|] eqn:Et; [|discriminate].
  apply andb_true_iff in Hw as [Hw _]; apply andb_true_iff in Hw as [Hw _].
  apply andb_true_iff in Hw as [Hw _].
  unfold ts_ge_date in Hw; apply Z.leb_le in Hw.
  destruct k as [[[[d p] m] w] s]; injection Hx as <- _ _ _ _.
  subst r; simpl; exact Hw.
Qed.

Lemma to_pchart_row_fields q r :
  PChart.to_pchart_row q = Some r ->
  PChart.q_pn q = Some (PChart.pc_pn r) /\ PChart.q_model q = PChart.pc_model r
  /\ PChart.q_workstation_name q = Some (PChart.pc_workstation_name r)
  /\ PChart.q_service_flow q = Some (PChart.pc_service_flow r)
  /\ PChart.pc_date r = PChart.q_date q.
Proof.
  unfold PChart.to_pchart_row.
  destruct (PChart.q_pn q), (PChart.q_workstation_name q), (PChart.q_service_flow q);
    try discriminate.
  destruct (_ && _); [|discriminate].
  intros H; injection H as <-; simpl; auto.
Qed.

Lemma to_rows_in qs rs r :
  PChart.to_rows qs = Some rs -> In r rs -> exists q, In q qs /\ PChart.to_pchart_row q = Some r.
Proof.
  revert rs; induction qs as [|q qs IH]; intros rs H Hr; simpl in H.
  - injection H as <-; destruct Hr.
  - destruct (PChart.to_pchart_row q) as [r0|] eqn:E0; [|discriminate].
    destruct (PChart.to_rows qs) as [rs0|] eqn:E1; [|discriminate].
    injection H as <-; destruct Hr as [<-|Hr].
    + exists q; split; [left; reflexivity|exact E0].
    + destruct (IH _ eq_refl Hr) as [q' [Hq' E']].
      exists q'; split; [right; exact Hq'|exact E'].
Qed.

Lemma to_rows_none qs :
  PChart.to_rows qs = None <-> exists q, In q qs /\ PChart.to_pchart_row q = None.
Proof.
  induction qs as [|q qs IH]; simpl.
  - split; [discriminate|intros [q [[] _]]].
  - destruct (PChart.to_pchart_row q) as [r0|] eqn:E0.
    + destruct (PChart.to_rows qs) as [rs0|] eqn:E1.
      * split; [discriminate|].
        intros [q' [[<-|Hq'] E']]; [congruence|].
        pose proof (proj2 IH (ex_intro _ q' (conj Hq' E'))) as N; congruence.
      * split; [intros _|reflexivity].
        destruct (proj1 IH eq_refl) as [q' [Hq' E']].
        exists q'; split; [right; exact Hq'|exact E'].
    + split; [intros _|reflexivity].
      exists q; split; [left; reflexivity|exact E0].
Qed.

Lemma aggregate_some current_date log t t' :
  PChart.aggregate_daily_data current_date log t = Some t' ->
  exists rows, PChart.to_rows (PChart.select_rows current_date log) = Some rows
  /\ Upsert.upsert_stmt PChart.conflict_key PChart.conflict_key_eqb PChart.set_clause t rows
     = Some t'.
Proof.
  unfold PChart.aggregate_daily_data.
  destruct (PChart.to_rows _) as [rows|]; [|discriminate].
  intros H; exists rows; split; [reflexivity|exact H].
Qed.

Lemma pchart_rows_dates current_date log rows r :
  PChart.to_rows (PChart.select_rows current_date log) = Some rows -> In r rows ->
  current_date - 6 <= PChart.pc_date r.
Proof.
  intros H Hr; destruct (to_rows_in _ _ _ H Hr) as [q [Hq Eq]].
  destruct (to_pchart_row_fields _ _ Eq) as (_ & _ & _ & _ & ->).
  exact (select_rows_dates _ _ _ Hq).
Qed.

Lemma insert_all_from acc rows t s :
  Packing.insert_all acc rows = Some t -> In s t ->
  In s acc \/ exists a, In a rows /\ Packing.to_summary a = Some s.
Proof.
  revert acc; induction rows as [|a rows IH]; intros acc H Hs; simpl in H.
  - injection H as <-; left; exact Hs.
  - destruct (Packing.to_summary a) as [s'|] eqn:Ea; [|discriminate].
    destruct (IH _ H Hs) as [Hacc|[a' [Ha' Hs']]].
    + apply in_app_or in Hacc; destruct Hacc as [Hacc|[<-|[]]]; [left; exact Hacc|].
      right; exists a; split; [left|]; auto.
    + right; exists a'; split; [right|]; auto.
Qed.

End WindowProofs.

Module WindowClaim.
Import Sql.

(** C3 (counterexample): on the sample, the recent packing job as written
    ([CREATE_TABLE_SQL] undefined) writes nothing, although the window
    holds a packing event; and once its table is created it deletes the
    summary row of 2024-12-02, which lies outside the window. *)
Lemma recent_packing_counterexample :
  Packing.packing_daily_main Samples.today Samples.packing_log [] = []
  /\ Packing.aggregate_recent Samples.today Samples.packing_log
     = [((Some (Cal.ymd2ord 2025 1 9), Some "M"%string, Some "PN"%string), 1%nat)]
  /\ Packing.recent_main true Samples.today Samples.packing_log [Samples.old_summary]
     = [(Cal.ymd2ord 2025 1 9, "M"%string, "PN"%string, 1%nat)]
  /\ ~ In Samples.old_summary
       (Packing.recent_main true Samples.today Samples.packing_log [Samples.old_summary]).
Proof.
  vm_compute; split; [reflexivity|split; [reflexivity|split; [reflexivity|]]].
  intros [H|[]]; discriminate H.
Qed.

(** C3 (amended): once its table is created, the recent packing job
    replaces [packing_daily_summary] by plain inserts of the counts of
    PACKING/Pass events ending on or after [CURRENT_DATE - 7 days]: the
    result does not depend on the previous table and every row of it
    comes from such an event.  The recent pchart job, an
    [ON CONFLICT (date, pn, workstation_name, service_flow) DO UPDATE]
    upsert, keeps every row dated before [CURRENT_DATE - 6 days]. *)
Theorem recent_window_jobs (current_date : Z) (log : list ws_row)
    (table : list Packing.summary_row) (ptable pt : list PChart.pchart_row)
    (Hp : PChart.aggregate_daily_data current_date log ptable = Some pt) :
  (forall table', Packing.recent_main true current_date log table'
                  = Packing.recent_main true current_date log table)
  /\ (forall d m p c, In (d, m, p, c) (Packing.recent_main true current_date log table) ->
      exists r, In r log /\ Packing.packing_pass r = true
                /\ Packing.in_recent_window current_date r = true
                /\ Packing.pack_date r = Some d /\ model r = Some m /\ pn r = Some p)
  /\ (forall e, In e ptable -> PChart.pc_date e < current_date - 6 -> In e pt).
Proof.
  split; [reflexivity|split].
  - intros d m p c Hin; unfold Packing.recent_main in Hin.
    destruct (Packing.insert_all [] _) as [t|] eqn:Ei; [|destruct Hin].
    destruct (WindowProofs.insert_all_from _ _ _ _ Ei Hin) as [[]|[a [Ha Hs]]].
    unfold Packing.aggregate_recent, Packing.group_count in Ha.
    apply in_map_iff in Ha; destruct Ha as [k [<- Hk]].
    rewrite (SqlFacts.In_distinct _ KeyFacts.packing_gkey_eqb_eq) in Hk.
    apply in_map_iff in Hk; destruct Hk as [r [Hr Hrin]].
    apply filter_In in Hrin; destruct Hrin as [Hrin Hsel].
    apply andb_true_iff in Hsel; destruct Hsel as [Hpass Hwin].
    exists r; split; [exact Hrin|split; [exact Hpass|split; [exact Hwin|]]].
    unfold Packing.gkey_of in Hr; subst k.
    unfold Packing.to_summary in Hs.
    destruct (Packing.pack_date r), (model r), (pn r); try discriminate.
    injection Hs as -> -> -> _; auto.
  - intros e He Hd.
    destruct (WindowProofs.aggregate_some _ _ _ _ Hp) as [rows [Hrows Hup]].
    apply (UpsertFacts.upsert_stmt_keep _ _ _ _ _ _ _ Hup); [|exact He].
    intros r Hr; apply (WindowProofs.pchart_rows_dates _ _ _ _ Hrows) in Hr.
    unfold PChart.conflict_key_eqb, PChart.conflict_key.
    replace (PChart.pc_date e =? PChart.pc_date r) with false by (symmetry; apply Z.eqb_neq; lia).
    reflexivity.
Qed.

Lemma recent_window_jobs_witness :
  PChart.aggregate_daily_data Samples.today Samples.pchart_log [Samples.pchart_existing]
  = Some [PChart.mkPC (Cal.ymd2ord 2025 1 9) "PN"%string (Some "M"%string)
            "FI"%string "Normal"%string 1 1 0]
  /\ (forall table', Packing.recent_main true Samples.today Samples.pchart_log table'
                     = Packing.recent_main true Samples.today Samples.pchart_log []).
Proof.
  assert (Hp : PChart.aggregate_daily_data Samples.today Samples.pchart_log [Samples.pchart_existing]
               = Some [PChart.mkPC (Cal.ymd2ord 2025 1 9) "PN"%string (Some "M"%string)
                         "FI"%string "Normal"%string 1 1 0])
    by (vm_compute; reflexivity).
  split; [exact Hp|].
  exact (proj1 (recent_window_jobs Samples.today Samples.pchart_log [] _ _ Hp)).
Defined.

End WindowClaim.

Module SnfnProofs.
Import Snfn.

Lemma fold_committed rows c :
  committed (fold_left loop_step rows c) = committed c.
Proof.
  revert c; induction rows as [|r rows IH]; intro c; simpl; [reflexivity|].
  rewrite IH; unfold loop_step; destruct (execute_insert _ _); reflexivity.
Qed.

Lemma fold_working_ext rows c1 c2 :
  committed c1 = committed c2 -> working c1 = working c2 ->
  working (fold_left loop_step rows c1) = working (fold_left loop_step rows c2).
Proof.
  revert c1 c2; induction rows as [|r rows IH]; intros c1 c2 Hc Hw; simpl; [exact Hw|].
  apply IH; unfold loop_step; rewrite Hw;
    destruct (execute_insert (working c2) r); simpl; congruence.
Qed.

(** C6: a row that fails to insert ([fixture_no] NULL) rolls back the
    whole transaction: the table committed at the end is the same
    whatever rows preceded the failing one; the sample run inserts a
    good row, then fails on the next one and commits an empty table. *)
Theorem snfn_row_failure_discards_earlier_rows :
  (forall pre post,
     committed (main_after_truncate (pre ++ Samples.snfn_null_fixture :: post))
     = committed (main_after_truncate (Samples.snfn_null_fixture :: post)))
  /\ working (loop_step (mkConn [] [] 0 0) Samples.snfn_good) = [Samples.snfn_good]
  /\ committed (main_after_truncate [Samples.snfn_good; Samples.snfn_null_fixture]) = []
  /\ success_count (main_after_truncate [Samples.snfn_good; Samples.snfn_null_fixture]) = 1%nat.
Proof.
  split; [|vm_compute; repeat split].
  intros pre post.
  unfold main_after_truncate.
  destruct (pre ++ Samples.snfn_null_fixture :: post) eqn:E;
    [destruct pre; discriminate|rewrite <- E; clear E].
  simpl commit; cbn [committed].
  rewrite fold_left_app; simpl fold_left.
  apply fold_working_ext; simpl;
    rewrite fold_committed; reflexivity.
Qed.

End SnfnProofs.

Module PChartFacts.

Section Dup.
Context {Row K : Type} (key : Row -> K) (keqb : K -> K -> bool)
        (keqb_eq : forall a b, keqb a b = true <-> a = b).

Lemma dup_keys_map {A} (mk : A -> Row) (l : list A) :
  Upsert.dup_keys key keqb (map mk l) = Upsert.dup_keys (fun x => key (mk x)) keqb l.
Proof.
  induction l as [|a l IH]; simpl; [reflexivity|].
  rewrite IH. f_equal.
  clear IH; induction l as [|b l IH]; simpl; [reflexivity|]. rewrite IH; reflexivity.
Qed.

Lemma dup_keys_true (l : list Row) :
  NoDup l -> Upsert.dup_keys key keqb l = true ->
  exists x y, In x l /\ In y l /\ x <> y /\ key x = key y.
Proof.
  induction l as [|a l IH]; simpl; intros Hn H; [discriminate|].
  inversion Hn as [|? ? Ha Hl]; subst.
  apply orb_true_iff in H as [H|H].
  - apply existsb_exists in H as [y [Hy E]]. apply keqb_eq in E.
    exists a, y. repeat split; auto. intros ->. contradiction.
  - destruct (IH Hl H) as (x & y & Hx & Hy & Hxy & E). exists x, y. auto.
Qed.

Lemma dup_keys_false (l : list Row) :
  Upsert.dup_keys key keqb l = false ->
  forall x y, In x l -> In y l -> key x = key y -> x = y.
Proof.
  induction l as [|a l IH]; simpl; intros H x y Hx Hy E; [destruct Hx|].
  apply orb_false_iff in H as [H1 H2].
  assert (Hno : forall z, In z l -> key a <> key z).
  { intros z Hz Ez. apply (proj2 (keqb_eq _ _)) in Ez.
    assert (existsb (fun r' => keqb (key a) (key r')) l = true) by (apply existsb_exists; eauto).
    congruence. }
  destruct Hx as [<-|Hx], Hy as [<-|Hy]; [reflexivity| | |apply IH; auto].
  - exfalso. exact (Hno y Hy E).
  - exfalso. exact (Hno x Hx (eq_sym E)).
Qed.



End Dup.

(** An upsert whose [DO UPDATE] turns the existing row into the new one
    (as the pchart clause does: its conflict target and the assigned
    columns cover every column) replaces the rows it conflicts with. *)
Section Replace.
Context {Row K : Type} (key : Row -> K) (keqb : K -> K -> bool)
        (keqb_eq : forall a b, keqb a b = true <-> a = b)
        (set : Row -> Row -> Row)
        (set_eq : forall e r, key e = key r -> set e r = r).






End Replace.

Lemma conflict_key_eqb_eq a b : PChart.conflict_key_eqb a b = true <-> a = b.
Proof.
  destruct a as [[[a1 a2] a3] a4], b as [[[b1 b2] b3] b4]; unfold PChart.conflict_key_eqb.
  rewrite !andb_true_iff, !String.eqb_eq, Z.eqb_eq; split.
  - intros [[[-> ->] ->] ->]; reflexivity.
  - intro H; inversion H; auto.
Qed.


End PChartFacts.

Module UpsertKeyProofs.

Lemma snfn_key_eqb_eq a b : Snfn.key_eqb a b = true -> a = b.
Proof.
  destruct a as [[[[[a1 a2] a3] a4] a5] a6], b as [[[[[b1 b2] b3] b4] b5] b6].
  unfold Snfn.key_eqb; rewrite !andb_true_iff, !KeyFacts.string_opt_eqb_eq,
    (SqlFacts.opt_eqb_eq _ SqlFacts.ts_eqb_eq).
  intros [[[[[-> ->] ->] ->] ->] ->]; reflexivity.
Qed.




End UpsertKeyProofs.

Module ImportExitProofs.
Import ImportExit.

(** C9: when the body of an import raises (a parse or database error)
    and the handler's rollback succeeds, the import did not succeed but
    the process exits with 0, which the file monitor takes for success;
    a usage error, by contrast, exits with 1. *)
Theorem import_failure_exits_zero :
  import_succeeded 2 true Completes Raises = false
  /\ import_main_exit 2 true Completes Raises Completes = 0
  /\ monitor_reports_success (import_main_exit 2 true Completes Raises Completes) = true
  /\ import_main_exit 1 true Completes Completes Completes = 1.
Proof. repeat split. Qed.

End ImportExitProofs.

Module TPYProofs.
Import Sql TPY.

Lemma okey_eqb_eq : forall a b, okey_eqb a b = true <-> a = b.
Proof. exact KeyFacts.string_opt_eqb_eq. Qed.

Lemma okey_eqb_sym a b : okey_eqb a b = okey_eqb b a.
Proof.
  destruct (okey_eqb a b) eqn:E; symmetry.
  - apply okey_eqb_eq in E; subst; apply okey_eqb_eq; reflexivity.
  - destruct (okey_eqb b a) eqn:F; [|reflexivity].
    apply okey_eqb_eq in F; subst; rewrite (proj2 (okey_eqb_eq a a) eq_refl) in E; discriminate.
Qed.

Lemma dict_get_set {V} k k' (v : V) d :
  dict_get okey_eqb k (dict_set okey_eqb k' v d)
  = if okey_eqb k k' then Some v else dict_get okey_eqb k d.
Proof.
  induction d as [|[k0 v0] d IH]; simpl; [reflexivity|].
  destruct (okey_eqb k' k0) eqn:E; simpl.
  - apply okey_eqb_eq in E; subst k0.
    destruct (okey_eqb k k'); reflexivity.
  - rewrite IH.
    destruct (okey_eqb k k0) eqn:F, (okey_eqb k k') eqn:G; try reflexivity.
    apply okey_eqb_eq in F; apply okey_eqb_eq in G; subst.
    rewrite (proj2 (okey_eqb_eq k0 k0) eq_refl) in E; discriminate.
Qed.

Lemma skey_eqb_sym a b : skey_eqb a b = skey_eqb b a.
Proof. unfold skey_eqb; rewrite (okey_eqb_sym (fst a)), (okey_eqb_sym (snd a)); reflexivity. Qed.

Lemma existsb_length_filter {A} (p : A -> bool) l :
  existsb p l = (0 <? List.length (filter p l))%nat.
Proof. induction l as [|a l IH]; simpl; [reflexivity|]; destruct (p a); simpl; auto. Qed.

Lemma existsb_map' {A B} (f : B -> bool) (g : A -> B) l :
  existsb f (map g l) = existsb (fun x => f (g x)) l.
Proof. induction l as [|a l IH]; simpl; [reflexivity|]; rewrite IH; reflexivity. Qed.

Lemma existsb_ext' {A} (f g : A -> bool) l :
  (forall x, f x = g x) -> existsb f l = existsb g l.
Proof. intro H; induction l as [|a l IH]; simpl; [reflexivity|]; rewrite H, IH; reflexivity. Qed.

Section Floats.
Variable R : Type.
Variable one : R.
Variable mul : R -> R -> R.
Variable div100 : R -> R.
Variable times100 : R -> R.
Variable round2 : R -> R.
Variable yield_of : nat -> nat -> R.

Local Abbreviation get2 m st d :=
  (match dict_get okey_eqb m d with Some i => dict_get okey_eqb st i | None => None end).

Lemma add_row_get2 d s m st :
  get2 m st (add_row R yield_of d s)
  = if skey_eqb (m, st) (sr_key s)
    then Some (mkSD R (sr_total s) (sr_passed s) (sr_failed s)
                    (yield_of (sr_passed s) (sr_total s)))
    else get2 m st d.
Proof.
  unfold add_row; destruct (sr_key s) as [m0 st0]; unfold skey_eqb; simpl; fold okey_eqb.
  rewrite dict_get_set.
  destruct (okey_eqb m m0) eqn:Em; simpl.
  - apply okey_eqb_eq in Em; subst m0.
    rewrite dict_get_set.
    destruct (okey_eqb st st0); [reflexivity|].
    destruct (dict_get okey_eqb m d) as [i|] eqn:Ed.
    + rewrite Ed; reflexivity.
    + rewrite dict_get_set, (proj2 (okey_eqb_eq m m) eq_refl); reflexivity.
  - destruct (dict_get okey_eqb m0 d) eqn:Ed; [reflexivity|].
    rewrite dict_get_set, Em; reflexivity.
Qed.

Lemma fold_add_row_get2 (T P F : skey -> nat) ks d m st :
  get2 m st (fold_left (add_row R yield_of) (map (fun k => mkSR k (T k) (P k) (F k)) ks) d)
  = if existsb (skey_eqb (m, st)) ks
    then Some (mkSD R (T (m, st)) (P (m, st)) (F (m, st)) (yield_of (P (m, st)) (T (m, st))))
    else get2 m st d.
Proof.
  revert d; induction ks as [|k ks IH]; intro d; simpl; [reflexivity|].
  rewrite IH, add_row_get2; simpl.
  destruct (existsb (skey_eqb (m, st)) ks); [rewrite orb_true_r; reflexivity|].
  rewrite orb_false_r.
  destruct (skey_eqb (m, st) k) eqn:E; [|reflexivity].
  apply KeyFacts.tpy_skey_eqb_eq in E; subst k; reflexivity.
Qed.

(** The lookup [model_specific_yields[model][station]]. *)
Lemma yields_lookup week_start week_end log m st :
  let rows := filter (in_scope week_start week_end) log in
  let g := filter (fun r => skey_eqb (skey_of r) (m, st)) rows in
  get2 m st (calculate_model_specific_throughput_yields R yield_of week_start week_end log)
  = if (0 <? List.length g)%nat
    then Some (mkSD R (List.length g)
                 (count (fun r => eq_lit (history_station_passing_status r) "Pass") g)
                 (count (fun r => neq_lit (history_station_passing_status r) "Pass") g)
                 (yield_of (count (fun r => eq_lit (history_station_passing_status r) "Pass") g)
                           (List.length g)))
    else None.
Proof.
  intros rows g.
  unfold calculate_model_specific_throughput_yields, station_query.
  rewrite (fold_add_row_get2
    (fun k => List.length (filter (fun r => skey_eqb (skey_of r) k) rows))
    (fun k => count (fun r => eq_lit (history_station_passing_status r) "Pass")
                    (filter (fun r => skey_eqb (skey_of r) k) rows))
    (fun k => count (fun r => neq_lit (history_station_passing_status r) "Pass")
                    (filter (fun r => skey_eqb (skey_of r) k) rows))).
  rewrite (SqlFacts.existsb_distinct _ KeyFacts.tpy_skey_eqb_eq), existsb_map'.
  rewrite (existsb_ext' _ (fun r => skey_eqb (skey_of r) (m, st)))
    by (intro; apply skey_eqb_sym).
  rewrite existsb_length_filter; fold rows g.
  destruct (0 <? List.length g)%nat; reflexivity.
Qed.


Lemma found_get2 (my : dict (option string) (dict (option string) (station_data R)))
    (m : string) stations :
  flat_map (fun station =>
      match dict_get okey_eqb (Some m) my with
      | Some inner =>
          match dict_get okey_eqb (Some station) inner with
          | Some sd => [(station, throughputYield R sd)]
          | None => []
          end
      | None => []
      end) stations
  = flat_map (fun station =>
      match get2 (Some m) (Some station) my with
      | Some sd => [(station, throughputYield R sd)]
      | None => []
      end) stations.
Proof.
  induction stations as [|st sts IH]; simpl; [reflexivity|].
  rewrite IH; destruct (dict_get okey_eqb (Some m) my); reflexivity.
Qed.

Lemma hardcoded_family_four week_start week_end log key s1 s2 s3 s4 :
  let my := calculate_model_specific_throughput_yields R yield_of week_start week_end log in
  let g st := filter (fun r => skey_eqb (skey_of r) (Some key, Some st))
                     (filter (in_scope week_start week_end) log) in
  hardcoded_family R one mul div100 times100 round2 my key [s1; s2; s3; s4]
  = (fst (hardcoded_family R one mul div100 times100 round2 my key [s1; s2; s3; s4]),
     if forallb (fun st => (0 <? List.length (g st))%nat) [s1; s2; s3; s4]
     then Some (round2 (times100 (fold_left mul
            (map (fun st => div100 (yield_of
                    (count (fun r => eq_lit (history_station_passing_status r) "Pass") (g st))
                    (List.length (g st)))) [s1; s2; s3; s4]) one)))
     else None).
Proof.
  intros my g.
  unfold hardcoded_family; cbv zeta; rewrite found_get2.
  cbn [flat_map].
  pose proof (yields_lookup week_start week_end log (Some key) (Some s1)) as H1.
  pose proof (yields_lookup week_start week_end log (Some key) (Some s2)) as H2.
  pose proof (yields_lookup week_start week_end log (Some key) (Some s3)) as H3.
  pose proof (yields_lookup week_start week_end log (Some key) (Some s4)) as H4.
  cbv zeta in H1, H2, H3, H4; fold my in H1, H2, H3, H4.
  rewrite H1, H2, H3, H4; clear H1 H2 H3 H4.
  subst g; cbn [forallb map].
  destruct (0 <? _)%nat, (0 <? _)%nat, (0 <? _)%nat, (0 <? _)%nat; reflexivity.
Qed.

Lemma hardcoded_lookup my fam :
  In fam ["SXM4"; "SXM5"; "SXM6"]%string ->
  dict_get String.eqb fam (calculate_hardcoded_tpy R one mul div100 times100 round2 my)
  = Some (hardcoded_family R one mul div100 times100 round2 my (family_key fam) (family_stations fam)).
Proof.
  intros [<-|[<-|[<-|[]]]]; reflexivity.
Qed.

(** C5: for each of the families SXM4, SXM5 and SXM6, the hardcoded TPY
    is [round(product of the four stations' yields / 100, times 100, 2)]
    when each of its four stations has at least one in-scope event of the
    family's model in the week, and [None] (null) as soon as one of them
    has none. *)
Theorem hardcoded_tpy_all_four_or_null (week_start week_end : Z) (log : list ws_row) :
  Forall (fun fam =>
    let g st := filter (fun r => skey_eqb (skey_of r) (Some (family_key fam), Some st))
                       (filter (in_scope week_start week_end) log) in
    exists found,
      dict_get String.eqb fam
        (calculate_hardcoded_tpy R one mul div100 times100 round2
           (calculate_model_specific_throughput_yields R yield_of week_start week_end log))
      = Some (found,
              if forallb (fun st => (0 <? List.length (g st))%nat) (family_stations fam)
              then Some (round2 (times100 (fold_left mul
                     (map (fun st => div100 (yield_of
                        (count (fun r => eq_lit (history_station_passing_status r) "Pass") (g st))
                        (List.length (g st)))) (family_stations fam)) one)))
              else None))
    ["SXM4"; "SXM5"; "SXM6"]%string.
Proof.
  apply Forall_forall; intros fam Hfam g.
  rewrite hardcoded_lookup by exact Hfam.
  subst g.
  destruct Hfam as [<-|[<-|[<-|[]]]]; eexists; f_equal;
    [change (family_stations "SXM4") with sxm4_stations
    | change (family_stations "SXM5") with sxm5_stations
    | change (family_stations "SXM6") with sxm5_stations];
    unfold sxm4_stations, sxm5_stations; apply hardcoded_family_four.
Qed.

End Floats.
End TPYProofs.

Module OrchestratorProofs.
Import Orchestrator.

Section Env.
Variable exit_code : nat -> Z.
Variable bk_raises : nat -> bool.

(** After [st], the jobs that ran are the first [k] of [jobs_list], and
    every one of them but the last exited with 0. *)
Local Set Warnings "-inconsistent-scopes".
Local Abbreviation ran st st' jobs_list k :=
  ((k <= List.length jobs_list)%nat
   /\ trace st' = trace st ++ firstn k jobs_list
   /\ jobs st' = (jobs st + k)%nat
   /\ (forall i, (i < k)%nat -> exit_code (jobs st + i) <> 0 -> S i = k)).

Lemma bookkeeping_frame st r st' :
  bookkeeping bk_raises st = (r, st') -> trace st' = trace st /\ jobs st' = jobs st.
Proof.
  unfold bookkeeping; destruct (bk_raises (bks st)); intro H; injection H as _ <-; auto.
Qed.

Lemma run_group_spec category scripts st r st' :
  run_group exit_code bk_raises category scripts st = (r, st') ->
  exists k, ran st st' (map (Run category) scripts) k
            /\ (r = Some true -> k = List.length scripts
                /\ forall i, (i < k)%nat -> exit_code (jobs st + i) = 0).
Proof.
  revert st; induction scripts as [|s rest IH]; intros st H; simpl in H.
  - injection H as <- <-; exists 0%nat; simpl.
    rewrite app_nil_r, Nat.add_0_r; repeat split; intros; lia.
  - destruct (exit_code (jobs st) =? 0) eqn:E.
    + apply IH in H; destruct H as [k [[Hk [Ht [Hj Hf]]] Hr]]; simpl in *.
      apply Z.eqb_eq in E.
      exists (S k); split; [split; [simpl; lia|split; [|split]]|].
      * rewrite Ht, <- app_assoc; reflexivity.
      * rewrite Hj; lia.
      * intros [|i] Hi Hx; [rewrite Nat.add_0_r in Hx; congruence|].
        f_equal; apply Hf; [lia|]. replace (S (jobs st + i))%nat with (jobs st + S i)%nat by lia; exact Hx.
      * intro Hs; destruct (Hr Hs) as [Hk' Hall]; split; [simpl; lia|].
        intros [|i] Hi; [rewrite Nat.add_0_r; exact E|].
        replace (jobs st + S i)%nat with (S (jobs st + i))%nat by lia; apply Hall; lia.
    + destruct (bookkeeping bk_raises _) as [r2 st2] eqn:B.
      apply bookkeeping_frame in B; simpl in B; destruct B as [Bt Bj].
      assert (Hst : st' = st2 /\ r <> Some true)
        by (destruct r2; injection H as <- <-; split; congruence).
      destruct Hst as [-> Hr].
      exists 1%nat; split; [|intro; congruence].
      simpl; rewrite Bt, Bj; repeat split; [lia|lia|intros; lia].
Qed.

Lemma firstn_app_le {A} (l1 l2 : list A) k :
  (k <= List.length l1)%nat -> firstn k (l1 ++ l2) = firstn k l1.
Proof.
  intro H; rewrite firstn_app.
  replace (k - List.length l1)%nat with 0%nat by lia; simpl; apply app_nil_r.
Qed.

Lemma firstn_app_full {A} (l1 l2 : list A) k :
  firstn (List.length l1 + k) (l1 ++ l2) = l1 ++ firstn k l2.
Proof.
  rewrite firstn_app, firstn_all2 by lia.
  replace (List.length l1 + k - List.length l1)%nat with k by lia; reflexivity.
Qed.

Lemma ran_frame st st' st'' l k :
  ran st st' l k -> trace st'' = trace st' -> jobs st'' = jobs st' -> ran st st'' l k.
Proof. intros [Hk [Ht [Hj Hf]]] T J; rewrite T, J; auto. Qed.

Lemma ran_nil st st' l :
  trace st' = trace st -> jobs st' = jobs st -> ran st st' l 0.
Proof.
  intros T J; rewrite T, J; simpl; rewrite app_nil_r, Nat.add_0_r.
  repeat split; intros; lia.
Qed.

Lemma run_cycle_spec st r st' :
  run_cycle exit_code bk_raises st = (r, st') -> exists k, ran st st' cycle_jobs k.
Proof.
  unfold run_cycle.
  destruct (bookkeeping bk_raises st) as [r0 st0] eqn:B0.
  apply bookkeeping_frame in B0; destruct B0 as [T0 J0].
  destruct r0 as [[]|];
    [|intro H; injection H as _ <-; exists 0%nat; apply ran_nil; auto].
  destruct (bookkeeping bk_raises st0) as [r1 st1] eqn:B1.
  apply bookkeeping_frame in B1; destruct B1 as [T1 J1].
  destruct r1 as [[]|];
    [|intro H; injection H as _ <-; exists 0%nat; apply ran_nil; congruence].
  destruct (run_group exit_code bk_raises "testboard" testboard_scripts st1) as [r2 st2] eqn:G2.
  apply run_group_spec in G2; destruct G2 as [k2 [[Hk2 [T2 [J2 F2]]] R2]].
  rewrite T1, T0 in T2; rewrite J1, J0 in J2, F2.
  assert (P2 : ran st st2 cycle_jobs k2).
  { unfold cycle_jobs; rewrite length_app, firstn_app_le by exact Hk2.
    repeat split; auto; lia. }
  destruct r2 as [[]|]; [|intro H; injection H as _ <-; exact (ex_intro _ k2 P2)
                         |intro H; injection H as _ <-; exact (ex_intro _ k2 P2)].
  destruct (R2 eq_refl) as [Ek2 Ok2]; rewrite J1, J0 in Ok2.
  destruct (bookkeeping bk_raises st2) as [r3 st3] eqn:B3.
  apply bookkeeping_frame in B3; destruct B3 as [T3 J3].
  destruct r3 as [[]|];
    [|intro H; injection H as _ <-; exists k2; eapply ran_frame; eauto].
  destruct (run_group exit_code bk_raises "workstation" workstation_scripts st3) as [r4 st4] eqn:G4.
  apply run_group_spec in G4; destruct G4 as [k4 [[Hk4 [T4 [J4 F4]]] _]].
  rewrite T3, T2 in T4; rewrite J3, J2 in J4, F4.
  assert (P4 : ran st st4 cycle_jobs (k2 + k4)).
  { unfold cycle_jobs.
    assert (Ek : k2 = List.length (map (Run "testboard") testboard_scripts))
      by (rewrite length_map; exact Ek2).
    repeat split.
    - rewrite length_app; lia.
    - rewrite T4, Ek, firstn_app_full, firstn_all, <- app_assoc; reflexivity.
    - rewrite J4; lia.
    - intros i Hi Hx.
      destruct (Nat.lt_ge_cases i k2) as [Hlt|Hge]; [apply Ok2 in Hlt; congruence|].
      replace (jobs st + i)%nat with (jobs st + k2 + (i - k2))%nat in Hx by lia.
      apply F4 in Hx; lia. }
  destruct r4 as [[]|]; [|intro H; injection H as _ <-; exact (ex_intro _ _ P4)
                         |intro H; injection H as _ <-; exact (ex_intro _ _ P4)].
  destruct (bookkeeping bk_raises st4) as [r5 st5] eqn:B5.
  apply bookkeeping_frame in B5; destruct B5 as [T5 J5].
  destruct r5 as [[]|]; intro H; injection H as _ <-; exists (k2 + k4)%nat;
    eapply ran_frame; eauto.
Qed.

(** Some bookkeeping step numbered in [a .. b-1] raised. *)
Local Abbreviation raised a b := (exists j, (a <= j < b)%nat /\ bk_raises j = true).

Lemma raised_empty a : ~ raised a a.
Proof. intros [j [Hj _]]; lia. Qed.

Lemma raised_seq a b c :
  (a <= b <= c)%nat -> ~ raised a b -> (raised b c <-> raised a c).
Proof.
  intros H N; split; intros [j [Hj Hr]].
  - exists j; split; [lia|exact Hr].
  - exists j; split; [|exact Hr].
    destruct (Nat.lt_ge_cases j b) as [L|L]; [|lia].
    exfalso; apply N; exists j; split; [lia|exact Hr].
Qed.

(** A step from [s1] to [s2] returning [r] raised exactly when [r] is
    [None]; after a part from [st] to [s1] in which nothing raised, the
    same holds of the whole from [st] to [s2]. *)
Lemma raised_then {A} st s1 s2 (r : option A) :
  (bks st <= bks s1)%nat -> ~ raised (bks st) (bks s1) ->
  (bks s1 <= bks s2)%nat /\ (r = None <-> raised (bks s1) (bks s2)) ->
  (bks st <= bks s2)%nat /\ (r = None <-> raised (bks st) (bks s2)).
Proof.
  intros L N [L2 H]; split; [lia|]. rewrite H. apply raised_seq; [lia|exact N].
Qed.

Lemma raised_stop {A} st s1 s2 :
  (bks st <= bks s1)%nat -> ~ raised (bks st) (bks s1) ->
  (bks s1 <= bks s2)%nat /\ (@None A = None <-> raised (bks s1) (bks s2)) ->
  forall B : Type, (bks st <= bks s2)%nat /\ (@None B = None <-> raised (bks st) (bks s2)).
Proof.
  intros L N K B. destruct (raised_then st s1 s2 None L N K) as [L2 H].
  split; [exact L2|]. rewrite <- H. split; reflexivity.
Qed.

Lemma raised_none st s1 s2 {A} (x : A) :
  (bks st <= bks s1)%nat -> ~ raised (bks st) (bks s1) ->
  (bks s1 <= bks s2)%nat /\ (Some x = None <-> raised (bks s1) (bks s2)) ->
  (bks st <= bks s2)%nat /\ ~ raised (bks st) (bks s2).
Proof.
  intros L N [L2 H]; split; [lia|].
  rewrite <- (raised_seq _ _ _ (conj L L2) N), <- H. discriminate.
Qed.

Lemma bookkeeping_bks st r st' :
  bookkeeping bk_raises st = (r, st') ->
  (bks st <= bks st')%nat /\ (r = None <-> raised (bks st) (bks st')).
Proof.
  unfold bookkeeping; destruct (bk_raises (bks st)) eqn:E; intro H; injection H as <- <-;
    simpl; (split; [lia|split]).
  - intros _; exists (bks st); split; [lia|exact E].
  - reflexivity.
  - discriminate.
  - intros [j [Hj Hr]]. replace j with (bks st) in Hr by lia. congruence.
Qed.

Lemma run_group_bks category scripts st r st' :
  run_group exit_code bk_raises category scripts st = (r, st') ->
  (bks st <= bks st')%nat /\ (r = None <-> raised (bks st) (bks st')).
Proof.
  revert st; induction scripts as [|s rest IH]; intros st H; simpl in H.
  - injection H as <- <-. split; [lia|split; [discriminate|intro N; destruct (raised_empty _ N)]].
  - destruct (exit_code (jobs st) =? 0).
    + apply IH in H. exact H.
    + destruct (bookkeeping bk_raises _) as [r2 st2] eqn:B.
      apply bookkeeping_bks in B. simpl in B.
      destruct B as [L HB].
      destruct r2; injection H as <- <-; split; try exact L; rewrite <- HB;
        split; (discriminate || reflexivity).
Qed.

Lemma run_cycle_bks st r st' :
  run_cycle exit_code bk_raises st = (r, st') ->
  (bks st <= bks st')%nat /\ (r = None <-> raised (bks st) (bks st')).
Proof.
  unfold run_cycle.
  assert (N0 : (bks st <= bks st)%nat /\ ~ raised (bks st) (bks st))
    by (split; [lia|apply raised_empty]).
  destruct (bookkeeping bk_raises st) as [r0 st0] eqn:B0; apply bookkeeping_bks in B0.
  destruct r0 as [u0|];
    [|intro H; injection H as <- <-; exact (raised_stop _ _ _ (proj1 N0) (proj2 N0) B0 _)].
  destruct (raised_none _ _ _ u0 (proj1 N0) (proj2 N0) B0) as [L0 N1].
  destruct (bookkeeping bk_raises st0) as [r1 st1] eqn:B1; apply bookkeeping_bks in B1.
  destruct r1 as [u1|];
    [|intro H; injection H as <- <-; exact (raised_stop _ _ _ L0 N1 B1 _)].
  destruct (raised_none _ _ _ u1 L0 N1 B1) as [L1 N2].
  destruct (run_group exit_code bk_raises "testboard" testboard_scripts st1) as [r2 st2] eqn:G2.
  apply run_group_bks in G2.
  destruct r2 as [[]|];
    [|intro H; injection H as <- <-; exact (raised_then _ _ _ _ L1 N2 G2)
     |intro H; injection H as <- <-; exact (raised_then _ _ _ _ L1 N2 G2)].
  destruct (raised_none _ _ _ true L1 N2 G2) as [L2 N3].
  destruct (bookkeeping bk_raises st2) as [r3 st3] eqn:B3; apply bookkeeping_bks in B3.
  destruct r3 as [u3|];
    [|intro H; injection H as <- <-; exact (raised_stop _ _ _ L2 N3 B3 _)].
  destruct (raised_none _ _ _ u3 L2 N3 B3) as [L3 N4].
  destruct (run_group exit_code bk_raises "workstation" workstation_scripts st3) as [r4 st4] eqn:G4.
  apply run_group_bks in G4.
  destruct r4 as [[]|];
    [|intro H; injection H as <- <-; exact (raised_then _ _ _ _ L3 N4 G4)
     |intro H; injection H as <- <-; exact (raised_then _ _ _ _ L3 N4 G4)].
  destruct (raised_none _ _ _ true L3 N4 G4) as [L4 N5].
  destruct (bookkeeping bk_raises st4) as [r5 st5] eqn:B5; apply bookkeeping_bks in B5.
  destruct r5 as [u5|]; intro H; injection H as <- <-;
    [|exact (raised_stop _ _ _ L4 N5 B5 _)].
  destruct (raised_none _ _ _ u5 L4 N5 B5) as [L5 N6].
  split; [exact L5|split; [discriminate|intro R; contradiction]].
Qed.

Lemma iteration_spec st :
  exists k ending,
    (k <= List.length cycle_jobs)%nat
    /\ trace (iteration exit_code bk_raises st) = trace st ++ firstn k cycle_jobs ++ ending
    /\ (ending = [Sleep wait_time] \/ ending = [LogError; Sleep wait_time])
    /\ (ending = [LogError; Sleep wait_time]
        <-> raised (bks st) (bks (iteration exit_code bk_raises st)))
    /\ jobs (iteration exit_code bk_raises st) = (jobs st + k)%nat
    /\ (forall i, (i < k)%nat -> exit_code (jobs st + i) <> 0 -> S i = k).
Proof.
  unfold iteration.
  assert (N0 : (bks st <= bks st)%nat /\ ~ raised (bks st) (bks st))
    by (split; [lia|apply raised_empty]).
  destruct (bookkeeping bk_raises st) as [r0 st0] eqn:B0.
  pose proof (bookkeeping_bks _ _ _ B0) as K0.
  apply bookkeeping_frame in B0; destruct B0 as [T0 J0].
  destruct r0 as [u0|]; cbn beta iota.
  2:{ exists 0%nat, [LogError; Sleep wait_time]; unfold sleep; simpl.
      rewrite T0, J0, <- app_assoc; repeat split; auto; try (intros; lia).
      intros _; apply (proj2 K0); reflexivity. }
  destruct (raised_none _ _ _ u0 (proj1 N0) (proj2 N0) K0) as [L0 N1].
  destruct (run_cycle exit_code bk_raises st0) as [rc st2] eqn:C.
  pose proof (run_cycle_bks _ _ _ C) as K2.
  apply run_cycle_spec in C; destruct C as [k [Hk [T2 [J2 F2]]]].
  rewrite T0 in T2; rewrite J0 in J2, F2.
  destruct rc as [b|]; cbn beta iota.
  2:{ exists k, [LogError; Sleep wait_time]; unfold sleep; simpl.
      rewrite T2, J2, <- !app_assoc; repeat split; auto.
      intros _; apply (proj2 (raised_then _ _ _ None L0 N1 K2)); reflexivity. }
  destruct (raised_none _ _ _ b L0 N1 K2) as [L2 N3].
  destruct (bookkeeping bk_raises st2) as [r3 st3] eqn:B3.
  pose proof (bookkeeping_bks _ _ _ B3) as K3.
  apply bookkeeping_frame in B3; destruct B3 as [T3 J3].
  destruct r3 as [u3|]; cbn beta iota.
  - destruct (raised_none _ _ _ u3 L2 N3 K3) as [L3 N4].
    exists k, [Sleep wait_time]; unfold sleep; simpl.
    rewrite T3, T2, J3, J2, <- !app_assoc; repeat split; auto.
    + discriminate.
    + intro R; contradiction.
  - exists k, [LogError; Sleep wait_time]; unfold sleep; simpl.
    rewrite T3, T2, J3, J2, <- !app_assoc; repeat split; auto.
    intros _; apply (proj2 (raised_stop _ _ _ L2 N3 K3 unit)); reflexivity.
Qed.

Lemma count_sleep_cycle_jobs k :
  Sql.count (fun e => match e with Sleep _ => true | _ => false end) (firstn k cycle_jobs) = 0%nat.
Proof.
  pose proof (SqlFacts.count_app (fun e => match e with Sleep _ => true | _ => false end)
                (firstn k cycle_jobs) (skipn k cycle_jobs)) as H.
  rewrite firstn_skipn in H.
  change (Sql.count (fun e => match e with Sleep _ => true | _ => false end) cycle_jobs)
    with 0%nat in H.
  lia.
Qed.

(** C7: in one iteration of the loop the jobs run are a prefix of the
    cycle's nine jobs (testboard group, then workstation group), every
    job but the last of them exited with 0 (a nonzero exit ends the
    cycle), and the iteration ends with the 120-second sleep.  The error
    is logged before that sleep exactly when a bookkeeping step of the
    iteration raised: the exception is caught, logged, and followed by
    the sleep.  The loop never stops: [n] iterations perform exactly [n]
    sleeps. *)
Theorem orchestrator_abort_and_retry (st : ostate) :
  (exists k ending,
     trace (iteration exit_code bk_raises st) = trace st ++ firstn k cycle_jobs ++ ending
     /\ (ending = [Sleep wait_time] \/ ending = [LogError; Sleep wait_time])
     /\ (ending = [LogError; Sleep wait_time]
         <-> exists j, (bks st <= j < bks (iteration exit_code bk_raises st))%nat
                       /\ bk_raises j = true)
     /\ jobs (iteration exit_code bk_raises st) = (jobs st + k)%nat
     /\ (forall i, (i < k)%nat -> exit_code (jobs st + i) <> 0 -> S i = k))
  /\ (forall n,
       Sql.count (fun e => match e with Sleep _ => true | _ => false end)
                 (trace (start exit_code bk_raises n st))
       = (Sql.count (fun e => match e with Sleep _ => true | _ => false end) (trace st) + n)%nat)
  /\ wait_time = 120.
Proof.
  split; [|split; [|reflexivity]].
  - destruct (iteration_spec st) as [k [ending [_ H]]]; exists k, ending; exact H.
  - intro n; revert st; induction n as [|n IH]; intro st; simpl; [lia|].
    rewrite IH.
    destruct (iteration_spec st) as [k [ending [_ [Ht [He _]]]]].
    rewrite Ht, !SqlFacts.count_app, count_sleep_cycle_jobs.
    destruct He as [-> | ->];
      [change (Sql.count _ [Sleep wait_time]) with 1%nat
      | change (Sql.count _ [LogError; Sleep wait_time]) with 1%nat]; lia.
Qed.

End Env.
End OrchestratorProofs.

Module WeekFacts.
Import Cal CalFacts IsoFacts Week.

Lemma add_days_eq (o k : Z) :
  add_days o k = if (MINORD <=? o + k) && (o + k <=? MAXORD) then Some (o + k) else None.
Proof. reflexivity. Qed.

Lemma weekday_range (t : Z) : 0 <= weekday t < 7.
Proof. unfold weekday. apply Z.mod_pos_bound. lia. Qed.

(** The Monday on or before ordinal [t >= 1] is a valid ordinal. *)
Lemma monday_pos (t : Z) : 1 <= t -> 1 <= t - weekday t.
Proof.
  intros H. unfold weekday.
  replace (t + 6) with ((t - 1) + 1 * 7) by lia.
  rewrite Z.mod_add by lia.
  pose proof (Z.mod_le (t - 1) 7 ltac:(lia) ltac:(lia)). lia.
Qed.

Lemma weekday_monday (t : Z) : weekday (t - weekday t) = 0.
Proof.
  unfold weekday.
  pose proof (Z.div_mod (t + 6) 7 ltac:(lia)).
  replace (t - (t + 6) mod 7 + 6) with (((t + 6) / 7) * 7) by lia.
  apply Z.mod_mul. lia.
Qed.

(** A Monday [M] with [M <= t <= M + 6] is the Monday of [t]'s week. *)
Lemma monday_unique (M t : Z) :
  weekday M = 0 -> M <= t <= M + 6 -> M = t - weekday t.
Proof.
  unfold weekday. intros HM Ht.
  assert (E : (t + 6) mod 7 = t - M).
  { replace (t + 6) with ((t - M) + (M + 6)) by lia.
    rewrite Z.add_mod, HM, Z.add_0_r, Z.mod_mod by lia.
    apply Z.mod_small. lia. }
  lia.
Qed.

Lemma isoweek1monday_step (Y : Z) : isoweek1monday Y + 359 <= isoweek1monday (Y + 1).
Proof.
  pose proof (isoweek1monday_bounds Y) as A.
  pose proof (isoweek1monday_bounds (Y + 1)) as B.
  rewrite !ymd2ord_jan in A, B. pose proof (dby_mono_step Y). lia.
Qed.

Lemma isoweek1monday_lt (Y Z' : Z) : Y < Z' -> isoweek1monday (Y + 1) <= isoweek1monday Z'.
Proof.
  intros H.
  pose proof (isoweek1monday_bounds (Y + 1)) as A.
  pose proof (isoweek1monday_bounds Z') as B.
  rewrite !ymd2ord_jan in A, B.
  destruct (Z.eq_dec Z' (Y + 1)) as [->|Hne]; [lia|].
  pose proof (dby_mono_step (Y + 1)).
  pose proof (dby_le (Y + 1 + 1) Z' ltac:(lia)). lia.
Qed.

(** The Monday of ISO week [W] of [Y], as [isocalendar] returns them,
    comes before ISO week 1 of the next year. *)
Lemma isocalendar_before_next (y m d : Z) : valid_ymd y m d ->
  let '(Y, W, _) := isocalendar y m d in
  isoweek1monday Y + 7 * (W - 1) < isoweek1monday (Y + 1).
Proof.
  intros Hv.
  set (t := ymd2ord y m d).
  unfold isocalendar. fold t.
  destruct (Z.ltb_spec ((t - isoweek1monday y) / 7) 0) as [Hneg|Hnn].
  - assert (Ht : t < isoweek1monday y).
    { destruct (Z.lt_ge_cases t (isoweek1monday y)) as [|G]; [assumption|].
      assert (0 <= (t - isoweek1monday y) / 7) by (apply Z.div_pos; lia). lia. }
    replace (y - 1 + 1) with y by lia.
    replace ((t - isoweek1monday (y - 1)) / 7 + 1 - 1)
      with ((t - isoweek1monday (y - 1)) / 7) by lia.
    pose proof (Z.mul_div_le (t - isoweek1monday (y - 1)) 7 ltac:(lia)). lia.
  - destruct (Z.geb_spec ((t - isoweek1monday y) / 7) 52) as [H52|H52].
    + destruct (Z.geb_spec t (isoweek1monday (y + 1))) as [Hn|Hn].
      * pose proof (isoweek1monday_step (y + 1)). lia.
      * replace ((t - isoweek1monday y) / 7 + 1 - 1)
          with ((t - isoweek1monday y) / 7) by lia.
        pose proof (Z.mul_div_le (t - isoweek1monday y) 7 ltac:(lia)). lia.
    + replace ((t - isoweek1monday y) / 7 + 1 - 1)
        with ((t - isoweek1monday y) / 7) by lia.
      pose proof (isoweek1monday_step y). lia.
Qed.

(** Parsing a well-formed week id: the year and week numbers are read
    back, and the range is computed from ISO week 1 of the year. *)
Lemma week_string_range (Y W : Z) :
  0 <= Y -> 0 <= W ->
  get_week_date_range (PyStr.str_of_Z Y ++ "-W" ++ PyStr.format_02d W)
  = if (MINYEAR <=? Y) && (Y <=? MAXYEAR) then
      let s := isoweek1monday Y + 7 * (W - 1) in
      if (MINORD <=? s) && (s + 6 <=? MAXORD) then Some (s, s + 6) else None
    else None.
Proof.
  intros HY HW.
  destruct (StrFacts.str_of_Z_ok Y HY) as [Ay Iy].
  destruct (StrFacts.format_02d_ok W HW) as [Aw Iw].
  unfold get_week_date_range.
  rewrite StrFacts.split_week_id by assumption.
  rewrite Iy, Iw.
  destruct ((MINYEAR <=? Y) && (Y <=? MAXYEAR)) eqn:HR; [|reflexivity].
  apply andb_prop in HR as [H1 H2]. apply Z.leb_le in H1, H2.
  unfold MINYEAR, MAXYEAR in H1, H2.
  assert (Hm : MINORD <= isoweek1monday Y <= MAXORD).
  { split.
    - destruct (Z.eq_dec Y 1) as [->|HY1].
      + rewrite isoweek1monday_1. reflexivity.
      + pose proof (isoweek1monday_bounds Y) as Hb. rewrite ymd2ord_jan in Hb.
        pose proof (dby_nonneg Y ltac:(lia)). unfold MINORD. lia.
    - pose proof (isoweek1monday_bounds Y) as Hb. rewrite ymd2ord_jan in Hb.
      pose proof (dby_le (Y + 1) 10000 ltac:(lia)).
      pose proof (dby_mono_step Y). rewrite MAXORD_eq. lia. }
  rewrite (add_days_eq (ymd2ord Y 1 4)).
  rewrite Z.add_opp_r, jan4_monday.
  destruct (Z.leb_spec MINORD (isoweek1monday Y)); [|lia].
  destruct (Z.leb_spec (isoweek1monday Y) MAXORD); [|lia]. cbn [andb].
  rewrite add_days_eq.
  set (s := isoweek1monday Y + 7 * (W - 1)).
  destruct (Z.leb_spec MINORD s) as [Hs1|Hs1]; cbn [andb]; [|reflexivity].
  destruct (Z.leb_spec s MAXORD) as [Hs3|Hs3]; cbn iota.
  - rewrite add_days_eq.
    destruct (Z.leb_spec MINORD (s + 6)); [|unfold MINORD in *; lia]. cbn [andb].
    destruct (s + 6 <=? MAXORD); reflexivity.
  - destruct (Z.leb_spec (s + 6) MAXORD); [lia|reflexivity].
Qed.

Lemma get_week_bounds_eq (y m d : Z) : valid_ymd y m d ->
  let t := ymd2ord y m d in
  get_week_bounds y m d
  = if t - weekday t + 6 <=? MAXORD then Some (t - weekday t, t - weekday t + 6) else None.
Proof.
  intros Hv t.
  pose proof (ord_range y m d Hv) as Hr. fold t in Hr.
  pose proof (weekday_range t). pose proof (monday_pos t ltac:(unfold MINORD in Hr; lia)).
  unfold get_week_bounds. fold t.
  rewrite add_days_eq, Z.add_opp_r.
  destruct (Z.leb_spec MINORD (t - weekday t)); [|unfold MINORD in *; lia].
  destruct (Z.leb_spec (t - weekday t) MAXORD); [|lia]. cbn [andb].
  rewrite add_days_eq.
  destruct (Z.leb_spec MINORD (t - weekday t + 6)); [|unfold MINORD in *; lia].
  cbn [andb]. destruct (t - weekday t + 6 <=? MAXORD); reflexivity.
Qed.

(** The range of a date's week id is the date's Monday-to-Sunday week. *)
Lemma range_of_week_id (y m d : Z) : valid_ymd y m d ->
  let t := ymd2ord y m d in
  get_week_date_range (get_week_id y m d)
  = if t - weekday t + 6 <=? MAXORD then Some (t - weekday t, t - weekday t + 6) else None.
Proof.
  intros Hv t.
  pose proof (isocalendar_spec y m d Hv) as Hiso.
  pose proof (ord_range y m d Hv) as Hr. fold t in Hr, Hiso.
  pose proof (weekday_range t). pose proof (monday_pos t ltac:(unfold MINORD in Hr; lia)).
  unfold get_week_id.
  destruct (isocalendar y m d) as [[Y W] D].
  destruct Hiso as (HY & HW & Heq).
  rewrite week_string_range by (unfold MINYEAR, MAXYEAR in HY; lia).
  destruct (Z.leb_spec MINYEAR Y); [|lia].
  destruct (Z.leb_spec Y MAXYEAR); [|lia]. cbn [andb]. cbv zeta.
  rewrite Heq.
  destruct (Z.leb_spec MINORD (t - weekday t)); [|unfold MINORD in *; lia].
  reflexivity.
Qed.

(** Two valid dates get the same week id exactly when they have the
    same Monday. *)
Lemma week_id_eq_iff (y1 m1 d1 y2 m2 d2 : Z) :
  valid_ymd y1 m1 d1 -> valid_ymd y2 m2 d2 ->
  let t1 := ymd2ord y1 m1 d1 in let t2 := ymd2ord y2 m2 d2 in
  get_week_id y1 m1 d1 = get_week_id y2 m2 d2 <-> t1 - weekday t1 = t2 - weekday t2.
Proof.
  intros V1 V2 t1 t2.
  pose proof (isocalendar_spec y1 m1 d1 V1) as I1.
  pose proof (isocalendar_spec y2 m2 d2 V2) as I2.
  pose proof (isocalendar_before_next y1 m1 d1 V1) as B1.
  pose proof (isocalendar_before_next y2 m2 d2 V2) as B2.
  fold t1 in I1. fold t2 in I2.
  unfold get_week_id.
  destruct (isocalendar y1 m1 d1) as [[Y1 W1] D1].
  destruct (isocalendar y2 m2 d2) as [[Y2 W2] D2].
  destruct I1 as (HY1 & HW1 & E1), I2 as (HY2 & HW2 & E2).
  unfold MINYEAR, MAXYEAR in HY1, HY2.
  destruct (StrFacts.str_of_Z_ok Y1 ltac:(lia)) as [Ay1 Iy1].
  destruct (StrFacts.format_02d_ok W1 ltac:(lia)) as [Aw1 Iw1].
  destruct (StrFacts.str_of_Z_ok Y2 ltac:(lia)) as [Ay2 Iy2].
  destruct (StrFacts.format_02d_ok W2 ltac:(lia)) as [Aw2 Iw2].
  split.
  - intros Hs.
    pose proof (StrFacts.split_week_id _ _ Ay1 Aw1) as S1.
    rewrite Hs, (StrFacts.split_week_id _ _ Ay2 Aw2) in S1.
    injection S1 as Sy Sw.
    rewrite Sy, Iy1 in Iy2. rewrite Sw, Iw1 in Iw2.
    injection Iy2 as <-. injection Iw2 as <-. lia.
  - intros Ht.
    assert (Y1 = Y2).
    { pose proof (isoweek1monday_step Y1). pose proof (isoweek1monday_step Y2).
      destruct (Z.lt_trichotomy Y1 Y2) as [L|[L|L]]; [|exact L|].
      - pose proof (isoweek1monday_lt Y1 Y2 L). lia.
      - pose proof (isoweek1monday_lt Y2 Y1 L). lia. }
    subst Y2. assert (W1 = W2) by lia. subst W2. reflexivity.
Qed.

End WeekFacts.

Module SortFacts.

Lemma insert_sorted_perm {A} (ltb : A -> A -> bool) x l :
  Permutation (PySort.insert_sorted ltb x l) (x :: l).
Proof.
  induction l as [|y l IH]; simpl; [reflexivity|].
  destruct (ltb y x); [|reflexivity].
  rewrite IH. apply perm_swap.
Qed.

Lemma sorted_perm {A} (ltb : A -> A -> bool) l : Permutation (PySort.sorted ltb l) l.
Proof.
  induction l as [|x l IH]; simpl; [reflexivity|].
  rewrite insert_sorted_perm, IH. reflexivity.
Qed.

End SortFacts.

Module DistinctFacts.
Section S.
Context {K : Type} (eqb : K -> K -> bool) (eqb_eq : forall x y, eqb x y = true <-> x = y).

Lemma NoDup_distinct l : NoDup (Sql.distinct eqb l).
Proof.
  induction l as [|k l IH]; simpl; [constructor|].
  destruct (existsb (eqb k) (Sql.distinct eqb l)) eqn:E; [exact IH|].
  constructor; [|exact IH].
  intro Hin. rewrite <- (SqlFacts.existsb_eqb_In eqb eqb_eq) in Hin. congruence.
Qed.

End S.

Lemma count_zero {A} (p : A -> bool) l :
  (forall w, In w l -> p w = false) -> Sql.count p l = 0%nat.
Proof.
  unfold Sql.count. induction l as [|a l IH]; intros H; simpl; [reflexivity|].
  rewrite (H a (or_introl eq_refl)). apply IH. intros w Hw. apply H. right. exact Hw.
Qed.

(** [count p l] is 1 when [l] has no duplicates and [w0] is its only
    element satisfying [p]. *)
Lemma count_unique {A} (p : A -> bool) (w0 : A) l :
  NoDup l -> In w0 l -> (forall w, In w l -> p w = true <-> w = w0) ->
  Sql.count p l = 1%nat.
Proof.
  induction l as [|a l IH]; intros Hd Hin Hp; [destruct Hin|].
  inversion Hd as [|? ? Hna Hdl]; subst.
  unfold Sql.count; simpl.
  destruct Hin as [->|Hin].
  - rewrite (proj2 (Hp w0 (or_introl eq_refl)) eq_refl). simpl.
    f_equal. apply (count_zero p l).
    intros w Hw. destruct (p w) eqn:E; [|reflexivity].
    apply (Hp w (or_intror Hw)) in E. subst. contradiction.
  - destruct (p a) eqn:E.
    + apply (Hp a (or_introl eq_refl)) in E. subst. contradiction.
    + apply IH; auto. intros w Hw. apply Hp. right. exact Hw.
Qed.

End DistinctFacts.

Module WeekExtras.
Import Cal CalFacts Week WeekFacts.

(** X1: for a valid date, [get_week_bounds] returns the Monday of the
    date's week and the Sunday six days later, the date lying between
    them; it raises [OverflowError] exactly when that Sunday is past
    9999-12-31. *)
Theorem week_bounds_monday_to_sunday (y m d : Z) : valid_ymd y m d ->
  let t := ymd2ord y m d in
  (get_week_bounds y m d = None <-> MAXORD < t - weekday t + 6)
  /\ forall s e, get_week_bounds y m d = Some (s, e) ->
       weekday s = 0 /\ e = s + 6 /\ s <= t <= e.
Proof.
  intros Hv t.
  rewrite (get_week_bounds_eq y m d Hv). fold t.
  pose proof (weekday_range t). pose proof (weekday_monday t).
  destruct (Z.leb_spec (t - weekday t + 6) MAXORD) as [Hle|Hgt].
  - split; [split; [discriminate|lia]|].
    intros s e E. injection E as <- <-. repeat split; lia.
  - split; [tauto|]. discriminate.
Qed.

Lemma week_bounds_monday_to_sunday_witness :
  valid_ymd 2024 12 30
  /\ (let t := ymd2ord 2024 12 30 in
      (get_week_bounds 2024 12 30 = None <-> MAXORD < t - weekday t + 6)
      /\ forall s e, get_week_bounds 2024 12 30 = Some (s, e) ->
           weekday s = 0 /\ e = s + 6 /\ s <= t <= e).
Proof.
  split; [exact WeekProofs.valid_2024_12_30|].
  apply (week_bounds_monday_to_sunday 2024 12 30). exact WeekProofs.valid_2024_12_30.
Defined.

(** X2: on a well-formed week id ["Y-Www"], [get_week_date_range] reads
    [Y] and [W] back and returns the seven days starting [W - 1] weeks
    after the Monday of ISO week 1 of [Y]; the week number is not checked
    against the weeks of the year (week 0 is the week before week 1, and
    week 53 of a 52-week year is week 1 of the next year).  It raises
    when the year is outside 1..9999 or the range leaves the calendar. *)
Theorem week_date_range_any_week (Y W : Z) :
  0 <= Y -> 0 <= W ->
  get_week_date_range (PyStr.str_of_Z Y ++ "-W" ++ PyStr.format_02d W)
  = if (MINYEAR <=? Y) && (Y <=? MAXYEAR) then
      let s := isoweek1monday Y + 7 * (W - 1) in
      if (MINORD <=? s) && (s + 6 <=? MAXORD) then Some (s, s + 6) else None
    else None.
Proof. intros HY HW. apply week_string_range; assumption. Qed.

Lemma week_date_range_any_week_witness :
  (0 <= 2021 /\ 0 <= 53)
  /\ get_week_date_range (PyStr.str_of_Z 2021 ++ "-W" ++ PyStr.format_02d 53)
     = if (MINYEAR <=? 2021) && (2021 <=? MAXYEAR) then
         let s := isoweek1monday 2021 + 7 * (53 - 1) in
         if (MINORD <=? s) && (s + 6 <=? MAXORD) then Some (s, s + 6) else None
       else None.
Proof.
  split; [split; lia|].
  apply (week_date_range_any_week 2021 53); lia.
Defined.

(** X3: two valid dates get the same week id from [get_week_id] exactly
    when they lie in the same Monday-to-Sunday week. *)
Theorem week_id_same_week (y1 m1 d1 y2 m2 d2 : Z) :
  valid_ymd y1 m1 d1 -> valid_ymd y2 m2 d2 ->
  let t1 := ymd2ord y1 m1 d1 in let t2 := ymd2ord y2 m2 d2 in
  get_week_id y1 m1 d1 = get_week_id y2 m2 d2 <-> t1 - weekday t1 = t2 - weekday t2.
Proof. intros V1 V2. apply week_id_eq_iff; assumption. Qed.

Lemma valid_2025_1_5 : valid_ymd 2025 1 5.
Proof. unfold valid_ymd; vm_compute; repeat split; intro H; discriminate H. Qed.

Lemma week_id_same_week_witness :
  (valid_ymd 2024 12 30 /\ valid_ymd 2025 1 5)
  /\ (let t1 := ymd2ord 2024 12 30 in let t2 := ymd2ord 2025 1 5 in
      get_week_id 2024 12 30 = get_week_id 2025 1 5 <-> t1 - weekday t1 = t2 - weekday t2).
Proof.
  split; [split; [exact WeekProofs.valid_2024_12_30 | exact valid_2025_1_5]|].
  apply (week_id_same_week 2024 12 30 2025 1 5);
    [exact WeekProofs.valid_2024_12_30 | exact valid_2025_1_5].
Defined.

End WeekExtras.

Module AllWeeksProofs.
Import Cal CalFacts Week WeekFacts AllWeeks.

Lemma in_all_weeks dates w : dates <> [] ->
  In w (get_all_available_weeks dates)
  <-> exists y m d, In (y, m, d) dates /\ w = get_week_id y m d.
Proof.
  intros Hne. unfold get_all_available_weeks.
  destruct dates as [|x rest]; [congruence|].
  set (l := x :: rest).
  split.
  - intros H. apply (Permutation_in _ (SortFacts.sorted_perm _ _)) in H.
    rewrite (SqlFacts.In_distinct _ String.eqb_eq) in H.
    apply in_map_iff in H as [[[y m] d] [E Hin]]. exists y, m, d. auto.
  - intros (y & m & d & Hin & ->).
    apply (Permutation_in _ (Permutation_sym (SortFacts.sorted_perm _ _))).
    rewrite (SqlFacts.In_distinct _ String.eqb_eq).
    apply in_map_iff. exists (y, m, d). auto.
Qed.

Lemma NoDup_all_weeks dates : NoDup (get_all_available_weeks dates).
Proof.
  unfold get_all_available_weeks. destruct dates; [constructor|].
  eapply Permutation_NoDup; [symmetry; apply SortFacts.sorted_perm|].
  apply (DistinctFacts.NoDup_distinct _ String.eqb_eq).
Qed.

(** X4: from the dates of the activity query, [get_all_available_weeks]
    lists each week id of a date once and nothing else; so every date
    whose week ends by 9999-12-31 lies in the range of exactly one listed
    week, and a date of the last, partial week of 9999 lies in none (its
    week's range raises). *)
Theorem all_available_weeks_cover (dates : list (Z * Z * Z)) :
  Forall (fun '(y, m, d) => valid_ymd y m d) dates ->
  NoDup (get_all_available_weeks dates)
  /\ (forall w, In w (get_all_available_weeks dates)
                <-> exists y m d, In (y, m, d) dates /\ w = get_week_id y m d)
  /\ (forall y m d, In (y, m, d) dates ->
        let t := ymd2ord y m d in
        Sql.count (fun w => match get_week_date_range w with
                            | Some (s, e) => (s <=? t) && (t <=? e)
                            | None => false
                            end) (get_all_available_weeks dates)
        = if t - weekday t + 6 <=? MAXORD then 1%nat else 0%nat).
Proof.
  intros Hv.
  assert (Hin : forall w, In w (get_all_available_weeks dates)
                <-> exists y m d, In (y, m, d) dates /\ w = get_week_id y m d).
  { intros w. destruct dates as [|x rest].
    - split; [intros []|intros (y & m & d & [] & _)].
    - apply in_all_weeks. discriminate. }
  split; [apply NoDup_all_weeks|split; [exact Hin|]].
  intros y m d Hd. cbv zeta. remember (ymd2ord y m d) as t eqn:Et.
  assert (Vd : valid_ymd y m d) by (rewrite Forall_forall in Hv; exact (Hv _ Hd)).
  pose proof (weekday_range t). pose proof (weekday_monday t).
  (* the test on a listed week [w = get_week_id y' m' d'] *)
  assert (Ht : forall w, In w (get_all_available_weeks dates) ->
            (match get_week_date_range w with
             | Some (s, e) => (s <=? t) && (t <=? e)
             | None => false
             end = true
             <-> (t - weekday t + 6 <= MAXORD /\ w = get_week_id y m d))).
  { intros w Hw. apply Hin in Hw as (y' & m' & d' & Hd' & ->).
    assert (Vd' : valid_ymd y' m' d') by (rewrite Forall_forall in Hv; exact (Hv _ Hd')).
    rewrite (range_of_week_id y' m' d' Vd').
    rewrite (week_id_eq_iff y' m' d' y m d Vd' Vd). cbv zeta. rewrite <- Et.
    set (t' := ymd2ord y' m' d').
    pose proof (weekday_range t'). pose proof (weekday_monday t').
    destruct (Z.leb_spec (t' - weekday t' + 6) MAXORD) as [Hle|Hgt].
    - rewrite andb_true_iff, !Z.leb_le. split.
      + intros Hr.
        pose proof (monday_unique (t' - weekday t') t ltac:(assumption) ltac:(lia)).
        split; lia.
      + intros [_ E]. lia.
    - split; [discriminate|]. intros [Hx E]. lia. }
  destruct (Z.leb_spec (t - weekday t + 6) MAXORD) as [Hle|Hgt].
  - apply (DistinctFacts.count_unique _ (get_week_id y m d)).
    + apply NoDup_all_weeks.
    + apply Hin. exists y, m, d. auto.
    + intros w Hw. rewrite (Ht w Hw). tauto.
  - apply DistinctFacts.count_zero. intros w Hw.
    destruct (match get_week_date_range w with
              | Some (s, e) => (s <=? t) && (t <=? e)
              | None => false
              end) eqn:E; [|reflexivity].
    apply (Ht w Hw) in E. lia.
Qed.

Lemma all_available_weeks_cover_witness :
  Forall (fun '(y, m, d) => valid_ymd y m d) [(2024, 12, 30); (2025, 1, 5)]
  /\ (NoDup (get_all_available_weeks [(2024, 12, 30); (2025, 1, 5)])
      /\ (forall w, In w (get_all_available_weeks [(2024, 12, 30); (2025, 1, 5)])
                    <-> exists y m d, In (y, m, d) [(2024, 12, 30); (2025, 1, 5)]
                                      /\ w = get_week_id y m d)
      /\ (forall y m d, In (y, m, d) [(2024, 12, 30); (2025, 1, 5)] ->
            let t := ymd2ord y m d in
            Sql.count (fun w => match get_week_date_range w with
                                | Some (s, e) => (s <=? t) && (t <=? e)
                                | None => false
                                end) (get_all_available_weeks [(2024, 12, 30); (2025, 1, 5)])
            = if t - weekday t + 6 <=? MAXORD then 1%nat else 0%nat)).
Proof.
  assert (F : Forall (fun '(y, m, d) => valid_ymd y m d) [(2024, 12, 30); (2025, 1, 5)])
    by (constructor; [exact WeekProofs.valid_2024_12_30|];
        constructor; [exact WeekExtras.valid_2025_1_5|]; constructor).
  split; [exact F|]. apply (all_available_weeks_cover [(2024, 12, 30); (2025, 1, 5)]). exact F.
Defined.

End AllWeeksProofs.

Module DailyFacts.
Import Sql DailyTPY.








End DailyFacts.

Module StarterProofs.
Import Sql DailyTPY DailyFacts.

Lemma add_days_some o k x : Cal.add_days o k = Some x -> x = o + k.
Proof.
  unfold Cal.add_days. destruct (_ && _); intro H; [injection H as <-; reflexivity|discriminate].
Qed.






End StarterProofs.

Module CountFacts.

Lemma list_sum_plus {A} (f g : A -> nat) l :
  list_sum (map (fun x => f x + g x)%nat l) = (list_sum (map f l) + list_sum (map g l))%nat.
Proof. induction l as [|a l IH]; simpl; [reflexivity|]. rewrite IH. lia. Qed.

Lemma count_as_sum {A} (p : A -> bool) l :
  Sql.count p l = list_sum (map (fun m => if p m then 1 else 0)%nat l).
Proof.
  unfold Sql.count. induction l as [|a l IH]; simpl; [reflexivity|].
  destruct (p a); simpl; rewrite IH; reflexivity.
Qed.

Lemma list_sum_swap {A B} (p : A -> B -> bool) (D : list A) (l : list B) :
  list_sum (map (fun m => Sql.count (p m) l) D)
  = list_sum (map (fun x => Sql.count (fun m => p m x) D) l).
Proof.
  induction l as [|x l IH]; simpl.
  - induction D; simpl; auto.
  - rewrite <- IH, count_as_sum, <- list_sum_plus. f_equal. apply map_ext. intros m.
    unfold Sql.count. simpl. destruct (p m x); reflexivity.
Qed.

Lemma list_sum_const1 {A} (f : A -> nat) l :
  (forall x, In x l -> f x = 1%nat) -> list_sum (map f l) = List.length l.
Proof.
  induction l as [|a l IH]; intros H; simpl; [reflexivity|].
  rewrite (H a (or_introl eq_refl)), IH; [reflexivity|]. intros x Hx. apply H. right. exact Hx.
Qed.

Section Partition.
Context {K : Type} (eqb : K -> K -> bool) (eqb_eq : forall x y, eqb x y = true <-> x = y).

(** Grouping by [f]: the group sizes add up to the length of the list. *)
Lemma group_sizes {A} (f : A -> K) (l : list A) :
  list_sum (map (fun m => Sql.count (fun x => eqb (f x) m) l) (Sql.distinct eqb (map f l)))
  = List.length l.
Proof.
  rewrite (list_sum_swap (fun m x => eqb (f x) m)).
  apply list_sum_const1. intros x Hx.
  apply (DistinctFacts.count_unique _ (f x)).
  - apply (DistinctFacts.NoDup_distinct _ eqb_eq).
  - apply (SqlFacts.In_distinct _ eqb_eq). apply in_map. exact Hx.
  - intros w _. rewrite eqb_eq. split; intros; congruence.
Qed.

End Partition.

Lemma count_le {A} (p : A -> bool) l : (Sql.count p l <= List.length l)%nat.
Proof. unfold Sql.count. apply filter_length_le. Qed.

Lemma count_pos_ex {A} (p : A -> bool) l :
  (0 < Sql.count p l)%nat -> exists x, In x l /\ p x = true.
Proof.
  unfold Sql.count. destruct (filter p l) as [|x r] eqn:E; simpl; [lia|].
  intros _. exists x. apply filter_In. rewrite E. left. reflexivity.
Qed.

Lemma filter_filter_imp {A} (p q : A -> bool) l :
  (forall x, p x = true -> q x = true) -> filter p (filter q l) = filter p l.
Proof.
  intros H. induction l as [|a l IH]; simpl; [reflexivity|].
  destruct (q a) eqn:Q; simpl.
  - destruct (p a); [f_equal|]; exact IH.
  - destruct (p a) eqn:P; [rewrite (H a P) in Q; discriminate|exact IH].
Qed.

End CountFacts.

Module CompletionProofs.
Import Sql DailyTPY.

Lemma fold_add_completions groups acc :
  let res := fold_left add_completions groups acc in
  completedToday res = (completedToday acc + list_sum (map (fun '(_, c, _) => c) groups))%nat
  /\ firstPassToday res = (firstPassToday acc + list_sum (map (fun '(_, _, f) => f) groups))%nat.
Proof.
  revert acc; induction groups as [|[[m c] f] groups IH]; intros acc; simpl.
  - split; lia.
  - destruct (IH (add_completions acc (m, c, f))) as [A B]. simpl in A, B.
    rewrite A, B. split; lia.
Qed.

Lemma completion_groups_completed parts :
  list_sum (map (fun '(_, c, _) => c) (completion_groups parts))
  = List.length (filter (fun p => (0 <? FPY.reached_packing p)%nat) parts).
Proof.
  unfold completion_groups. rewrite map_map.
  apply (CountFacts.group_sizes _ TPYProofs.okey_eqb_eq (fun p => snd (FPY.p_key p))).
Qed.

Lemma completion_groups_first_le parts :
  (list_sum (map (fun '(_, _, f) => f) (completion_groups parts))
   <= list_sum (map (fun '(_, c, _) => c) (completion_groups parts)))%nat.
Proof.
  unfold completion_groups. rewrite !map_map.
  induction (distinct _ _) as [|m ms IH]; simpl; [lia|].
  pose proof (CountFacts.count_le
                (fun p => (0 <? FPY.reached_packing p)%nat && (FPY.failure_count p =? 0)%nat)
                (filter (fun p => TPY.okey_eqb (snd (FPY.p_key p)) m)
                        (filter (fun p => (0 <? FPY.reached_packing p)%nat) parts))).
  lia.
Qed.

(** The groups that reached PACKING are the distinct keys of the
    PACKING rows. *)
Lemma reached_keys (rows : list ws_row) :
  List.length
    (filter (fun p => (0 <? FPY.reached_packing p)%nat)
       (map (fun k =>
               let g := filter (fun r => FPY.key_eqb (FPY.key_of r) k) rows in
               FPY.mkPart k (count (fun r => eq_lit (workstation_name r) "PACKING") g)
                            (count (fun r => neq_lit (history_station_passing_status r) "Pass") g))
            (distinct FPY.key_eqb (map FPY.key_of rows))))
  = List.length (distinct FPY.key_eqb
                  (map FPY.key_of (filter (fun r => eq_lit (workstation_name r) "PACKING") rows))).
Proof.
  rewrite filter_map_swap, length_map. cbn beta.
  apply Permutation_length, NoDup_Permutation.
  - apply NoDup_filter, (DistinctFacts.NoDup_distinct _ KeyFacts.fpy_key_eqb_eq).
  - apply (DistinctFacts.NoDup_distinct _ KeyFacts.fpy_key_eqb_eq).
  - intros k. rewrite filter_In, !(SqlFacts.In_distinct _ KeyFacts.fpy_key_eqb_eq).
    cbn [FPY.reached_packing]. rewrite Nat.ltb_lt. split.
    + intros [_ Hc]. apply CountFacts.count_pos_ex in Hc as [r [Hr Hp]].
      apply filter_In in Hr as [Hr Hk]. apply KeyFacts.fpy_key_eqb_eq in Hk.
      apply in_map_iff. exists r. split; [exact Hk|]. apply filter_In. auto.
    + intros Hk. apply in_map_iff in Hk as [r [Hk Hr]]. apply filter_In in Hr as [Hr Hp].
      split; [apply in_map_iff; exists r; auto|].
      apply (SqlFacts.count_pos _ r); [|exact Hp].
      apply filter_In. split; [exact Hr|]. apply KeyFacts.fpy_key_eqb_eq. exact Hk.
Qed.

(** X6: the day's completions of the week's starters. *)
Theorem daily_completions_packing_keys target starters log c :
  calculate_daily_completions_from_week_starters target starters log = Some c ->
  (firstPassToday c <= completedToday c)%nat
  /\ completedToday c
     = List.length (distinct FPY.key_eqb (map FPY.key_of
         (filter (fun r => eq_lit (workstation_name r) "PACKING")
            (filter (fun r => sn_any starters r && ends_between target (target + 1) r
                              && flow_ok r) log))))
  /\ dailyFPY c = (firstPassToday c, completedToday c)
  /\ calculate_daily_completions_from_week_starters target starters
       (filter (ends_between target (target + 1)) log) = Some c.
Proof.
  unfold calculate_daily_completions_from_week_starters.
  destruct (Cal.add_days target 1) as [e|] eqn:Ed; [|discriminate].
  apply StarterProofs.add_days_some in Ed. subst e.
  assert (Hframe : completion_check target (target + 1) starters
                     (filter (ends_between target (target + 1)) log)
                   = completion_check target (target + 1) starters log).
  { unfold completion_check. rewrite CountFacts.filter_filter_imp; [reflexivity|].
    intros r Hr. apply andb_true_iff in Hr as [Hr _]. apply andb_true_iff in Hr as [_ Hr].
    exact Hr. }
  rewrite Hframe.
  destruct starters as [|s0 ss].
  - intros H. injection H as <-. simpl. split; [lia|]. split; [|split; reflexivity].
    rewrite filter_false. reflexivity.
  - intros H. injection H as <-. cbn [completedToday firstPassToday dailyFPY].
    destruct (fold_add_completions
                (completion_groups (completion_check target (target + 1) (s0 :: ss) log))
                (mkComp 0 0 (0%nat, 0%nat) [])) as [A B].
    cbv zeta in A, B. rewrite A, B. cbn [completedToday firstPassToday].
    split; [apply completion_groups_first_le|].
    split; [|split; reflexivity].
    rewrite completion_groups_completed. unfold completion_check.
    apply reached_keys.
Qed.

Lemma daily_completions_packing_keys_witness :
  exists c,
  calculate_daily_completions_from_week_starters (Samples.week_start + 3)
    [Some "S1"; Some "S7"; Some "S9"]%string Samples.fpy_week_log = Some c
  /\ ((firstPassToday c <= completedToday c)%nat
  /\ completedToday c
     = List.length (distinct FPY.key_eqb (map FPY.key_of
         (filter (fun r => eq_lit (workstation_name r) "PACKING")
            (filter (fun r => sn_any [Some "S1"; Some "S7"; Some "S9"]%string r
                              && ends_between (Samples.week_start + 3) (Samples.week_start + 3 + 1) r
                              && flow_ok r) Samples.fpy_week_log))))
  /\ dailyFPY c = (firstPassToday c, completedToday c)
  /\ calculate_daily_completions_from_week_starters (Samples.week_start + 3)
       [Some "S1"; Some "S7"; Some "S9"]%string
       (filter (ends_between (Samples.week_start + 3) (Samples.week_start + 3 + 1))
          Samples.fpy_week_log) = Some c).
Proof.
  eexists. split; [vm_compute; reflexivity|].
  apply daily_completions_packing_keys.
  vm_compute; reflexivity.
Defined.

End CompletionProofs.

Module StationCountFacts.

Lemma count_add {A} (p q : A -> bool) l :
  (Sql.count p l + Sql.count q l)%nat
  = list_sum (map (fun x => (if p x then 1 else 0) + (if q x then 1 else 0))%nat l).
Proof. rewrite !CountFacts.count_as_sum, CountFacts.list_sum_plus. reflexivity. Qed.

Lemma count_full {A} (p : A -> bool) l :
  Sql.count p l = List.length l <-> forall x, In x l -> p x = true.
Proof.
  unfold Sql.count. induction l as [|a l IH]; [simpl; split; [intros _ x []|reflexivity]|].
  cbn [filter]. destruct (p a) eqn:Pa; cbn [List.length].
  - split.
    + intros H x [<-|Hx]; [exact Pa|]. apply IH; [lia|exact Hx].
    + intros H. f_equal. apply IH. intros x Hx. apply H. right. exact Hx.
  - split.
    + intros H. pose proof (filter_length_le p l). lia.
    + intros H. rewrite (H a (or_introl eq_refl)) in Pa. discriminate.
Qed.

(** [status = 'Pass'] and [status != 'Pass'] are exclusive, and one of
    them holds exactly on a non-NULL status. *)
Lemma pass_fail_count (g : list ws_row) :
  (Sql.count (fun r => Sql.eq_lit (history_station_passing_status r) "Pass") g
   + Sql.count (fun r => Sql.neq_lit (history_station_passing_status r) "Pass") g)%nat
  = Sql.count (fun r => match history_station_passing_status r with
                        | Some _ => true | None => false end) g.
Proof.
  rewrite count_add, CountFacts.count_as_sum. f_equal. apply map_ext. intros r.
  unfold Sql.eq_lit, Sql.neq_lit.
  destruct (history_station_passing_status r) as [v|]; [|reflexivity].
  destruct (String.eqb v "Pass"); reflexivity.
Qed.

End StationCountFacts.

Module DailyStationProofs.
Import Sql DailyTPY TPY.

(** X7: the daily per-station rows. *)
Theorem daily_station_rows s e log :
  NoDup (map sr_key (daily_station_query s e log))
  /\ (forall r, In r log -> daily_in_scope s e r = true ->
        exists x, In x (daily_station_query s e log) /\ sr_key x = skey_of r)
  /\ forall x, In x (daily_station_query s e log) ->
       (1 <= sr_total x)%nat
       /\ (sr_passed x + sr_failed x <= sr_total x)%nat
       /\ ((sr_passed x + sr_failed x)%nat = sr_total x <->
           forall r, In r log -> daily_in_scope s e r = true -> skey_of r = sr_key x ->
                     history_station_passing_status r <> None)
       /\ (fst (sr_key x) = Some "Tesla SXM4"%string
           \/ fst (sr_key x) = Some "Tesla SXM5"%string).
Proof.
  unfold daily_station_query.
  set (rows := filter (daily_in_scope s e) log).
  split; [|split].
  - rewrite map_map. cbn [sr_key]. rewrite map_id.
    apply (DistinctFacts.NoDup_distinct _ KeyFacts.tpy_skey_eqb_eq).
  - intros r Hr Hs. eexists. split.
    + apply in_map_iff. exists (skey_of r). split; [reflexivity|].
      apply (SqlFacts.In_distinct _ KeyFacts.tpy_skey_eqb_eq). apply in_map.
      apply filter_In. auto.
    + reflexivity.
  - intros x Hx. apply in_map_iff in Hx as [k [<- Hk]].
    rewrite (SqlFacts.In_distinct _ KeyFacts.tpy_skey_eqb_eq) in Hk.
    apply in_map_iff in Hk as [r0 [Ek Hr0]].
    cbn [sr_total sr_passed sr_failed sr_key].
    set (g := filter (fun r => skey_eqb (skey_of r) k) rows).
    assert (Hg : forall r, In r g <-> In r log /\ daily_in_scope s e r = true /\ skey_of r = k).
    { intros r. unfold g, rows. rewrite !filter_In, KeyFacts.tpy_skey_eqb_eq. tauto. }
    rewrite StationCountFacts.pass_fail_count.
    split; [|split; [|split]].
    + destruct g as [|r1 g'] eqn:Eg; [|cbn [List.length]; lia].
      exfalso. apply (proj2 (Hg r0)). unfold rows in Hr0. apply filter_In in Hr0. tauto.
    + apply filter_length_le.
    + rewrite StationCountFacts.count_full. split.
      * intros H r Hr Hs Ek'. specialize (H r (proj2 (Hg r) (conj Hr (conj Hs Ek')))).
        destruct (history_station_passing_status r); [discriminate|discriminate].
      * intros H r Hr. apply Hg in Hr as (Hr & Hs & Ek').
        specialize (H r Hr Hs Ek').
        destruct (history_station_passing_status r); [reflexivity|contradiction].
    + apply filter_In in Hr0 as [_ Hs]. subst k. unfold skey_of. cbn [fst].
      unfold daily_in_scope in Hs. apply andb_true_iff in Hs as [_ Hm].
      cbn [existsb] in Hm. unfold eq_lit in Hm.
      destruct (model r0) as [v|]; [|discriminate].
      rewrite orb_false_r in Hm. apply orb_true_iff in Hm as [Hm|Hm];
        apply String.eqb_eq in Hm; subst v; [left|right]; reflexivity.
Qed.

End DailyStationProofs.

Module ZSortFacts.

Lemma insert_sorted_le x l :
  StronglySorted Z.le l -> StronglySorted Z.le (PySort.insert_sorted Z.ltb x l).
Proof.
  induction 1 as [|y l Hs IH Hall]; simpl.
  - constructor; constructor.
  - destruct (Z.ltb_spec y x).
    + constructor; [exact IH|].
      apply Forall_forall. intros z Hz.
      apply (Permutation_in _ (SortFacts.insert_sorted_perm _ _ _)) in Hz.
      destruct Hz as [<-|Hz]; [lia|]. rewrite Forall_forall in Hall. auto.
    + constructor; [constructor; assumption|].
      constructor; [lia|]. rewrite Forall_forall in Hall |- *. intros z Hz.
      specialize (Hall z Hz). lia.
Qed.

Lemma sorted_le l : StronglySorted Z.le (PySort.sorted Z.ltb l).
Proof.
  induction l as [|x l IH]; simpl; [constructor|]. apply insert_sorted_le, IH.
Qed.

Lemma le_nodup_lt l : StronglySorted Z.le l -> NoDup l -> StronglySorted Z.lt l.
Proof.
  induction 1 as [|y l Hs IH Hall]; intros Hn; constructor.
  - apply IH. inversion Hn; assumption.
  - inversion Hn as [|? ? Hy Hn']; subst.
    rewrite Forall_forall in Hall |- *. intros z Hz.
    specialize (Hall z Hz). assert (y <> z) by (intros <-; contradiction). lia.
Qed.

(** Sorting a list without duplicates gives a strictly increasing list
    of the same elements. *)
Lemma sorted_distinct_lt l :
  StronglySorted Z.lt (PySort.sorted Z.ltb (Sql.distinct Z.eqb l))
  /\ forall d, In d (PySort.sorted Z.ltb (Sql.distinct Z.eqb l)) <-> In d l.
Proof.
  split.
  - apply le_nodup_lt; [apply sorted_le|].
    apply (Permutation_NoDup (Permutation_sym (SortFacts.sorted_perm _ _))).
    apply (DistinctFacts.NoDup_distinct _ Z.eqb_eq).
  - intros d. split; intros H.
    + apply (Permutation_in _ (SortFacts.sorted_perm _ _)) in H.
      rewrite (SqlFacts.In_distinct _ Z.eqb_eq) in H. exact H.
    + apply (Permutation_in _ (Permutation_sym (SortFacts.sorted_perm _ _))).
      rewrite (SqlFacts.In_distinct _ Z.eqb_eq). exact H.
Qed.

End ZSortFacts.

Module AllDatesProofs.
Import Sql DailyTPY.

Lemma count_perm {A} (p : A -> bool) l l' : Permutation l l' -> count p l = count p l'.
Proof.
  unfold count. induction 1; simpl.
  - reflexivity.
  - destruct (p x); simpl; congruence.
  - destruct (p x), (p y); reflexivity.
  - congruence.
Qed.

Lemma fold_counters {A} (fails : A -> bool) (ds : list A) a b :
  fold_left (fun '(s, e) d => if fails d then (s, S e) else (S s, e)) ds (a, b)
  = ((a + count (fun d => negb (fails d)) ds)%nat, (b + count fails ds)%nat).
Proof.
  unfold count. revert a b; induction ds as [|d ds IH]; intros a b; simpl.
  - f_equal; lia.
  - destruct (fails d); simpl; rewrite IH; f_equal; lia.
Qed.

(** X8: the dates found. *)
Theorem available_dates_sorted log :
  (get_all_available_dates log = None <->
   forall r t, In r log -> history_station_end_time r = Some t -> flow_ok r = false)
  /\ forall ds, get_all_available_dates log = Some ds ->
       StronglySorted Z.lt ds
       /\ forall d, In d ds <-> exists r t, In r log /\ history_station_end_time r = Some t
                                           /\ flow_ok r = true /\ ts_date t = d.
Proof.
  unfold get_all_available_dates.
  set (date_of := fun r => match history_station_end_time r with
                           | Some t => ts_date t | None => 0 end).
  set (rows := filter _ log).
  destruct (ZSortFacts.sorted_distinct_lt (map date_of rows)) as [Hs Hin].
  assert (Hd : forall d, In d (map date_of rows) <->
             exists r t, In r log /\ history_station_end_time r = Some t
                         /\ flow_ok r = true /\ ts_date t = d).
  { intros d. unfold rows. rewrite in_map_iff. split.
    - intros [r [Ed Hr]]. apply filter_In in Hr as [Hr Hf].
      unfold date_of in Ed. destruct (history_station_end_time r) as [t|] eqn:Et; [|discriminate].
      exists r, t. auto.
    - intros (r & t & Hr & Et & Hf & Ed). exists r. unfold date_of. rewrite Et.
      split; [exact Ed|]. apply filter_In. rewrite Et, Hf. auto. }
  destruct (PySort.sorted Z.ltb (distinct Z.eqb (map date_of rows))) as [|d0 ds0] eqn:E.
  - split; [split; [intros _|reflexivity]|intros ds H; discriminate].
    intros r t Hr Et. destruct (flow_ok r) eqn:Hf; [|reflexivity].
    exfalso. assert (Hr' : In (date_of r) (map date_of rows)) by (apply Hd; exists r, t; unfold date_of; rewrite Et; auto).
    apply Hin in Hr'. destruct Hr'.
  - split; [split; [discriminate|]|].
    + intros H. exfalso.
      destruct (proj1 (Hd d0) (proj1 (Hin d0) (or_introl eq_refl))) as (r & t & Hr & Et & Hf & _).
      rewrite (H r t Hr Et) in Hf. discriminate.
    + intros ds H. injection H as <-. split; [exact Hs|].
      intros d. rewrite Hin. apply Hd.
Qed.

(** X9: how the all-time loop ends. *)
Theorem all_time_daily_counts (fails : Z -> bool) log :
  aggregate_daily_tpy_metrics_all_time fails log <> NoDates
  /\ forall s e, aggregate_daily_tpy_metrics_all_time fails log = Processed s e ->
       let D := distinct Z.eqb
                  (map (fun r => match history_station_end_time r with
                                 | Some t => ts_date t | None => 0 end)
                       (filter (fun r => match history_station_end_time r with
                                         | Some _ => true | None => false end && flow_ok r) log)) in
       (s + e)%nat = List.length D /\ e = count fails D.
Proof.
  unfold aggregate_daily_tpy_metrics_all_time, get_all_available_dates.
  set (D := distinct Z.eqb _).
  pose proof (SortFacts.sorted_perm Z.ltb D) as P.
  destruct (PySort.sorted Z.ltb D) as [|d0 ds0] eqn:E; [split; [discriminate|intros s e H; discriminate]|].
  cbv zeta. rewrite fold_counters. split; [discriminate|].
  intros s e H. injection H as <- <-. cbn [Nat.add].
  rewrite <- (count_perm _ _ _ P), <- (Permutation_length P).
  split; [|reflexivity].
  clear. unfold count. induction (d0 :: ds0) as [|d l IH]; simpl; [reflexivity|].
  destruct (fails d); simpl; lia.
Qed.

End AllDatesProofs.

Module YieldsDictFacts.
Import Sql TPY TPYProofs.

Lemma dict_get_In {V} k (d : dict (option string) V) :
  In k (map fst d) <-> dict_get okey_eqb k d <> None.
Proof.
  induction d as [|[k0 v0] d IH]; simpl; [tauto|].
  destruct (okey_eqb k k0) eqn:E.
  - apply okey_eqb_eq in E. subst. split; [discriminate|auto].
  - rewrite <- IH. split; [intros [->|H]; [|exact H]|auto].
    rewrite (proj2 (okey_eqb_eq k k) eq_refl) in E. discriminate.
Qed.

Lemma dict_set_keys {V} k (v : V) d :
  NoDup (map fst d) -> NoDup (map fst (dict_set okey_eqb k v d))
  /\ (forall k', In k' (map fst (dict_set okey_eqb k v d)) <-> k' = k \/ In k' (map fst d)).
Proof.
  induction d as [|[k0 v0] d IH]; simpl; intros Hn.
  - split; [constructor; [intros []|constructor]|]. intros k'. intuition congruence.
  - inversion Hn as [|? ? Hk0 Hd]; subst.
    destruct (okey_eqb k k0) eqn:E; simpl.
    + apply okey_eqb_eq in E. subst. split; [exact Hn|]. intros k'. intuition congruence.
    + destruct (IH Hd) as [H1 H2]. split.
      * constructor; [|exact H1]. rewrite H2. intros [->|H]; [|contradiction].
        rewrite (proj2 (okey_eqb_eq k k) eq_refl) in E. discriminate.
      * intros k'. rewrite H2. intuition congruence.
Qed.

Lemma dict_set_nonempty {V} k (v : V) d : dict_set okey_eqb k v d <> [].
Proof. destruct d as [|[k0 v0] d]; simpl; [discriminate|]. destruct (okey_eqb k k0); discriminate. Qed.

Section Floats.
Variable R : Type.
Variable yield_of : nat -> nat -> R.

Lemma add_row_get d s m :
  dict_get okey_eqb m (add_row R yield_of d s)
  = if okey_eqb m (fst (sr_key s))
    then Some (dict_set okey_eqb (snd (sr_key s))
                 (mkSD R (sr_total s) (sr_passed s) (sr_failed s)
                       (yield_of (sr_passed s) (sr_total s)))
                 (match dict_get okey_eqb m d with Some i => i | None => [] end))
    else dict_get okey_eqb m d.
Proof.
  unfold add_row; destruct (sr_key s) as [m0 st0]; simpl.
  rewrite dict_get_set.
  destruct (okey_eqb m m0) eqn:Em.
  - apply okey_eqb_eq in Em; subst m0.
    destruct (dict_get okey_eqb m d) as [i|] eqn:Ed; [rewrite Ed; reflexivity|].
    rewrite dict_get_set, (proj2 (okey_eqb_eq m m) eq_refl). reflexivity.
  - destruct (dict_get okey_eqb m0 d) eqn:Ed; [reflexivity|].
    rewrite dict_get_set, Em; reflexivity.
Qed.

(** Every inner dict has distinct station keys and at least one. *)
Local Abbreviation inner_ok d :=
  (forall m (i : dict (option string) (station_data R)),
     dict_get okey_eqb m d = Some i -> NoDup (map fst i) /\ i <> []).

Lemma fold_add_row_inner ss d :
  inner_ok d -> inner_ok (fold_left (add_row R yield_of) ss d)
  /\ forall m, dict_get okey_eqb m (fold_left (add_row R yield_of) ss d) = None
               <-> dict_get okey_eqb m d = None /\ forall s, In s ss -> fst (sr_key s) <> m.
Proof.
  revert d; induction ss as [|s ss IH]; intros d Hd; simpl.
  - split; [exact Hd|]. intros m. split; [intros H; split; [exact H|intros _ []]|tauto].
  - assert (Hd' : inner_ok (add_row R yield_of d s)).
    { intros m i. rewrite add_row_get. destruct (okey_eqb m (fst (sr_key s))).
      - intros H. injection H as <-. split; [|apply dict_set_nonempty].
        apply dict_set_keys.
        destruct (dict_get okey_eqb m d) as [i|] eqn:E; [apply (Hd m i E)|constructor].
      - apply Hd. }
    destruct (IH _ Hd') as [H1 H2]. split; [exact H1|].
    intros m. rewrite H2, add_row_get.
    destruct (okey_eqb m (fst (sr_key s))) eqn:E.
    + apply okey_eqb_eq in E. split; [intros [H _]; discriminate|].
      intros [_ H]. exfalso. apply (H s (or_introl eq_refl)). symmetry. exact E.
    + split.
      * intros [Hn Hs]. split; [exact Hn|]. intros s' [<-|Hs'] Hm; [|exact (Hs s' Hs' Hm)].
        rewrite Hm, (proj2 (okey_eqb_eq m m) eq_refl) in E. discriminate.
      * intros [Hn Hs]. split; [exact Hn|]. intros s' Hs'. apply Hs. right. exact Hs'.
Qed.

End Floats.
End YieldsDictFacts.

Module DynamicTPYProofs.
Import Sql TPY TPYProofs DynTPY.

Section Floats.
Variable R : Type.
Variable one : R.
Variable mul : R -> R -> R.
Variable div100 : R -> R.
Variable times100 : R -> R.
Variable round2 : R -> R.
Variable yield_of : nat -> nat -> R.

Lemma dynamic_lookup my short full :
  In (short, full) model_mappings ->
  exists e, dict_get String.eqb short (calculate_dynamic_tpy R one mul div100 times100 round2 my)
            = Some e
  /\ match dict_get okey_eqb (Some full) my with
     | Some i => stations R e = map (fun '(station, data) => (station, throughputYield R data)) i
                 /\ stationCount R e = List.length i
                 /\ (tpy R e = None <-> i = [])
     | None => e = mkDyn R [] None 0
     end.
Proof.
  unfold calculate_dynamic_tpy, model_mappings.
  intros H. cbn -[dict_get] in H.
  destruct H as [H|[H|[H|[]]]]; injection H as <- <-; cbn [fold_left dynamic_tpy_init map];
  unfold dynamic_step at 3; unfold dynamic_step at 2; unfold dynamic_step at 1;
  destruct (dict_get okey_eqb (Some "Tesla SXM4"%string) my) as [i4|];
  destruct (dict_get okey_eqb (Some "Tesla SXM5"%string) my) as [i5|];
  destruct (dict_get okey_eqb (Some "SXM6"%string) my) as [i6|];
  cbn; eexists; (split; [reflexivity|]); cbn;
  repeat split; try reflexivity;
  match goal with
  | |- match ?i with [] => None | _ :: _ => Some _ end = None -> ?i = [] =>
      destruct i; [reflexivity|discriminate]
  | |- ?i = [] -> match ?i with [] => None | _ :: _ => Some _ end = None =>
      intros ->; reflexivity
  end.
Qed.

Lemma dict_get_map_values {V W} (f : V -> W) k (i : dict (option string) V) :
  dict_get okey_eqb k (map (fun '(station, data) => (station, f data)) i)
  = option_map f (dict_get okey_eqb k i).
Proof.
  induction i as [|[k0 v0] i IH]; simpl; [reflexivity|].
  destruct (okey_eqb k k0); [reflexivity|exact IH].
Qed.

Lemma map_fst_values {V W} (f : V -> W) (i : dict (option string) V) :
  map fst (map (fun '(station, data) => (station, f data)) i) = map fst i.
Proof. induction i as [|[k0 v0] i IH]; simpl; [reflexivity|]. rewrite IH. reflexivity. Qed.

Lemma filter_station_group ws we (m st : option string) log :
  filter (fun r => skey_eqb (skey_of r) (m, st)) (filter (in_scope ws we) log)
  = filter (fun r => okey_eqb (workstation_name r) st)
      (filter (fun r => in_scope ws we r && okey_eqb (model r) m) log).
Proof.
  unfold skey_eqb, skey_of, okey_eqb; cbn [fst snd].
  induction log as [|r log IH]; simpl; [reflexivity|].
  destruct (in_scope ws we r) eqn:E1; simpl; [|exact IH].
  destruct (opt_eqb String.eqb (model r) m) eqn:E2; simpl; [|exact IH].
  destruct (opt_eqb String.eqb (workstation_name r) st) eqn:E3; simpl; rewrite IH; reflexivity.
Qed.

(** X10: the dynamic TPY entry of a family, computed from the log. *)
Theorem dynamic_tpy_from_log ws we log :
  Forall (fun '(short, full) =>
  let rows := filter (fun r => in_scope ws we r && okey_eqb (model r) (Some full)) log in
  exists e,
    dict_get String.eqb short
      (calculate_dynamic_tpy R one mul div100 times100 round2
         (calculate_model_specific_throughput_yields R yield_of ws we log)) = Some e
    /\ stationCount R e = List.length (distinct okey_eqb (map workstation_name rows))
    /\ NoDup (map fst (stations R e))
    /\ (forall st,
          let g := filter (fun r => okey_eqb (workstation_name r) st) rows in
          dict_get okey_eqb st (stations R e)
          = if (0 <? List.length g)%nat
            then Some (yield_of (count (fun r => eq_lit (history_station_passing_status r) "Pass") g)
                                (List.length g))
            else None)
    /\ (tpy R e = None <-> rows = [])) model_mappings.
Proof.
  apply Forall_forall. intros [short full] Hin rows.
  set (my := calculate_model_specific_throughput_yields R yield_of ws we log).
  assert (Hok : forall m i, dict_get okey_eqb m my = Some i -> NoDup (map fst i) /\ i <> []).
  { unfold my, calculate_model_specific_throughput_yields.
    apply YieldsDictFacts.fold_add_row_inner. intros m i H. discriminate. }
  assert (Hget : forall st,
            let g := filter (fun r => okey_eqb (workstation_name r) st) rows in
            match dict_get okey_eqb (Some full) my with
            | Some i => dict_get okey_eqb st i | None => None end
            = if (0 <? List.length g)%nat
              then Some (mkSD R (List.length g)
                     (count (fun r => eq_lit (history_station_passing_status r) "Pass") g)
                     (count (fun r => neq_lit (history_station_passing_status r) "Pass") g)
                     (yield_of (count (fun r => eq_lit (history_station_passing_status r) "Pass") g)
                               (List.length g)))
              else None).
  { intros st g. unfold my. rewrite yields_lookup. cbv zeta.
    rewrite filter_station_group. reflexivity. }
  destruct (dynamic_lookup my short full Hin) as [e [He Hm]].
  exists e. split; [exact He|].
  destruct (dict_get okey_eqb (Some full) my) as [i|] eqn:Ei.
  - destruct Hm as (Hs & Hc & Ht). destruct (Hok _ _ Ei) as [Hnd Hne].
    assert (Hkeys : forall st, In st (map fst i) <-> In st (map workstation_name rows)).
    { intros st. rewrite YieldsDictFacts.dict_get_In.
      specialize (Hget st). cbv zeta in Hget. rewrite Hget.
      rewrite in_map_iff.
      destruct (Nat.ltb_spec 0 (List.length (filter (fun r => okey_eqb (workstation_name r) st) rows)))
        as [Hl|Hl].
      - split; [intros _|intros _; discriminate].
        destruct (filter _ rows) as [|r l] eqn:Ef; [simpl in Hl; lia|].
        assert (Hr : In r (filter (fun r => okey_eqb (workstation_name r) st) rows))
          by (rewrite Ef; left; reflexivity).
        apply filter_In in Hr as [Hr Eq]. apply okey_eqb_eq in Eq. exists r. auto.
      - split; [intros H; exfalso; exact (H eq_refl)|].
        intros [r [Eq Hr]]. exfalso.
        assert (Hr' : In r (filter (fun r => okey_eqb (workstation_name r) st) rows))
          by (apply filter_In; split; [exact Hr|apply okey_eqb_eq; exact Eq]).
        destruct (filter _ rows); [destruct Hr'|simpl in Hl; lia]. }
    split; [|split; [|split]].
    + rewrite Hc, <- (length_map fst i).
      apply Permutation_length, NoDup_Permutation;
        [exact Hnd|apply (DistinctFacts.NoDup_distinct _ okey_eqb_eq)|].
      intros st. rewrite (SqlFacts.In_distinct _ okey_eqb_eq). apply Hkeys.
    + rewrite Hs, map_fst_values. exact Hnd.
    + intros st g. rewrite Hs, dict_get_map_values.
      specialize (Hget st). cbv zeta in Hget. fold g in Hget. rewrite Hget.
      destruct (0 <? List.length g)%nat; reflexivity.
    + rewrite Ht. split; [intros E; contradiction|].
      intros Er. exfalso. destruct i as [|[st d] i]; [apply Hne; reflexivity|].
      assert (H : In st (map workstation_name rows)) by (apply Hkeys; left; reflexivity).
      rewrite Er in H. destruct H.
  - assert (Hrows : rows = []).
    { destruct rows as [|r l] eqn:Er; [reflexivity|exfalso].
      specialize (Hget (workstation_name r)). cbv zeta in Hget. cbn [filter] in Hget.
      rewrite (proj2 (okey_eqb_eq _ _) eq_refl) in Hget. simpl in Hget. discriminate. }
    subst e. rewrite Hrows. cbn.
    split; [reflexivity|]. split; [constructor|]. split; [intros st; reflexivity|].
    split; reflexivity.
Qed.

End Floats.
End DynamicTPYProofs.

Module PackingWeeklyProofs.
Import Packing PackingWeekly.

(** X11: the all-time packing job leaves the committed table as it was. *)
Theorem weekly_dedup_main_keeps_table log table :
  main log table = Some (match table with Some t => t | None => [] end)
  /\ forall t, table = Some t -> main log table = Some t.
Proof.
  assert (H : main log table = Some (match table with Some t => t | None => [] end)).
  { unfold main, execute, commit, rollback, fetchall; cbn [pg_committed pg_working pg_result].
    destruct (aggregate_upsert _ log); reflexivity. }
  split; [exact H|]. intros t ->. exact H.
Qed.

End PackingWeeklyProofs.

Module SnfnRunProofs.
Import Snfn.

Lemma key_eqb_iff a b : key_eqb a b = true <-> a = b.
Proof.
  split; [apply UpsertKeyProofs.snfn_key_eqb_eq|intros <-].
  destruct a as [[[[[a1 a2] a3] a4] a5] a6].
  unfold key_eqb; rewrite !andb_true_iff, !KeyFacts.string_opt_eqb_eq,
    (SqlFacts.opt_eqb_eq _ SqlFacts.ts_eqb_eq).
  repeat split.
Qed.

Lemma set_clause_key e r : key e = key r -> key (set_clause e r) = key e.
Proof.
  destruct e, r; unfold key, set_clause; cbn. intros H. injection H as -> -> -> -> -> ->.
  reflexivity.
Qed.

Lemma set_clause_not_null e r :
  not_null_ok e = true -> not_null_ok r = true -> not_null_ok (set_clause e r) = true.
Proof.
  destruct e as [f w s p m ec ed t], r as [f' w' s' p' m' ec' ed' t'].
  unfold not_null_ok, set_clause; cbn. intros He Hr.
  destruct f, w, s, m, ec, t; try discriminate.
  destruct ec'; [reflexivity|].
  destruct f', w', s', m', t'; discriminate.
Qed.

(** What the working table keeps along the loop. *)
Local Abbreviation table_ok seen t :=
  (NoDup (map key t) /\ Forall (fun e => not_null_ok e = true) t
   /\ forall e, In e t -> exists r, In r seen /\ key r = key e).

Lemma execute_ok seen t r t' :
  table_ok seen t -> execute_insert t r = Some t' -> table_ok (r :: seen) t'.
Proof.
  intros (Hn & Hf & Hs). unfold execute_insert.
  destruct (not_null_ok r) eqn:Hr; [|discriminate]. intros H. injection H as <-.
  unfold Upsert.upsert_one.
  destruct (existsb (fun e => key_eqb (key e) (key r)) t) eqn:Ex.
  - assert (Hk : map key (map (fun e => if key_eqb (key e) (key r) then set_clause e r else e) t)
                 = map key t).
    { rewrite map_map. apply map_ext. intros e.
      destruct (key_eqb (key e) (key r)) eqn:E; [|reflexivity].
      apply set_clause_key. apply key_eqb_iff. exact E. }
    split; [rewrite Hk; exact Hn|]. split.
    + rewrite Forall_forall in Hf |- *. intros x Hx. apply in_map_iff in Hx as [e [<- He]].
      destruct (key_eqb (key e) (key r)); [apply set_clause_not_null; auto|auto].
    + intros x Hx. apply in_map_iff in Hx as [e [<- He]].
      destruct (Hs e He) as [r0 [Hr0 Ek]]. exists r0. split; [right; exact Hr0|].
      destruct (key_eqb (key e) (key r)) eqn:E; [|exact Ek].
      rewrite set_clause_key; [exact Ek|]. apply key_eqb_iff. exact E.
  - split; [|split].
    + rewrite map_app. apply NoDup_app; [exact Hn|constructor; [intros []|constructor]|].
      intros k Hk [<-|[]]. apply in_map_iff in Hk as [e [Ek He]].
      assert (Ht : existsb (fun e => key_eqb (key e) (key r)) t = true).
      { apply existsb_exists. exists e. split; [exact He|]. apply key_eqb_iff. exact Ek. }
      rewrite Ht in Ex. discriminate.
    + apply Forall_app. split; [exact Hf|]. constructor; [exact Hr|constructor].
    + intros x Hx. apply in_app_or in Hx as [Hx|[<-|[]]].
      * destruct (Hs x Hx) as [r0 [Hr0 Ek]]. exists r0. split; [right; exact Hr0|exact Ek].
      * eexists. split; [left; reflexivity|reflexivity].
Qed.

Lemma loop_ok rows c seen :
  committed c = [] -> table_ok seen (working c) ->
  let c' := fold_left loop_step rows c in
  committed c' = []
  /\ table_ok (rev rows ++ seen) (working c')
  /\ (success_count c' + error_count c' = List.length rows + success_count c + error_count c)%nat.
Proof.
  revert c seen; induction rows as [|r rows IH]; intros c seen Hc Hok; simpl.
  - split; [exact Hc|]. split; [exact Hok|lia].
  - assert (Hstep : loop_step c r
                    = match execute_insert (working c) r with
                      | Some w => mkConn (committed c) w (S (success_count c)) (error_count c)
                      | None => mkConn (committed c) (committed c) (success_count c)
                                       (S (error_count c))
                      end) by reflexivity.
    rewrite Hstep.
    destruct (execute_insert (working c) r) as [w|] eqn:E.
    + destruct (IH (mkConn (committed c) w (S (success_count c)) (error_count c)) (r :: seen))
        as (A & B & C); [exact Hc|apply (execute_ok _ _ _ _ Hok E)|].
      split; [exact A|]. split; [|cbn in C; lia].
      rewrite <- app_assoc. exact B.
    + destruct (IH (mkConn (committed c) (committed c) (success_count c) (S (error_count c)))
                  (r :: seen)) as (A & B & C); [exact Hc| |].
      * cbn. rewrite Hc. split; [constructor|]. split; [constructor|intros e []].
      * split; [exact A|]. split; [|cbn in C; lia].
        rewrite <- app_assoc. exact B.
Qed.

(** X12: the committed snfn table after a run. *)
Theorem snfn_run_table rows :
  let c := main_after_truncate rows in
  (success_count c + error_count c)%nat = List.length rows
  /\ NoDup (map key (committed c))
  /\ Forall (fun e => not_null_ok e = true) (committed c)
  /\ (forall e, In e (committed c) -> exists r, In r rows /\ key r = key e).
Proof.
  unfold main_after_truncate.
  destruct rows as [|r0 rs] eqn:Er.
  - cbn. split; [reflexivity|]. split; [constructor|]. split; [constructor|intros e []].
  - rewrite <- Er.
    destruct (loop_ok rows (mkConn [] [] 0 0) [] eq_refl) as (_ & (Hn & Hf & Hs) & Hc).
    + split; [constructor|]. split; [constructor|intros e []].
    + cbn [commit committed success_count error_count].
      split; [cbn in Hc; lia|]. split; [exact Hn|]. split; [exact Hf|].
      intros e He. destruct (Hs e He) as [r [Hr Ek]]. exists r. split; [|exact Ek].
      rewrite app_nil_r in Hr. apply in_rev. exact Hr.
Qed.

End SnfnRunProofs.

Module OrchestratorRunProofs.
Import Orchestrator.

Section Env.
Variable exit_code : nat -> Z.
Variable bk_raises : nat -> bool.
Hypothesis exit_ok : forall i, exit_code i = 0.
Hypothesis bk_ok : forall i, bk_raises i = false.

Lemma bookkeeping_ok st :
  bookkeeping bk_raises st = (Some tt, mkO (trace st) (jobs st) (S (bks st))).
Proof. unfold bookkeeping. rewrite bk_ok. reflexivity. Qed.

Lemma run_group_ok category scripts st :
  run_group exit_code bk_raises category scripts st
  = (Some true, mkO (trace st ++ map (Run category) scripts)
                    (jobs st + List.length scripts)%nat (bks st)).
Proof.
  revert st; induction scripts as [|s rest IH]; intros st; simpl.
  - rewrite app_nil_r, Nat.add_0_r. destruct st; reflexivity.
  - rewrite exit_ok. simpl. rewrite IH. simpl. rewrite <- app_assoc.
    f_equal. f_equal. lia.
Qed.

Lemma run_cycle_ok st :
  run_cycle exit_code bk_raises st
  = (Some true, mkO (trace st ++ cycle_jobs) (jobs st + 9)%nat (bks st + 4)%nat).
Proof.
  unfold run_cycle. rewrite !bookkeeping_ok. cbn [trace jobs bks].
  rewrite run_group_ok, bookkeeping_ok. cbn [trace jobs bks].
  rewrite run_group_ok, bookkeeping_ok. cbn [trace jobs bks].
  unfold cycle_jobs. rewrite <- app_assoc. f_equal. f_equal; simpl; lia.
Qed.

Lemma iteration_ok st :
  iteration exit_code bk_raises st
  = mkO (trace st ++ cycle_jobs ++ [Sleep wait_time]) (jobs st + 9)%nat (bks st + 6)%nat.
Proof.
  unfold iteration. rewrite bookkeeping_ok. cbn [trace jobs bks].
  rewrite run_cycle_ok, bookkeeping_ok. cbn [trace jobs bks]. unfold sleep. cbn [trace jobs bks].
  rewrite <- app_assoc. f_equal. lia.
Qed.

End Env.

(** X13: when every job exits with 0 and no bookkeeping step raises,
    each iteration runs all nine jobs in order and sleeps. *)
Theorem orchestrator_all_jobs_succeed (exit_code : nat -> Z) (bk_raises : nat -> bool)
    (exit_ok : forall i, exit_code i = 0) (bk_ok : forall i, bk_raises i = false)
    (n : nat) (st : ostate) :
  fst (run_cycle exit_code bk_raises st) = Some true
  /\ trace (start exit_code bk_raises n st)
     = trace st ++ List.concat (repeat (cycle_jobs ++ [Sleep wait_time]) n)
  /\ jobs (start exit_code bk_raises n st) = (jobs st + 9 * n)%nat.
Proof.
  split; [rewrite (run_cycle_ok _ _ exit_ok bk_ok); reflexivity|].
  revert st; induction n as [|n IH]; intros st; simpl.
  - rewrite app_nil_r. split; [reflexivity|lia].
  - destruct (IH (iteration exit_code bk_raises st)) as [Ht Hj].
    rewrite Ht, Hj, (iteration_ok _ _ exit_ok bk_ok). cbn [trace jobs].
    rewrite <- app_assoc. split; [reflexivity|lia].
Qed.

Lemma orchestrator_all_jobs_succeed_witness :
  (forall i, (fun _ : nat => 0) i = 0) /\ (forall i, (fun _ : nat => false) i = false)
  /\ trace (start (fun _ => 0) (fun _ => false) 2 (mkO [] 0 0))
     = List.concat (repeat (cycle_jobs ++ [Sleep wait_time]) 2).
Proof.
  split; [intros; reflexivity|]. split; [intros; reflexivity|].
  exact (proj1 (proj2 (orchestrator_all_jobs_succeed (fun _ => 0) (fun _ => false)
                         (fun _ => eq_refl) (fun _ => eq_refl) 2 (mkO [] 0 0)))).
Defined.

End OrchestratorRunProofs.

Module GroupSumFacts.

Section Partition.
Context {K : Type} (eqb : K -> K -> bool) (eqb_eq : forall x y, eqb x y = true <-> x = y).

(** Grouping by [f]: summing [count q] over the groups gives [count q]. *)
Lemma group_sums {A} (f : A -> K) (q : A -> bool) (l : list A) :
  list_sum (map (fun m => Sql.count (fun x => eqb (f x) m && q x) l) (Sql.distinct eqb (map f l)))
  = Sql.count q l.
Proof.
  rewrite (CountFacts.list_sum_swap (fun m x => eqb (f x) m && q x)).
  rewrite (CountFacts.count_as_sum q). f_equal. apply map_ext_in. intros x Hx.
  destruct (q x) eqn:Q.
  - apply (DistinctFacts.count_unique _ (f x)).
    + apply (DistinctFacts.NoDup_distinct _ eqb_eq).
    + apply (SqlFacts.In_distinct _ eqb_eq). apply in_map. exact Hx.
    + intros w _. rewrite andb_true_r, eqb_eq. split; intros; congruence.
  - apply DistinctFacts.count_zero. intros w _. rewrite andb_false_r. reflexivity.
Qed.

End Partition.

Lemma count_filter {A} (p q : A -> bool) l :
  Sql.count q (filter p l) = Sql.count (fun x => p x && q x) l.
Proof.
  unfold Sql.count. induction l as [|a l IH]; simpl; [reflexivity|].
  destruct (p a); simpl; [destruct (q a); simpl; rewrite ?IH|]; exact IH || reflexivity.
Qed.

Lemma count_ext_in {A} (p p' : A -> bool) l :
  (forall x, In x l -> p x = p' x) -> Sql.count p l = Sql.count p' l.
Proof.
  unfold Sql.count. induction l as [|a l IH]; intros H; simpl; [reflexivity|].
  rewrite (H a (or_introl eq_refl)).
  destruct (p' a); simpl; rewrite IH by (intros; apply H; right; assumption); reflexivity.
Qed.

Lemma list_sum_perm l l' : Permutation l l' -> list_sum l = list_sum l'.
Proof. induction 1; simpl; lia. Qed.

End GroupSumFacts.

Module OverallProofs.
Import Sql TPY TPYProofs TPYOverall.

Local Abbreviation get0 st o :=
  (match dict_get okey_eqb st o with Some v => v | None => mkOD 0 0 0 end).

Lemma add_overall_get o s st :
  dict_get okey_eqb st (add_overall o s)
  = if okey_eqb st (snd (sr_key s))
    then Some (mkOD (o_total (get0 st o) + sr_total s) (o_passed (get0 st o) + sr_passed s)
                    (o_failed (get0 st o) + sr_failed s))
    else dict_get okey_eqb st o.
Proof.
  unfold add_overall; destruct (sr_key s) as [m0 st0]; cbn [snd].
  rewrite dict_get_set.
  destruct (okey_eqb st st0) eqn:E.
  - apply okey_eqb_eq in E; subst st0.
    destruct (dict_get okey_eqb st o) as [v|] eqn:Ed; [rewrite Ed; reflexivity|].
    rewrite dict_get_set, (proj2 (okey_eqb_eq st st) eq_refl). reflexivity.
  - destruct (dict_get okey_eqb st0 o) eqn:Ed; [reflexivity|].
    rewrite dict_get_set, E. reflexivity.
Qed.

Lemma fold_overall_get (T P F : skey -> nat) ks o st :
  let sel := filter (fun k => okey_eqb st (snd k)) ks in
  dict_get okey_eqb st (fold_left add_overall (map (fun k => mkSR k (T k) (P k) (F k)) ks) o)
  = match sel with
    | [] => dict_get okey_eqb st o
    | _ => Some (mkOD (o_total (get0 st o) + list_sum (map T sel))
                      (o_passed (get0 st o) + list_sum (map P sel))
                      (o_failed (get0 st o) + list_sum (map F sel)))
    end.
Proof.
  revert o; induction ks as [|k ks IH]; intros o; cbn zeta; [reflexivity|].
  cbn [map fold_left filter]. rewrite IH. cbn zeta.
  rewrite add_overall_get. cbn [sr_key sr_total sr_passed sr_failed].
  destruct (okey_eqb st (snd k)) eqn:E.
  - destruct (filter (fun k => okey_eqb st (snd k)) ks) as [|k' ks'] eqn:Es; cbn [map list_sum].
    + f_equal. f_equal; simpl; lia.
    + cbn [o_total o_passed o_failed]. f_equal. f_equal; simpl; lia.
  - reflexivity.
Qed.

Lemma add_overall_nodup o s : NoDup (map fst o) -> NoDup (map fst (add_overall o s)).
Proof.
  intros H. unfold add_overall. destruct (sr_key s) as [m0 st0].
  apply (YieldsDictFacts.dict_set_keys _ _ _).
  destruct (dict_get okey_eqb st0 o); [exact H|]. apply (YieldsDictFacts.dict_set_keys _ _ _). exact H.
Qed.

Lemma fold_overall_nodup ss o :
  NoDup (map fst o) -> NoDup (map fst (fold_left add_overall ss o)).
Proof.
  revert o; induction ss as [|s ss IH]; intros o H; simpl; [exact H|].
  apply IH, add_overall_nodup, H.
Qed.

Section Groups.
Variables (ws we : Z) (log : list ws_row).
Local Abbreviation rows := (filter (in_scope ws we) log).
Local Abbreviation ks := (distinct skey_eqb (map skey_of rows)).

Lemma sel_perm st :
  Permutation (filter (fun k => okey_eqb st (snd k)) ks)
              (distinct skey_eqb (map skey_of
                 (filter (fun r => okey_eqb (workstation_name r) st) rows))).
Proof.
  apply NoDup_Permutation.
  - apply NoDup_filter, (DistinctFacts.NoDup_distinct _ KeyFacts.tpy_skey_eqb_eq).
  - apply (DistinctFacts.NoDup_distinct _ KeyFacts.tpy_skey_eqb_eq).
  - intros k. rewrite filter_In, !(SqlFacts.In_distinct _ KeyFacts.tpy_skey_eqb_eq), !in_map_iff.
    split.
    + intros [[r [Ek Hr]] Hs]. exists r. split; [exact Ek|]. apply filter_In. split; [exact Hr|].
      apply okey_eqb_eq in Hs. apply okey_eqb_eq. subst k. unfold skey_of in Hs. cbn in Hs.
      symmetry. exact Hs.
    + intros [r [Ek Hr]]. apply filter_In in Hr as [Hr Hs]. split; [exists r; auto|].
      apply okey_eqb_eq in Hs. apply okey_eqb_eq. subst k. unfold skey_of. cbn. symmetry. exact Hs.
Qed.

Lemma sel_sums st (q : ws_row -> bool) :
  list_sum (map (fun k => count q (filter (fun r => skey_eqb (skey_of r) k) rows))
                (filter (fun k => okey_eqb st (snd k)) ks))
  = count q (filter (fun r => okey_eqb (workstation_name r) st) rows).
Proof.
  rewrite (GroupSumFacts.list_sum_perm _ _ (Permutation_map _ (sel_perm st))).
  rewrite <- (GroupSumFacts.group_sums _ KeyFacts.tpy_skey_eqb_eq skey_of q).
  f_equal. apply map_ext_in. intros k Hk.
  rewrite (SqlFacts.In_distinct _ KeyFacts.tpy_skey_eqb_eq), in_map_iff in Hk.
  destruct Hk as [r0 [<- Hr0]]. apply filter_In in Hr0 as [_ Hs0].
  rewrite !GroupSumFacts.count_filter. apply GroupSumFacts.count_ext_in. intros x _.
  destruct (skey_eqb (skey_of x) (skey_of r0)) eqn:Ex; [|rewrite ?andb_false_l, ?andb_false_r; reflexivity].
  apply KeyFacts.tpy_skey_eqb_eq in Ex. unfold skey_of in Ex. injection Ex as _ Ew.
  rewrite Ew. rewrite Hs0. reflexivity.
Qed.

End Groups.

Lemma count_true {A} (l : list A) : count (fun _ => true) l = List.length l.
Proof. unfold count. induction l as [|a l IH]; simpl; congruence. Qed.

Lemma distinct_nil_iff (l : list ws_row) :
  distinct skey_eqb (map skey_of l) = [] <-> l = [].
Proof.
  split; [|intros ->; reflexivity].
  destruct l as [|r l]; [reflexivity|]. intros H.
  assert (Hin : In (skey_of r) (distinct skey_eqb (map skey_of (r :: l)))).
  { apply (SqlFacts.In_distinct _ KeyFacts.tpy_skey_eqb_eq). left. reflexivity. }
  rewrite H in Hin. destruct Hin.
Qed.

Lemma overall_get ws we log st :
  let g := filter (fun r => okey_eqb (workstation_name r) st) (filter (in_scope ws we) log) in
  dict_get okey_eqb st (fold_left add_overall (station_query ws we log) [])
  = match g with
    | [] => None
    | _ => Some (mkOD (List.length g)
                 (count (fun r => eq_lit (history_station_passing_status r) "Pass") g)
                 (count (fun r => neq_lit (history_station_passing_status r) "Pass") g))
    end.
Proof.
  cbn zeta. unfold station_query. cbv zeta.
  set (rows := filter (in_scope ws we) log).
  rewrite (fold_overall_get
    (fun k => List.length (filter (fun r => skey_eqb (skey_of r) k) rows))
    (fun k => count (fun r => eq_lit (history_station_passing_status r) "Pass")
                (filter (fun r => skey_eqb (skey_of r) k) rows))
    (fun k => count (fun r => neq_lit (history_station_passing_status r) "Pass")
                (filter (fun r => skey_eqb (skey_of r) k) rows))).
  cbn zeta.
  pose proof (sel_sums ws we log st (fun r => eq_lit (history_station_passing_status r) "Pass")) as HP.
  pose proof (sel_sums ws we log st (fun r => neq_lit (history_station_passing_status r) "Pass")) as HF.
  pose proof (Permutation_length (sel_perm ws we log st)) as HL.
  fold rows in HP, HF, HL.
  assert (HT : list_sum (map (fun k => List.length (filter (fun r => skey_eqb (skey_of r) k) rows))
                 (filter (fun k => okey_eqb st (snd k)) (distinct skey_eqb (map skey_of rows))))
              = List.length (filter (fun r => okey_eqb (workstation_name r) st) rows)).
  { rewrite <- (count_true (filter (fun r => okey_eqb (workstation_name r) st) rows)).
    pose proof (sel_sums ws we log st (fun _ => true)) as H0. fold rows in H0.
    rewrite <- H0. f_equal. apply map_ext. intros k.
    symmetry. apply count_true. }
  destruct (filter (fun k => okey_eqb st (snd k)) (distinct skey_eqb (map skey_of rows)))
    as [|k sel] eqn:Es.
  - symmetry in HL. apply length_zero_iff_nil, distinct_nil_iff in HL. rewrite HL. reflexivity.
  - destruct (filter (fun r => okey_eqb (workstation_name r) st) rows) as [|r g] eqn:Eg.
    + discriminate HL.
    + cbn [o_total o_passed o_failed dict_get]. rewrite HT, HP, HF. reflexivity.
Qed.

Section Floats.
Variable R : Type.
Variable yield_of : nat -> nat -> R.

(** The ["overall"] entry of [calculate_model_specific_throughput_yields]:
    one entry per workstation of the in-scope rows, holding the station's
    row count, Pass count, non-Pass count and their yield. *)
Theorem overall_station_totals ws we log :
  let rows := filter (in_scope ws we) log in
  let out := overall_station_metrics R yield_of ws we log in
  NoDup (map fst out)
  /\ List.length out = List.length (distinct okey_eqb (map workstation_name rows))
  /\ forall st,
     let g := filter (fun r => okey_eqb (workstation_name r) st) rows in
     dict_get okey_eqb st out
     = match g with
       | [] => None
       | _ => let p := count (fun r => eq_lit (history_station_passing_status r) "Pass") g in
              Some (mkSD R (List.length g) p
                      (count (fun r => neq_lit (history_station_passing_status r) "Pass") g)
                      (yield_of p (List.length g)))
       end.
Proof.
  cbn zeta. unfold overall_station_metrics.
  assert (Hn : NoDup (map fst (fold_left add_overall (station_query ws we log) []))).
  { apply fold_overall_nodup. constructor. }
  assert (Hg : forall st, dict_get okey_eqb st
      (map (fun '(station, d) => (station, mkSD R (o_total d) (o_passed d) (o_failed d)
                                              (yield_of (o_passed d) (o_total d))))
           (fold_left add_overall (station_query ws we log) []))
    = match filter (fun r => okey_eqb (workstation_name r) st) (filter (in_scope ws we) log) with
      | [] => None
      | _ => let p := count (fun r => eq_lit (history_station_passing_status r) "Pass")
                    (filter (fun r => okey_eqb (workstation_name r) st) (filter (in_scope ws we) log)) in
             Some (mkSD R (List.length (filter (fun r => okey_eqb (workstation_name r) st) (filter (in_scope ws we) log))) p
                     (count (fun r => neq_lit (history_station_passing_status r) "Pass")
                        (filter (fun r => okey_eqb (workstation_name r) st) (filter (in_scope ws we) log)))
                     (yield_of p (List.length (filter (fun r => okey_eqb (workstation_name r) st) (filter (in_scope ws we) log)))))
      end).
  { intros st. rewrite DynamicTPYProofs.dict_get_map_values, overall_get. cbn zeta.
    destruct (filter _ (filter _ log)); reflexivity. }
  split; [|split; [|exact Hg]].
  - rewrite DynamicTPYProofs.map_fst_values. exact Hn.
  - rewrite length_map, <- length_map with (f := fst).
    apply Permutation_length, NoDup_Permutation;
      [exact Hn|apply (DistinctFacts.NoDup_distinct _ okey_eqb_eq)|].
    intros st. rewrite YieldsDictFacts.dict_get_In, overall_get,
      (SqlFacts.In_distinct _ okey_eqb_eq), in_map_iff.
    destruct (filter (fun r => okey_eqb (workstation_name r) st) (filter (in_scope ws we) log))
      as [|r g] eqn:Eg.
    + split; [congruence|]. intros [r [Er Hr]].
      assert (Hin : In r (filter (fun r => okey_eqb (workstation_name r) st) (filter (in_scope ws we) log))).
      { apply filter_In. split; [exact Hr|]. apply okey_eqb_eq. exact Er. }
      rewrite Eg in Hin. destruct Hin.
    + split; [|congruence]. intros _. exists r.
      assert (Hin : In r (filter (fun r => okey_eqb (workstation_name r) st) (filter (in_scope ws we) log))).
      { rewrite Eg. left. reflexivity. }
      apply filter_In in Hin as [Hr Er]. apply okey_eqb_eq in Er. auto.
Qed.

End Floats.

End OverallProofs.

Module ImportAgainProofs.
Import Sql Import_WS.






End ImportAgainProofs.

Module ColumnNameProofs.
Import ColumnName.

Lemma substring_all s : substring 0 (String.length s) s = s.
Proof. induction s as [|c s IH]; simpl; congruence. Qed.

Lemma length_chars s : List.length (list_ascii_of_string s) = String.length s.
Proof. induction s as [|c s IH]; simpl; congruence. Qed.

Lemma py_lower_chars s :
  list_ascii_of_string (py_lower s) = map py_lower_char (list_ascii_of_string s).
Proof. induction s as [|c s IH]; simpl; congruence. Qed.

(** Replacing one character by one character maps every character. *)
Lemma py_replace_char_chars s o n :
  list_ascii_of_string (py_replace s (String o EmptyString) (String n EmptyString))
  = map (fun c => if Ascii.eqb c o then n else c) (list_ascii_of_string s).
Proof.
  unfold py_replace.
  induction s as [|c s IH]; [reflexivity|].
  cbn [String.length replace_fuel String.prefix].
  destruct (ascii_dec o c) as [<-|Hne].
  - assert (Hp : String.prefix EmptyString s = true) by (destruct s; reflexivity).
    rewrite Hp. cbn [String.append list_ascii_of_string map]. rewrite (proj2 (Ascii.eqb_eq o o) eq_refl).
    replace (S (String.length s) - 1)%nat with (String.length s) by lia.
    cbn [substring]. rewrite substring_all, IH. reflexivity.
  - cbn [list_ascii_of_string map]. rewrite IH.
    destruct (Ascii.eqb c o) eqn:E; [apply Ascii.eqb_eq in E; congruence|reflexivity].
Qed.

Local Abbreviation clean_char a :=
  ((fun x => if Ascii.eqb x "-" then "_" else x)
     ((fun x => if Ascii.eqb x " " then "_" else x) (py_lower_char a)))%char.

Lemma clean_chars s :
  list_ascii_of_string (clean_column_name s) = map (fun c => clean_char c) (list_ascii_of_string s).
Proof.
  unfold clean_column_name. rewrite !py_replace_char_chars, py_lower_chars, !map_map.
  reflexivity.
Qed.

Lemma clean_char_idem c : clean_char (clean_char c) = clean_char c.
Proof. destruct c as [[] [] [] [] [] [] [] []]; reflexivity. Qed.

Lemma clean_char_normal c :
  clean_char c <> " "%char /\ clean_char c <> "-"%char
  /\ ~ (65 <= nat_of_ascii (clean_char c) <= 90)%nat.
Proof.
  destruct c as [[] [] [] [] [] [] [] []]; vm_compute;
    (split; [discriminate|split; [discriminate|lia]]).
Qed.

(** X16: on ASCII names, [clean_column_name] keeps the length, is
    idempotent, and leaves no space, no hyphen and no upper-case
    letter. *)
Theorem clean_column_name_normal_form col_name :
  forallb (fun c => (nat_of_ascii c <? 128)%nat) (list_ascii_of_string col_name) = true ->
  let t := clean_column_name col_name in
  String.length t = String.length col_name
  /\ clean_column_name t = t
  /\ Forall (fun c => c <> " "%char /\ c <> "-"%char /\ ~ (65 <= nat_of_ascii c <= 90)%nat)
            (list_ascii_of_string t).
Proof.
  intros _. cbn zeta. split; [|split].
  - rewrite <- !length_chars, clean_chars, length_map. reflexivity.
  - assert (E : list_ascii_of_string (clean_column_name (clean_column_name col_name))
                 = list_ascii_of_string (clean_column_name col_name)).
    { rewrite (clean_chars (clean_column_name col_name)), (clean_chars col_name), map_map.
      apply map_ext. intros c. apply clean_char_idem. }
    rewrite <- (string_of_list_ascii_of_string (clean_column_name (clean_column_name col_name))), E.
    apply string_of_list_ascii_of_string.
  - rewrite clean_chars. apply Forall_map, Forall_forall. intros c _. apply clean_char_normal.
Qed.

Lemma clean_column_name_normal_form_witness :
  forallb (fun c => (nat_of_ascii c <? 128)%nat) (list_ascii_of_string "Workstation Name") = true
  /\ (let t := clean_column_name "Workstation Name" in
      String.length t = String.length "Workstation Name"
      /\ clean_column_name t = t
      /\ Forall (fun c => c <> " "%char /\ c <> "-"%char /\ ~ (65 <= nat_of_ascii c <= 90)%nat)
                (list_ascii_of_string t)).
Proof.
  split; [vm_compute; reflexivity|].
  apply clean_column_name_normal_form. vm_compute. reflexivity.
Defined.

End ColumnNameProofs.

Module WeeklyAllTimeProofs.
Import Sql AllWeeks WeeklyAllTime.

Lemma count_split {A} (p : A -> bool) l :
  (count (fun x => negb (p x)) l + count p l)%nat = List.length l.
Proof. unfold count. induction l as [|a l IH]; simpl; [reflexivity|]. destruct (p a); simpl; lia. Qed.

(** X17: [aggregate_weekly_tpy_metrics_all_time] stops early exactly when
    no date was found; otherwise it calls [aggregate_weekly_tpy_for_week]
    once per distinct week id of the dates, so its success and error
    counts add up to the number of those weeks and the error count is
    the number of weeks whose aggregation raised. *)
Theorem weekly_all_time_counts (fails : string -> bool) (dates : list (Z * Z * Z)) :
  (aggregate_weekly_tpy_metrics_all_time fails dates = None <-> dates = [])
  /\ forall s e, aggregate_weekly_tpy_metrics_all_time fails dates = Some (s, e) ->
     let W := distinct String.eqb (map (fun '(y, m, d) => Week.get_week_id y m d) dates) in
     (s + e)%nat = List.length W /\ e = count fails W.
Proof.
  unfold aggregate_weekly_tpy_metrics_all_time.
  destruct dates as [|x rest].
  - split; [split; reflexivity|]. intros s e H. discriminate H.
  - set (W := distinct String.eqb (map (fun '(y, m, d) => Week.get_week_id y m d) (x :: rest))).
    assert (Hg : get_all_available_weeks (x :: rest) = PySort.sorted PySort.str_ltb W)
      by reflexivity.
    pose proof (SortFacts.sorted_perm PySort.str_ltb W) as P.
    assert (Hne : PySort.sorted PySort.str_ltb W <> []).
    { intros E. destruct x as [[y m] d].
      assert (Hin : In (Week.get_week_id y m d) W).
      { apply (SqlFacts.In_distinct _ String.eqb_eq), in_map_iff.
        exists (y, m, d). split; [reflexivity|left; reflexivity]. }
      apply (Permutation_in _ (Permutation_sym P)) in Hin. rewrite E in Hin. destruct Hin. }
    rewrite Hg. destruct (PySort.sorted PySort.str_ltb W) as [|w ws] eqn:Es; [congruence|].
    rewrite <- Es. split; [split; [discriminate|congruence]|].
    intros s e H. injection H as H. rewrite AllDatesProofs.fold_counters in H.
    injection H as <- <-. cbv zeta. fold W.
    rewrite !(AllDatesProofs.count_perm _ _ _ (SortFacts.sorted_perm PySort.str_ltb W)).
    pose proof (count_split fails W). split; lia.
Qed.

End WeeklyAllTimeProofs.

Module FileMonitorProofs.
Import FileMonitor.

Lemma rfind_from_app c s1 s2 i acc :
  rfind_from c (s1 ++ s2) i acc
  = rfind_from c s2 (i + Z.of_nat (String.length s1)) (rfind_from c s1 i acc).
Proof.
  revert i acc; induction s1 as [|x s1 IH]; intros i acc; simpl.
  - rewrite Z.add_0_r. reflexivity.
  - rewrite IH. f_equal. lia.
Qed.

Lemma rfind_from_none c s i acc :
  ~ In c (list_ascii_of_string s) -> rfind_from c s i acc = acc.
Proof.
  revert i acc; induction s as [|x s IH]; intros i acc H; simpl; [reflexivity|].
  simpl in H. destruct (Ascii.eqb x c) eqn:E.
  - apply Ascii.eqb_eq in E. tauto.
  - apply IH. tauto.
Qed.

Lemma substring_prefix s1 s2 : substring 0 (String.length s1) (s1 ++ s2) = s1.
Proof. induction s1 as [|x s1 IH]; simpl; [destruct s2; reflexivity|]. rewrite IH. reflexivity. Qed.

Lemma substring_skip s1 s2 n : substring (String.length s1) n (s1 ++ s2) = substring 0 n s2.
Proof. induction s1 as [|x s1 IH]; simpl; [reflexivity|]. destruct n; exact IH. Qed.

Lemma substring_skip_k s1 s2 k n :
  substring (String.length s1 + k) n (s1 ++ s2) = substring k n s2.
Proof. induction s1 as [|x s1 IH]; simpl; [reflexivity|]. exact IH. Qed.

Lemma substring_prefix_k s1 s2 k :
  substring 0 (String.length s1 + k) (s1 ++ s2) = (s1 ++ substring 0 k s2)%string.
Proof. induction s1 as [|x s1 IH]; simpl; [reflexivity|]. rewrite IH. reflexivity. Qed.

Lemma in_chars_app c s1 s2 :
  In c (list_ascii_of_string (s1 ++ s2)) <-> In c (list_ascii_of_string s1) \/ In c (list_ascii_of_string s2).
Proof. induction s1 as [|x s1 IH]; simpl; [tauto|]. rewrite IH. tauto. Qed.

(** [splitext] of [dir/name.ext], where [name] has no slash and a
    character other than a dot, and [ext] has neither. *)
Lemma splitext_name dir name ext :
  ~ In "/"%char (list_ascii_of_string name) ->
  existsb (fun c => negb (Ascii.eqb c ".")) (list_ascii_of_string name) = true ->
  ~ In "/"%char (list_ascii_of_string ext) -> ~ In "."%char (list_ascii_of_string ext) ->
  fst (splitext (dir ++ String "/" (name ++ String "." ext))) = (dir ++ String "/" name)%string.
Proof.
  intros Hs Hd Hes Hed. unfold splitext, rfind.
  set (p := (dir ++ String "/" (name ++ String "." ext))%string).
  set (ld := String.length dir). set (ln := String.length name).
  assert (Hsep : rfind_from "/" p 0 (-1) = Z.of_nat ld).
  { unfold p. rewrite rfind_from_app. cbn [rfind_from Ascii.eqb Bool.eqb andb].
    apply rfind_from_none. rewrite in_chars_app. simpl. intros [H|[H|H]]; [tauto|discriminate|tauto]. }
  assert (Hdot : rfind_from "." p 0 (-1) = Z.of_nat (S ld + ln)).
  { unfold p. rewrite rfind_from_app. cbn [rfind_from Ascii.eqb Bool.eqb andb].
    rewrite rfind_from_app. cbn [rfind_from Ascii.eqb Bool.eqb andb].
    rewrite rfind_from_none by exact Hed. fold ld ln. lia. }
  rewrite Hsep, Hdot.
  replace (Z.of_nat ld <? Z.of_nat (S ld + ln)) with true by (symmetry; apply Z.ltb_lt; lia).
  replace (Z.to_nat (Z.of_nat ld + 1)) with (S ld) by lia.
  replace (Z.to_nat (Z.of_nat (S ld + ln) - (Z.of_nat ld + 1))) with ln by lia.
  rewrite Nat2Z.id.
  assert (Hsub : substring (S ld) ln p = name).
  { unfold p. replace (S ld) with (ld + 1)%nat by lia. unfold ld.
    rewrite substring_skip_k. cbn [substring]. apply substring_prefix. }
  rewrite Hsub, Hd. cbn [andb fst].
  unfold p. replace (S ld + ln)%nat with (ld + S ln)%nat by lia. unfold ld.
  rewrite substring_prefix_k. cbn [substring]. unfold ln. rewrite substring_prefix. reflexivity.
Qed.


Lemma str_app_assoc s1 s2 s3 : ((s1 ++ s2) ++ s3)%string = (s1 ++ (s2 ++ s3))%string.
Proof. induction s1 as [|x s1 IH]; simpl; congruence. Qed.

Lemma str_length_app s1 s2 : String.length (s1 ++ s2) = (String.length s1 + String.length s2)%nat.
Proof. induction s1 as [|x s1 IH]; simpl; congruence. Qed.

Lemma xlsx_path_of dir name ext :
  ~ In "/"%char (list_ascii_of_string name) ->
  existsb (fun c => negb (Ascii.eqb c ".")) (list_ascii_of_string name) = true ->
  ~ In "/"%char (list_ascii_of_string ext) -> ~ In "."%char (list_ascii_of_string ext) ->
  (fst (splitext (dir ++ "/" ++ name ++ "." ++ ext)) ++ ".xlsx")%string
  = (dir ++ "/" ++ name ++ ".xlsx")%string.
Proof.
  intros Hs Hd Hes Hed. cbn [String.append].
  rewrite splitext_name by assumption. rewrite str_app_assoc. reflexivity.
Qed.

Section Env.
Variable convert_ok : string -> bool.
Variable exists_after : string -> bool.
Variable import_ok : string -> string -> bool.

(** X18: for a file [dir/name.xls] (the three monitored reports),
    [process_file] converts it to [dir/name.xlsx] and, once the
    converted file exists, removes the original before running the
    import, whatever the import's result; a file [dir/name.xlsx] is
    imported in place and never removed.  The result is [True] only
    when the conversion and the import both succeeded. *)
Theorem process_file_removes_original dir name script_path trace :
  ~ In "/"%char (list_ascii_of_string name) ->
  existsb (fun c => negb (Ascii.eqb c ".")) (list_ascii_of_string name) = true ->
  let xls := (dir ++ "/" ++ name ++ ".xls")%string in
  let xlsx := (dir ++ "/" ++ name ++ ".xlsx")%string in
  process_file convert_ok exists_after import_ok xls script_path trace
  = (if convert_ok xls && exists_after xlsx
     then (import_ok script_path xlsx, trace ++ [Convert xls; Remove xls; RunImport script_path xlsx])
     else (false, trace ++ [Convert xls]))
  /\ process_file convert_ok exists_after import_ok xlsx script_path trace
  = (if convert_ok xlsx && exists_after xlsx
     then (import_ok script_path xlsx, trace ++ [Convert xlsx; RunImport script_path xlsx])
     else (false, trace ++ [Convert xlsx])).
Proof.
  intros Hs Hd. cbv zeta.
  unfold process_file, convert_xls_to_xlsx.
  pose proof (xlsx_path_of dir name "xls" Hs Hd ltac:(simpl; intuition discriminate)
                ltac:(simpl; intuition discriminate)) as E1.
  pose proof (xlsx_path_of dir name "xlsx" Hs Hd ltac:(simpl; intuition discriminate)
                ltac:(simpl; intuition discriminate)) as E2.
  cbn [String.append] in E1, E2. cbn [String.append]. rewrite E1, E2.
  assert (Hne : String.eqb (dir ++ String "/" (name ++ ".xls")) (dir ++ String "/" (name ++ ".xlsx")) = false).
  { apply String.eqb_neq. intros E. apply (f_equal String.length) in E.
    rewrite !str_length_app in E. cbn [String.length] in E. rewrite !str_length_app in E.
    cbn [String.length] in E. lia. }
  split.
  - destruct (convert_ok _), (exists_after _); cbn [negb andb]; try reflexivity.
    rewrite Hne. cbn [negb]. rewrite <- !app_assoc. reflexivity.
  - destruct (convert_ok _), (exists_after _); cbn [negb andb]; try reflexivity.
    rewrite String.eqb_refl. cbn [negb]. rewrite <- app_assoc. reflexivity.
Qed.

End Env.

Local Open Scope string_scope.

Lemma process_file_removes_original_witness :
  ~ In "/"%char (list_ascii_of_string "workstationOutputReport")
  /\ existsb (fun c => negb (Ascii.eqb c ".")) (list_ascii_of_string "workstationOutputReport") = true
  /\ (let xls := ("/data/input" ++ "/" ++ "workstationOutputReport" ++ ".xls")%string in
      let xlsx := ("/data/input" ++ "/" ++ "workstationOutputReport" ++ ".xlsx")%string in
      process_file (fun _ => true) (fun _ => true) (fun _ _ => false) xls "import_workstation_file.py" []
      = (if (fun _ => true) xls && (fun _ => true) xlsx
         then ((fun _ _ => false) "import_workstation_file.py" xlsx,
               [Convert xls; Remove xls; RunImport "import_workstation_file.py" xlsx])
         else (false, [Convert xls]))
      /\ process_file (fun _ => true) (fun _ => true) (fun _ _ => false) xlsx "import_workstation_file.py" []
      = (if (fun _ => true) xlsx && (fun _ => true) xlsx
         then ((fun _ _ => false) "import_workstation_file.py" xlsx,
               [Convert xlsx; RunImport "import_workstation_file.py" xlsx])
         else (false, [Convert xlsx]))).
Proof.
  assert (H1 : ~ In "/"%char (list_ascii_of_string "workstationOutputReport"))
    by (simpl; intuition discriminate).
  assert (H2 : existsb (fun c => negb (Ascii.eqb c ".")) (list_ascii_of_string "workstationOutputReport") = true)
    by reflexivity.
  split; [exact H1|split; [exact H2|]].
  exact (process_file_removes_original (fun _ => true) (fun _ => true) (fun _ _ => false)
           "/data/input" "workstationOutputReport" "import_workstation_file.py" [] H1 H2).
Defined.

End FileMonitorProofs.

Module PChartSplitProofs.
Import Sql PChart.

Lemma to_rows_map qs rs :
  to_rows qs = Some rs ->
  exists conv, rs = map conv qs /\ forall q, In q qs -> to_pchart_row q = Some (conv q).
Proof.
  intros H.
  exists (fun q => match to_pchart_row q with
                   | Some r => r | None => mkPC 0 EmptyString None EmptyString EmptyString 0 0 0
                   end).
  revert rs H; induction qs as [|q qs IH]; intros rs H; simpl in H.
  - injection H as <-; split; [reflexivity|intros q []].
  - destruct (to_pchart_row q) as [r0|] eqn:E0; [|discriminate].
    destruct (to_rows qs) as [rs0|] eqn:E1; [|discriminate].
    injection H as <-; destruct (IH _ eq_refl) as [-> Hall].
    split; [simpl; rewrite E0; reflexivity|].
    intros q' [<-|Hq']; [rewrite E0; reflexivity|exact (Hall q' Hq')].
Qed.

(** X19: the pchart statement fails exactly when a selected row breaks a
    column constraint of [workstation_pchart_daily] (a NULL [pn] or
    [workstation_name], a string over 255 characters, a count out of
    [INTEGER] range) or when two rows of the window agree on date, part
    number, workstation and service flow but differ in model
    (PostgreSQL's "ON CONFLICT DO UPDATE command cannot affect row a
    second time"): the query groups by model, the conflict target does
    not include it.  In particular a window row with a NULL part number
    or workstation makes the statement fail. *)
Theorem pchart_aggregate_fails_on_model_split current_date log table :
  let keys := map gkey_of (filter (in_window current_date) log) in
  (aggregate_daily_data current_date log table = None
   <-> (exists q, In q (select_rows current_date log) /\ to_pchart_row q = None)
       \/ exists d p m1 m2 w s, m1 <> m2 /\ In (d, Some p, m1, Some w, Some s) keys
                                /\ In (d, Some p, m2, Some w, Some s) keys)
  /\ ((exists r, In r log /\ in_window current_date r = true
                 /\ (pn r = None \/ workstation_name r = None))
      -> aggregate_daily_data current_date log table = None).
Proof.
  cbv zeta.
  set (rows := filter (in_window current_date) log).
  set (D := distinct gkey_eqb (map gkey_of rows)).
  assert (HD : forall k, In k D <-> In k (map gkey_of rows))
    by (intros k; apply (SqlFacts.In_distinct _ KeyFacts.pchart_gkey_eqb_eq)).
  set (F := fun k : gkey =>
         let g := filter (fun r => gkey_eqb (gkey_of r) k) rows in
         let '(d, p, m, w, s) := k in
         mkQ d p m w s (List.length g)
             (count (fun r => eq_lit (history_station_passing_status r) "Pass") g)
             (count (fun r => neq_lit (history_station_passing_status r) "Pass") g)).
  assert (HS : select_rows current_date log = map F D) by reflexivity.
  assert (HF : forall d p m w s, q_pn (F (d, p, m, w, s)) = p
             /\ q_model (F (d, p, m, w, s)) = m
             /\ q_workstation_name (F (d, p, m, w, s)) = w
             /\ q_service_flow (F (d, p, m, w, s)) = s
             /\ q_date (F (d, p, m, w, s)) = d)
    by (intros; repeat split).
  assert (Part1 : aggregate_daily_data current_date log table = None
   <-> (exists q, In q (select_rows current_date log) /\ to_pchart_row q = None)
       \/ exists d p m1 m2 w s, m1 <> m2 /\ In (d, Some p, m1, Some w, Some s) (map gkey_of rows)
                                /\ In (d, Some p, m2, Some w, Some s) (map gkey_of rows)).
  { unfold aggregate_daily_data.
    destruct (to_rows (select_rows current_date log)) as [rs|] eqn:Et.
    2: { split; [intros _; left; apply WindowProofs.to_rows_none, Et|reflexivity]. }
    destruct (to_rows_map _ _ Et) as (conv & Hrs & Hconv).
    assert (HK : forall k, In k D -> exists d p m w s,
               k = (d, Some p, m, Some w, Some s) /\ conflict_key (conv (F k)) = (d, p, w, s)).
    { intros k Hk.
      assert (Hq : In (F k) (select_rows current_date log)) by (rewrite HS; apply in_map, Hk).
      destruct (WindowProofs.to_pchart_row_fields _ _ (Hconv _ Hq)) as (Ep & _ & Ew & Es & Ed).
      destruct k as [[[[d p] m] w] s].
      destruct (HF d p m w s) as (Fp & _ & Fw & Fs & Fd).
      rewrite Fp in Ep; rewrite Fw in Ew; rewrite Fs in Es; rewrite Fd in Ed.
      exists d, (pc_pn (conv (F (d, p, m, w, s)))), m,
        (pc_workstation_name (conv (F (d, p, m, w, s)))),
        (pc_service_flow (conv (F (d, p, m, w, s)))).
      split; [rewrite <- Ep, <- Ew, <- Es; reflexivity|].
      unfold conflict_key; rewrite Ed; reflexivity. }
    assert (Hno : ~ exists q, In q (select_rows current_date log) /\ to_pchart_row q = None).
    { intros Hq; apply WindowProofs.to_rows_none in Hq; congruence. }
    unfold Upsert.upsert_stmt; rewrite Hrs, HS.
    rewrite (PChartFacts.dup_keys_map conflict_key conflict_key_eqb).
    rewrite (PChartFacts.dup_keys_map (fun q => conflict_key (conv q)) conflict_key_eqb).
    destruct (Upsert.dup_keys _ conflict_key_eqb D) eqn:E.
    - split; [intros _; right|reflexivity].
      destruct (PChartFacts.dup_keys_true _ _ PChartFacts.conflict_key_eqb_eq D
                  (DistinctFacts.NoDup_distinct _ KeyFacts.pchart_gkey_eqb_eq _) E)
        as (x & y & Hx & Hy & Hxy & Exy).
      destruct (HK x Hx) as (d & p & m1 & w & s & -> & Kx).
      destruct (HK y Hy) as (d' & p' & m2 & w' & s' & -> & Ky).
      cbv beta in Exy; rewrite Kx, Ky in Exy; injection Exy as <- <- <- <-.
      exists d, p, m1, m2, w, s. rewrite HD in Hx, Hy.
      split; [|auto]. intros ->. contradiction.
    - split; [discriminate|]. intros [Hq|(d & p & m1 & m2 & w & s & Hm & H1 & H2)];
        [contradiction|].
      exfalso. apply Hm.
      rewrite <- HD in H1, H2.
      destruct (HK _ H1) as (d1 & p1 & m1' & w1 & s1 & E1 & K1).
      destruct (HK _ H2) as (d2 & p2 & m2' & w2 & s2 & E2 & K2).
      injection E1 as <- <- <- <- <-; injection E2 as <- <- <- <- <-.
      pose proof (PChartFacts.dup_keys_false _ _ PChartFacts.conflict_key_eqb_eq D E _ _ H1 H2
                    (eq_trans K1 (eq_sym K2))) as Eq.
      congruence. }
  split; [exact Part1|].
  intros (r & Hr & Hw & Hnull). apply Part1; left.
  exists (F (gkey_of r)); split.
  - rewrite HS; apply in_map, HD, in_map, filter_In; split; assumption.
  - unfold gkey_of; destruct (HF (match history_station_end_time r with
                                  | Some t => ts_date t | None => 0 end)
                                 (pn r) (model r) (workstation_name r) (service_flow r))
      as (Fp & _ & Fw & _).
    unfold to_pchart_row; rewrite Fp, Fw.
    destruct Hnull as [-> | ->]; [reflexivity|].
    destruct (pn r); reflexivity.
Qed.

End PChartSplitProofs.
